(** * haven-chat-org/core: export archive signing and sender keys

    A shallow embedding of [src/export/signing.ts], [src/export/archive.ts],
    [src/export/reader.ts] and [src/export/types.ts], and of the sender-key
    subsystem of [src/crypto/sender-keys.ts].

    Conventions of the embedding.
    - A JavaScript string is a Rocq [string], one character per code unit.
      The embedding is exact for strings of ASCII code units, where the
      order of code units is the order of bytes and [TextEncoder] is the
      identity on bytes.
    - A [Uint8Array] is a [list byte].
    - A JavaScript number that the code uses as a count, a size or an index
      is a [Z]; [JSON.stringify] prints it in decimal.
    - A plain object, a [Record<string, T>] and a [Map<string, T>] are
      association lists in insertion order, with unique keys.
    - A call that can throw returns a [result]: [Return v], or [Throw e]
      with the error; [js A] is the case of an [Error] with its message. *)

From Stdlib Require Import String Ascii List ZArith NArith Lia Bool DecimalString.
From Stdlib Require Import Permutation Sorted.
From Stdlib.Strings Require Import Byte.
Import ListNotations.
Open Scope list_scope.
Open Scope string_scope.

Set Implicit Arguments.
Set Warnings "-register-all".

(** ** Bytes and strings *)

Definition bytes := list byte.

(** [new TextEncoder().encode(s)] on a string of ASCII code units. *)
Definition TextEncoder_encode (s : string) : bytes := list_byte_of_string s.

(** The double quote character, as a one-character string. *)
Definition dq : string := String "034" EmptyString.

(** [xs.join(sep)] *)
Fixpoint join (sep : string) (xs : list string) : string :=
  match xs with
  | [] => ""
  | [x] => x
  | x :: rest => x ++ sep ++ join sep rest
  end.

(** ** Exceptions *)

Inductive result (E A : Type) : Type :=
| Return (a : A)
| Throw (e : E).

Arguments Return {E A} a.
Arguments Throw {E A} e.

Definition js (A : Type) : Type := result string A.

Definition bind {E A B} (m : result E A) (k : A -> result E B)
  : result E B :=
  match m with
  | Return a => k a
  | Throw e => Throw e
  end.

Notation "x <- m ;; k" := (bind m (fun x => k))
  (at level 61, m at next level, right associativity).

Definition returns {E A} (m : result E A) : bool :=
  match m with Return _ => true | Throw _ => false end.

(** [try { return m } catch { return handler }] *)
Definition try_catch {E A} (m : result E A) (handler : A) : A :=
  match m with Return a => a | Throw _ => handler end.

(** ToBoolean on a string: only the empty string is falsy. *)
Definition truthy (s : string) : bool :=
  match s with EmptyString => false | String _ _ => true end.

(** [xs.push(x)] *)
Definition push {A} (xs : list A) (x : A) : list A := (xs ++ [x])%list.

(** [s.startsWith(p)] and [s.endsWith(p)] *)
Definition startsWith (s p : string) : bool := prefix p s.

Definition endsWith (s p : string) : bool :=
  let n := String.length s in
  let k := String.length p in
  (k <=? n)%nat && String.eqb (substring (n - k) k s) p.

(** [data.byteLength] *)
Definition byteLength (data : bytes) : Z := Z.of_nat (List.length data).

(** ** Objects as association lists *)

Section Objects.
Variable V : Type.

(** [obj[key]]; [None] is [undefined]. *)
Fixpoint js_get (key : string) (obj : list (string * V)) : option V :=
  match obj with
  | [] => None
  | (k, v) :: rest => if String.eqb k key then Some v else js_get key rest
  end.

(** [obj[key] = v] and [map.set(key, v)]: an existing key keeps its
    position, a new key goes last. *)
Fixpoint js_set (key : string) (v : V) (obj : list (string * V))
  : list (string * V) :=
  match obj with
  | [] => [(key, v)]
  | (k, w) :: rest =>
      if String.eqb k key then (k, v) :: rest
      else (k, w) :: js_set key v rest
  end.

(** The object without [key], as object rest destructuring leaves it. *)
Fixpoint js_delete (key : string) (obj : list (string * V))
  : list (string * V) :=
  match obj with
  | [] => []
  | (k, w) :: rest =>
      if String.eqb k key then js_delete key rest
      else (k, w) :: js_delete key rest
  end.

Definition Object_keys (obj : list (string * V)) : list string :=
  map fst obj.

(** [Object.entries(obj)] in insertion order, which is the order of the
    code for keys that are not canonical array indices; the paths that
    the builder writes all have a prefix or an extension. *)
Definition Object_entries (obj : list (string * V)) : list (string * V) :=
  obj.
End Objects.

(** ** [Array.prototype.sort()] on strings

    Without a comparator the elements are ordered by their code units. *)

Fixpoint sort_insert (x : string) (xs : list string) : list string :=
  match xs with
  | [] => [x]
  | y :: rest => if String.leb x y then x :: xs else y :: sort_insert x rest
  end.

Fixpoint Array_sort (xs : list string) : list string :=
  match xs with
  | [] => []
  | x :: rest => sort_insert x (Array_sort rest)
  end.

(** ** JSON values and [JSON.stringify(value, replacer)] *)

Inductive json : Type :=
| JNull
| JBool (b : bool)
| JNum (n : Z)
| JStr (s : string)
| JArr (items : list json)
| JObj (props : list (string * json)).

Definition hex_digit (n : N) : ascii :=
  match n with
  | 0 => "0" | 1 => "1" | 2 => "2" | 3 => "3" | 4 => "4" | 5 => "5"
  | 6 => "6" | 7 => "7" | 8 => "8" | 9 => "9" | 10 => "a" | 11 => "b"
  | 12 => "c" | 13 => "d" | 14 => "e" | _ => "f"
  end%N%char.

(** [n.toString(16).padStart(2, "0")] for a byte value. *)
Definition hex2 (n : N) : string :=
  String (hex_digit (n / 16)) (String (hex_digit (n mod 16)) EmptyString).

(** QuoteJSONString, one code unit at a time. *)
Definition quote_unit (c : ascii) : string :=
  match N_of_ascii c with
  | 8 => "\b"
  | 9 => "\t"
  | 10 => "\n"
  | 12 => "\f"
  | 13 => "\r"
  | 34 => "\" ++ dq
  | 92 => "\\"
  | n => if (n <? 32)%N then "\u00" ++ hex2 n else String c EmptyString
  end%N.

Fixpoint quote_units (s : string) : string :=
  match s with
  | EmptyString => ""
  | String c rest => quote_unit c ++ quote_units rest
  end.

Definition quote (s : string) : string := dq ++ quote_units s ++ dq.

(** Number::toString on an integer, in decimal digits: the form of the
    code below 1e21, where it changes to an exponent. *)
Definition Number_toString (n : Z) : string :=
  NilZero.string_of_int (Z.to_int n).

(** SerializeJSONProperty with no gap.  [replacer] is the PropertyList of an
    array replacer: when it is given, every object at every depth is
    serialized through it, member by member in the order of the list, and
    a key outside it is left out.  Without it an object is serialized with
    its own keys in insertion order. *)
Fixpoint JSON_stringify (replacer : option (list string)) (value : json)
  {struct value} : string :=
  match value with
  | JNull => "null"
  | JBool true => "true"
  | JBool false => "false"
  | JNum n => Number_toString n
  | JStr s => quote s
  | JArr items =>
      "[" ++ join "," (map (JSON_stringify replacer) items) ++ "]"
  | JObj props =>
      match replacer with
      | Some K =>
          let member (P : string) : list string :=
            (fix find (ps : list (string * json)) : list string :=
               match ps with
               | [] => []
               | (k, v) :: rest =>
                   if String.eqb k P
                   then [quote P ++ ":" ++ JSON_stringify replacer v]
                   else find rest
               end) props in
          "{" ++ join "," (flat_map member K) ++ "}"
      | None =>
          let members :=
            (fix each (ps : list (string * json)) : list string :=
               match ps with
               | [] => []
               | (k, v) :: rest =>
                   (quote k ++ ":" ++ JSON_stringify replacer v) :: each rest
               end) props in
          "{" ++ join "," members ++ "}"
      end
  end.

(** ** [src/export/types.ts] *)

Record ExportedBy : Type := {
  user_id : string;
  username : string;
  identity_key : string
}.

Record FileEntry : Type := {
  sha256 : string;
  size : Z
}.

Record DateRange : Type := {
  from : string;
  to : string
}.

Record HavenManifest : Type := {
  version : Z;
  format : string;
  exported_by : ExportedBy;
  exported_at : string;
  scope : option string;
  server_id : option string;
  channel_id : option string;
  instance_url : string;
  files : list (string * FileEntry);
  message_count : Z;
  date_range : DateRange;
  user_signature : option string;
  server_signature : option string
}.

Abbreviation manifest_files := files.

Definition ExportedBy_value (e : ExportedBy) : json :=
  JObj [("user_id", JStr (user_id e)); ("username", JStr (username e));
        ("identity_key", JStr (identity_key e))].

Definition FileEntry_value (f : FileEntry) : json :=
  JObj [("sha256", JStr (sha256 f)); ("size", JNum (size f))].

Definition DateRange_value (d : DateRange) : json :=
  JObj [("from", JStr (from d)); ("to", JStr (to d))].

Definition files_value (fs : list (string * FileEntry)) : json :=
  JObj (map (fun pf => (fst pf, FileEntry_value (snd pf))) fs).

Definition optional (key : string) (v : option string)
  : list (string * json) :=
  match v with
  | Some s => [(key, JStr s)]
  | None => []
  end.

(** The manifest as the object that [build] assembles and that [JSON.parse]
    gives back: the required fields in the order of the object literal,
    then the optional ones in the order [build] assigns them. *)
Definition manifest_object (m : HavenManifest) : list (string * json) :=
  ([("version", JNum (version m));
   ("format", JStr (format m));
   ("exported_by", ExportedBy_value (exported_by m));
   ("exported_at", JStr (exported_at m));
   ("instance_url", JStr (instance_url m));
   ("files", files_value (files m));
   ("message_count", JNum (message_count m));
   ("date_range", DateRange_value (date_range m))]
  ++ optional "server_id" (server_id m)
  ++ optional "channel_id" (channel_id m)
  ++ optional "scope" (scope m)
  ++ optional "user_signature" (user_signature m)
  ++ optional "server_signature" (server_signature m))%list.

(** ** [src/export/signing.ts] *)

(** [const { user_signature: _u, server_signature: _s, ...rest } = manifest] *)
Definition manifest_rest (manifest : list (string * json))
  : list (string * json) :=
  js_delete "server_signature" (js_delete "user_signature" manifest).

(** [JSON.stringify(rest, Object.keys(rest).sort())] on any object. *)
Definition canonicalObject (manifest : list (string * json)) : string :=
  let rest := manifest_rest manifest in
  JSON_stringify (Some (Array_sort (Object_keys rest))) (JObj rest).

Definition canonicalManifest (manifest : HavenManifest) : string :=
  canonicalObject (manifest_object manifest).


(** Written from the specification, section 4.10, for comparison with
    [canonicalManifest]: the copy without the two signatures, the top-level
    keys sorted, every nested value serialized in full with its keys in
    insertion order. *)
Definition canonical_manifest_spec (m : HavenManifest) : string :=
  let rest := manifest_rest (manifest_object m) in
  let member (P : string) : list string :=
    match js_get P rest with
    | Some v => [quote P ++ ":" ++ JSON_stringify None v]
    | None => []
    end in
  "{" ++ join "," (flat_map member (Array_sort (Object_keys rest))) ++ "}".

(** ** [src/crypto/utils.ts]: base64 *)

Definition b64_char (n : N) : ascii :=
  (if n <? 26 then ascii_of_N (n + 65)
   else if n <? 52 then ascii_of_N (n + 71)
   else if n <? 62 then ascii_of_N (n - 4)
   else if n =? 62 then "+" else "/")%N%char.

Definition b64_value (c : ascii) : option N :=
  (let n := N_of_ascii c in
   if (65 <=? n) && (n <=? 90) then Some (n - 65)
   else if (97 <=? n) && (n <=? 122) then Some (n - 71)
   else if (48 <=? n) && (n <=? 57) then Some (n + 4)
   else if n =? 43 then Some 62
   else if n =? 47 then Some 63
   else None)%N.

Definition byte_of_N (n : N) : byte :=
  match Byte.of_N n with Some b => b | None => x00 end.

(** Modelled from the spec: [toBase64] of [src/crypto/utils.ts], which is
    not among the sources.  Section 6 fixes the format: base64, standard
    alphabet, with padding. *)
Fixpoint toBase64 (data : bytes) : string :=
  match data with
  | [] => ""
  | [a] =>
      let x := Byte.to_N a in
      String (b64_char (x / 4)) (String (b64_char (x mod 4 * 16)) "==")
  | [a; b] =>
      let x := Byte.to_N a in
      let y := Byte.to_N b in
      String (b64_char (x / 4))
        (String (b64_char (x mod 4 * 16 + y / 16))
           (String (b64_char (y mod 16 * 4)) "="))
  | a :: b :: c :: rest =>
      let x := Byte.to_N a in
      let y := Byte.to_N b in
      let z := Byte.to_N c in
      String (b64_char (x / 4))
        (String (b64_char (x mod 4 * 16 + y / 16))
           (String (b64_char (y mod 16 * 4 + z / 64))
              (String (b64_char (z mod 64)) (toBase64 rest))))
  end%N.

(** Modelled from the spec: [fromBase64] of [src/crypto/utils.ts], which is
    not among the sources.  It decodes the same format and throws on any
    other text, which is why [verifyManifest] calls it inside its [try]. *)
Fixpoint fromBase64 (text : string) : js bytes :=
  match text with
  | EmptyString => Return []
  | String c1 (String c2 (String c3 (String c4 rest))) =>
      match b64_value c1, b64_value c2 with
      | Some v1, Some v2 =>
          let b1 := byte_of_N (v1 * 4 + v2 / 16) in
          if Ascii.eqb c3 "=" then
            if Ascii.eqb c4 "=" && String.eqb rest "" && (v2 mod 16 =? 0)%N
            then Return [b1]
            else Throw "invalid input"
          else
            match b64_value c3 with
            | Some v3 =>
                let b2 := byte_of_N (v2 mod 16 * 16 + v3 / 4) in
                if Ascii.eqb c4 "=" then
                  if String.eqb rest "" && (v3 mod 4 =? 0)%N
                  then Return [b1; b2]
                  else Throw "invalid input"
                else
                  match b64_value c4 with
                  | Some v4 =>
                      let b3 := byte_of_N (v3 mod 4 * 64 + v4) in
                      tail <- fromBase64 rest ;;
                      Return (b1 :: b2 :: b3 :: tail)
                  | None => Throw "invalid input"
                  end
            | None => Throw "invalid input"
            end
      | _, _ => Throw "invalid input"
      end
  | _ => Throw "incomplete input"
  end%N.

(** ** libsodium, as [getSodium()] hands it out *)

Record KeyPair : Type := {
  publicKey : bytes;
  privateKey : bytes
}.

Class Sodium : Type := {
  crypto_hash_sha256 : bytes -> bytes;
  (** [crypto_sign_seed_keypair(seed)]; [crypto_sign_keypair()] is this on
      fresh random bytes. *)
  crypto_sign_seed_keypair : bytes -> KeyPair;
  (** [crypto_sign_detached(message, privateKey)] *)
  crypto_sign_detached : bytes -> bytes -> js bytes;
  (** [crypto_sign_verify_detached(signature, message, publicKey)] *)
  crypto_sign_verify_detached : bytes -> bytes -> bytes -> js bool;
  (** [crypto_auth_hmacsha256(message, key)] *)
  crypto_auth_hmacsha256 : bytes -> bytes -> bytes;
  (** [crypto_secretbox_easy(message, nonce, key)] *)
  crypto_secretbox_easy : bytes -> bytes -> bytes -> bytes;
  (** [crypto_secretbox_open_easy(ciphertext, nonce, key)] *)
  crypto_secretbox_open_easy : bytes -> bytes -> bytes -> js bytes
}.

(** ** [src/export/signing.ts], continued *)

Definition signManifest {S : Sodium} (manifest : HavenManifest)
  (privateKey : bytes) : js string :=
  let message := TextEncoder_encode (canonicalManifest manifest) in
  signature <- crypto_sign_detached message privateKey ;;
  Return (toBase64 signature).

Definition verifyManifest {S : Sodium} (manifest : HavenManifest)
  (signature : string) (publicKey : bytes) : bool :=
  let message := TextEncoder_encode (canonicalManifest manifest) in
  try_catch
    (sig <- fromBase64 signature ;;
     crypto_sign_verify_detached sig message publicKey)
    false.

Definition computeFileHash {S : Sodium} (data : bytes) : string :=
  let hash := crypto_hash_sha256 data in
  join "" (map (fun b => hex2 (Byte.to_N b)) hash).

(** ** [src/export/types.ts], continued *)

Module Channel.
Record t : Type := {
  id : string;
  name : string;
  type : string;
  encrypted : bool;
  category : option string;
  created_at : string
}.
End Channel.

(** A [HavenExportMessage] is kept as the JSON value it is written as. *)
Module HavenChannelExport.
Record t : Type := {
  channel : Channel.t;
  exported_at : string;
  exported_by : string;
  message_count : Z;
  date_range : DateRange;
  messages : list json
}.
End HavenChannelExport.

(** A [HavenServerExport] is kept as the JSON value it is written as. *)
Definition HavenServerExport : Type := json.

(** ** [JSON] text and [fflate]

    [JSON.stringify(value, null, 2)] and [JSON.parse] on the values that
    the archive stores, and the ZIP container. *)

Class JsonText : Type := {
  JSON_stringify_channel : HavenChannelExport.t -> string;
  JSON_stringify_server : HavenServerExport -> string;
  JSON_stringify_entries : list json -> string;
  JSON_stringify_manifest : HavenManifest -> string;
  JSON_parse_manifest : string -> js HavenManifest;
  JSON_parse_channel : string -> js HavenChannelExport.t
}.

Class Fflate : Type := {
  zipSync : list (string * bytes) -> js bytes;
  unzipSync : bytes -> js (list (string * bytes))
}.

(** [JSON.parse] on the text of [server.json] and of [audit-log.json]. *)
Class JsonParse : Type := {
  JSON_parse_server : string -> js HavenServerExport;
  JSON_parse_entries : string -> js (list json)
}.

(** [new TextDecoder().decode(data)] on bytes of ASCII code units. *)
Definition TextDecoder_decode (data : bytes) : string :=
  string_of_list_byte data.

(** ** [src/export/archive.ts] *)

Module ArchiveMetadata.
Record t : Type := {
  exportedBy : ExportedBy;
  scope : option string;
  serverId : option string;
  channelId : option string;
  instanceUrl : string
}.
End ArchiveMetadata.

(** [if (field) manifest.key = field]: an absent or empty string sets
    nothing. *)
Definition if_truthy (field : option string) : option string :=
  match field with
  | Some s => if truthy s then Some s else None
  | None => None
  end.

Definition is_slug_unit (c : ascii) : bool :=
  (let n := N_of_ascii c in
   ((97 <=? n) && (n <=? 122)) || ((65 <=? n) && (n <=? 90))
   || ((48 <=? n) && (n <=? 57)) || (n =? 95) || (n =? 45))%N.

(** [s.replace(/[^a-zA-Z0-9_-]/g, "_")] *)
Fixpoint replace_non_slug (s : string) : string :=
  match s with
  | EmptyString => EmptyString
  | String c rest =>
      String (if is_slug_unit c then c else "_"%char) (replace_non_slug rest)
  end.

Module HavenArchiveBuilder.
Record t : Type := {
  metadata : ArchiveMetadata.t;
  channels : list (string * bytes);
  attachments : list (string * bytes);
  serverMeta : option bytes;
  auditLog : option bytes;
  messageCount : Z;
  earliestDate : option string;
  latestDate : option string
}.

Definition new (metadata : ArchiveMetadata.t) : t := {|
  metadata := metadata;
  channels := [];
  attachments := [];
  serverMeta := None;
  auditLog := None;
  messageCount := 0;
  earliestDate := None;
  latestDate := None
|}.

(** [!this.earliestDate]: true on [null] and on the empty string. *)
Definition unset (d : option string) : bool :=
  match d with
  | None => true
  | Some s => negb (truthy s)
  end.

Definition current (d : option string) : string :=
  match d with Some s => s | None => "" end.

Definition updateDateRange (from to : string) (this : t) : t := {|
  metadata := metadata this;
  channels := channels this;
  attachments := attachments this;
  serverMeta := serverMeta this;
  auditLog := auditLog this;
  messageCount := messageCount this;
  earliestDate :=
    if unset (earliestDate this) || String.ltb from (current (earliestDate this))
    then Some from else earliestDate this;
  latestDate :=
    if unset (latestDate this) || String.ltb (current (latestDate this)) to
    then Some to else latestDate this
|}.

Definition channel_dir (type : string) : string :=
  if String.eqb type "dm" || String.eqb type "group_dm"
  then "dms" else "channels".

Definition channel_key (channelExport : HavenChannelExport.t) : string :=
  let name :=
    replace_non_slug
      (Channel.name (HavenChannelExport.channel channelExport)) in
  let dir :=
    channel_dir (Channel.type (HavenChannelExport.channel channelExport)) in
  dir ++ "/" ++ name ++ ".json".

Definition addChannel {J : JsonText} (channelExport : HavenChannelExport.t)
  (this : t) : t :=
  let key := channel_key channelExport in
  let data := TextEncoder_encode (JSON_stringify_channel channelExport) in
  updateDateRange
    (from (HavenChannelExport.date_range channelExport))
    (to (HavenChannelExport.date_range channelExport))
    {| metadata := metadata this;
       channels := js_set key data (channels this);
       attachments := attachments this;
       serverMeta := serverMeta this;
       auditLog := auditLog this;
       messageCount :=
         messageCount this + HavenChannelExport.message_count channelExport;
       earliestDate := earliestDate this;
       latestDate := latestDate this |}.

Definition addAttachment (id : string) (data : bytes) (this : t) : t := {|
  metadata := metadata this;
  channels := channels this;
  attachments := js_set ("attachments/" ++ id ++ ".bin") data (attachments this);
  serverMeta := serverMeta this;
  auditLog := auditLog this;
  messageCount := messageCount this;
  earliestDate := earliestDate this;
  latestDate := latestDate this
|}.

Definition addServerMeta {J : JsonText} (serverExport : HavenServerExport)
  (this : t) : t := {|
  metadata := metadata this;
  channels := channels this;
  attachments := attachments this;
  serverMeta := Some (TextEncoder_encode (JSON_stringify_server serverExport));
  auditLog := auditLog this;
  messageCount := messageCount this;
  earliestDate := earliestDate this;
  latestDate := latestDate this
|}.

Definition addAuditLog {J : JsonText} (entries : list json) (this : t) : t := {|
  metadata := metadata this;
  channels := channels this;
  attachments := attachments this;
  serverMeta := serverMeta this;
  auditLog := Some (TextEncoder_encode (JSON_stringify_entries entries));
  messageCount := messageCount this;
  earliestDate := earliestDate this;
  latestDate := latestDate this
|}.

(** [for (const [path, data] of entries) target[path] = data] *)
Definition assign_all {V} (entries target : list (string * V))
  : list (string * V) :=
  fold_left (fun acc pd => js_set (fst pd) (snd pd) acc) entries target.

(** The [files] object of [build] before the manifest is added. *)
Definition collect (this : t) : list (string * bytes) :=
  let files := assign_all (channels this) [] in
  let files := assign_all (attachments this) files in
  let files :=
    match serverMeta this with
    | Some data => js_set "server.json" data files
    | None => files
    end in
  match auditLog this with
  | Some data => js_set "audit-log.json" data files
  | None => files
  end.

Definition hash_all {S : Sodium} (files : list (string * bytes))
  : list (string * FileEntry) :=
  fold_left
    (fun acc pd =>
       js_set (fst pd)
         {| sha256 := computeFileHash (snd pd);
            size := byteLength (snd pd) |} acc)
    (Object_entries files) [].

(** The manifest of [build] before it is signed.  [now] gives the results
    of the calls of [new Date().toISOString()] in the order of the
    object literal. *)
Definition unsigned_manifest {S : Sodium} (now : nat -> string) (this : t)
  : HavenManifest := {|
  version := 1;
  format := "haven-export";
  exported_by := ArchiveMetadata.exportedBy (metadata this);
  exported_at := now 0%nat;
  scope := if_truthy (ArchiveMetadata.scope (metadata this));
  server_id := if_truthy (ArchiveMetadata.serverId (metadata this));
  channel_id := if_truthy (ArchiveMetadata.channelId (metadata this));
  instance_url := ArchiveMetadata.instanceUrl (metadata this);
  files := hash_all (collect this);
  message_count := messageCount this;
  date_range :=
    {| from := match earliestDate this with Some d => d | None => now 1%nat end;
       to := match latestDate this with Some d => d | None => now 2%nat end |};
  user_signature := None;
  server_signature := None
|}.

Definition with_user_signature (m : HavenManifest) (sig : string)
  : HavenManifest := {|
  version := version m;
  format := format m;
  exported_by := exported_by m;
  exported_at := exported_at m;
  scope := scope m;
  server_id := server_id m;
  channel_id := channel_id m;
  instance_url := instance_url m;
  files := files m;
  message_count := message_count m;
  date_range := date_range m;
  user_signature := Some sig;
  server_signature := server_signature m
|}.

(** The manifest that [build] writes to [manifest.json]. *)
Definition manifest {S : Sodium} (now : nat -> string) (this : t)
  (signingKey : option bytes) : js HavenManifest :=
  let manifest := unsigned_manifest now this in
  match signingKey with
  | Some key =>
      sig <- signManifest manifest key ;;
      Return (with_user_signature manifest sig)
  | None => Return manifest
  end.

(** The [zippable] object of [build]: the collected files and
    [manifest.json]. *)
Definition archive_files {S : Sodium} {J : JsonText} (now : nat -> string)
  (this : t) (signingKey : option bytes) : js (list (string * bytes)) :=
  let files := collect this in
  manifest <- manifest now this signingKey ;;
  let files :=
    js_set "manifest.json"
      (TextEncoder_encode (JSON_stringify_manifest manifest)) files in
  Return (assign_all (Object_entries files) []).

Definition build {S : Sodium} {J : JsonText} {F : Fflate} (now : nat -> string)
  (this : t) (signingKey : option bytes) : js bytes :=
  zippable <- archive_files now this signingKey ;;
  zipSync zippable.
End HavenArchiveBuilder.

(** A call on a builder, and a sequence of calls on a new builder. *)
Inductive BuilderCall : Type :=
| AddChannel (channelExport : HavenChannelExport.t)
| AddAttachment (id : string) (data : bytes)
| AddServerMeta (serverExport : HavenServerExport)
| AddAuditLog (entries : list json).

Definition call {J : JsonText} (b : HavenArchiveBuilder.t) (c : BuilderCall)
  : HavenArchiveBuilder.t :=
  match c with
  | AddChannel channelExport => HavenArchiveBuilder.addChannel channelExport b
  | AddAttachment id data => HavenArchiveBuilder.addAttachment id data b
  | AddServerMeta serverExport => HavenArchiveBuilder.addServerMeta serverExport b
  | AddAuditLog entries => HavenArchiveBuilder.addAuditLog entries b
  end.

Definition calls {J : JsonText} (metadata : ArchiveMetadata.t)
  (cs : list BuilderCall) : HavenArchiveBuilder.t :=
  fold_left call cs (HavenArchiveBuilder.new metadata).

(** ** [src/export/reader.ts] *)

Record VerifyResult : Type := {
  valid : bool;
  issues : list string
}.

Module HavenArchiveReader.
Record t : Type := {
  files : list (string * bytes);
  manifest : HavenManifest
}.

Definition fromBlob {J : JsonText} {F : Fflate} (data : bytes) : js t :=
  files <- unzipSync data ;;
  match js_get "manifest.json" files with
  | None => Throw "Invalid .haven archive: missing manifest.json"
  | Some manifestData =>
      manifest <- JSON_parse_manifest (TextDecoder_decode manifestData) ;;
      Return {| files := files; manifest := manifest |}
  end.

Definition getManifest (this : t) : HavenManifest := manifest this.

(** [getChannelExport(channelName)]: the file under [channels/], else the
    one under [dms/]; [None] is [null]. *)
Definition getChannelExport {J : JsonText} (this : t) (channelName : string)
  : js (option HavenChannelExport.t) :=
  let key := "channels/" ++ channelName ++ ".json" in
  let dmKey := "dms/" ++ channelName ++ ".json" in
  let data :=
    match js_get key (files this) with
    | Some d => Some d
    | None => js_get dmKey (files this)
    end in
  match data with
  | None => Return None
  | Some data =>
      c <- JSON_parse_channel (TextDecoder_decode data) ;;
      Return (Some c)
  end.

Definition getServerMeta {P : JsonParse} (this : t)
  : js (option HavenServerExport) :=
  match js_get "server.json" (files this) with
  | None => Return None
  | Some data =>
      s <- JSON_parse_server (TextDecoder_decode data) ;;
      Return (Some s)
  end.

Definition getAuditLog {P : JsonParse} (this : t) : js (option (list json)) :=
  match js_get "audit-log.json" (files this) with
  | None => Return None
  | Some data =>
      entries <- JSON_parse_entries (TextDecoder_decode data) ;;
      Return (Some entries)
  end.

Definition getAttachment (this : t) (fileRef : string) : option bytes :=
  js_get fileRef (files this).

(** [getChannelExports()]: the files under [channels/] and [dms/] that
    end in [.json] and parse. *)
Definition getChannelExports {J : JsonText} (this : t)
  : list HavenChannelExport.t :=
  flat_map
    (fun pd =>
       if (startsWith (fst pd) "channels/" || startsWith (fst pd) "dms/")
          && endsWith (fst pd) ".json"
       then
         match JSON_parse_channel (TextDecoder_decode (snd pd)) with
         | Return c => [c]
         | Throw _ => []
         end
       else [])
    (Object_entries (files this)).

(** One turn of the loop of [verify] over [Object.entries(manifest.files)].
    [this.files[path]] is looked up among the own properties of the
    object: for a path that the archive lacks and that names a property
    every object inherits ([constructor], [toString], ...), the code
    finds the inherited value, not [undefined], and [computeFileHash]
    throws on it. *)
Definition check_file {S : Sodium} (this : t) (issues : list string)
  (entry : string * FileEntry) : list string :=
  let path := fst entry in
  let expected := snd entry in
  match js_get path (files this) with
  | None => push issues ("Missing file: " ++ path)
  | Some fileData =>
      let actualHash := computeFileHash fileData in
      let issues :=
        if String.eqb actualHash (sha256 expected) then issues
        else push issues
               ("Hash mismatch for " ++ path ++ ": expected "
                ++ sha256 expected ++ ", got " ++ actualHash) in
      if Z.eqb (byteLength fileData) (size expected) then issues
      else push issues
             ("Size mismatch for " ++ path ++ ": expected "
              ++ Number_toString (size expected) ++ ", got "
              ++ Number_toString (byteLength fileData))
  end.

Definition verify {S : Sodium} (this : t) : js VerifyResult :=
  let issues :=
    fold_left (check_file this)
      (Object_entries (manifest_files (manifest this))) [] in
  issues <-
    match user_signature (manifest this) with
    | Some signature =>
        if truthy signature then
          publicKey <- fromBase64 (identity_key (exported_by (manifest this))) ;;
          let valid := verifyManifest (manifest this) signature publicKey in
          Return (if valid then issues
                  else push issues "User signature verification failed")
        else Return issues
    | None => Return issues
    end ;;
  Return {| valid := (List.length issues =? 0)%nat; issues := issues |}.
End HavenArchiveReader.

(** ** Sender keys

    [src/crypto/sender-keys.ts] is not among the sources: this part follows
    the specification, sections 3 and 4.2 to 4.6, with the names that
    [sender-keys.test.ts] imports. *)

Inductive SenderKeyError : Type :=
| SkdmTooShort
| SkdmDecryptFailed
| WrongType
| DistIdMismatch
| AlreadyConsumed
| TooManySkipped
| DecryptFailed.

(** Modelled from the spec: the record [SenderKeyState] of
    [sender-keys.ts], section 3: 16 bytes, 32 bytes, an unsigned 32-bit
    counter. *)
Record SenderKeyState : Type := {
  distributionId : bytes;
  chainKey : bytes;
  chainIndex : Z
}.

(** Modelled from the spec: [ReceivedSenderKey] has the shape of
    [SenderKeyState]. *)
Definition ReceivedSenderKey : Type := SenderKeyState.

Definition GROUP_MSG_TYPE : byte := x03.
Definition MAX_SKIP : Z := 256.
Definition SKDM_SIZE : nat := 52.
Definition HEADER_SIZE : nat := 45.

(** The invariant of section 3 on a sender-key state. *)
Definition well_formed (s : SenderKeyState) : Prop :=
  List.length (distributionId s) = 16%nat
  /\ List.length (chainKey s) = 32%nat
  /\ (0 <= chainIndex s < 2 ^ 32)%Z.

(** [data.slice(start, stop)] *)
Definition slice {A} (start stop : nat) (data : list A) : list A :=
  firstn (stop - start) (skipn start data).

(** [DataView.setUint32(offset, n, true)] and [getUint32(offset, true)]:
    the value modulo 2^32, least significant byte first. *)
Fixpoint le_bytes (width : nat) (n : Z) : bytes :=
  match width with
  | O => []
  | S w => byte_of_N (Z.to_N (n mod 256)) :: le_bytes w (n / 256)
  end.

Definition u32_le (n : Z) : bytes := le_bytes 4 n.

Fixpoint read_le (data : bytes) : Z :=
  match data with
  | [] => 0
  | b :: rest => Z.of_N (Byte.to_N b) + 256 * read_le rest
  end.

Fixpoint bytes_eqb (a b : bytes) : bool :=
  match a, b with
  | [], [] => true
  | x :: a', y :: b' => Byte.eqb x y && bytes_eqb a' b'
  | _, _ => false
  end.

(** Modelled from the spec: [createSkdmPayload] of [sender-keys.ts],
    section 4.2. *)
Definition createSkdmPayload (state : SenderKeyState) : bytes :=
  (distributionId state ++ chainKey state ++ u32_le (chainIndex state))%list.

(** Modelled from the spec: [parseSkdmPayload] of [sender-keys.ts],
    section 4.2, with the reference behaviour on trailing bytes. *)
Definition parseSkdmPayload (data : bytes)
  : result SenderKeyError ReceivedSenderKey :=
  if (List.length data <? SKDM_SIZE)%nat then Throw SkdmTooShort
  else Return {| distributionId := slice 0 16 data;
                 chainKey := slice 16 48 data;
                 chainIndex := read_le (slice 48 52 data) |}.

(** Modelled from the spec: the two keys of a chain step, section 4.4. *)
Definition message_key {S : Sodium} (chain_key : bytes) : bytes :=
  crypto_auth_hmacsha256 [x01] chain_key.

Definition next_chain_key {S : Sodium} (chain_key : bytes) : bytes :=
  crypto_auth_hmacsha256 [x02] chain_key.

(** Modelled from the spec: the advance-one step of section 4.4; the
    message key and the state after the step. *)
Definition advance {S : Sodium} (state : SenderKeyState)
  : bytes * SenderKeyState :=
  (message_key (chainKey state),
   {| distributionId := distributionId state;
      chainKey := next_chain_key (chainKey state);
      chainIndex := chainIndex state + 1 |}).

Fixpoint advance_times {S : Sodium} (n : nat) (state : SenderKeyState)
  : SenderKeyState :=
  match n with
  | O => state
  | S k => advance_times k (snd (advance state))
  end.

(** Modelled from the spec: [senderKeyEncrypt] of [sender-keys.ts],
    section 4.5.  [nonce] is the 24 random bytes of step 3; the result is
    the wire message and the state after the call. *)
Definition senderKeyEncrypt {S : Sodium} (nonce : bytes)
  (state : SenderKeyState) (plaintext : bytes) : bytes * SenderKeyState :=
  let i := chainIndex state in
  let step := advance state in
  let ciphertext := crypto_secretbox_easy plaintext nonce (fst step) in
  ((GROUP_MSG_TYPE :: distributionId state ++ u32_le i ++ nonce
      ++ ciphertext)%list,
   snd step).

(** Modelled from the spec: [senderKeyDecrypt] of [sender-keys.ts],
    section 4.6; the outcome and the receiver state after the call.  A
    failure of steps 1 and 2 leaves the state as it was, a failure of step
    4 leaves it advanced. *)
Definition senderKeyDecrypt {S : Sodium} (wire : bytes)
  (received : ReceivedSenderKey)
  : result SenderKeyError bytes * ReceivedSenderKey :=
  match wire with
  | type :: _ =>
      if negb (Byte.eqb type GROUP_MSG_TYPE) then (Throw WrongType, received)
      else if negb (bytes_eqb (slice 1 17 wire) (distributionId received))
      then (Throw DistIdMismatch, received)
      else
        let target_index := read_le (slice 17 21 wire) in
        let skip := (target_index - chainIndex received)%Z in
        if (skip <? 0)%Z then (Throw AlreadyConsumed, received)
        else if (MAX_SKIP <? skip)%Z then (Throw TooManySkipped, received)
        else
          let skipped := advance_times (Z.to_nat skip) received in
          let step := advance skipped in
          match crypto_secretbox_open_easy
                  (skipn HEADER_SIZE wire) (slice 21 45 wire) (fst step) with
          | Return plaintext => (Return plaintext, snd step)
          | Throw _ => (Throw DecryptFailed, snd step)
          end
  | [] => (Throw WrongType, received)
  end.

(** ** Notions that the statements use *)

(** The member that [JSON.stringify] writes for the key [P] of an object. *)
Definition member_of (replacer : option (list string))
  (props : list (string * json)) (P : string) : list string :=
  match js_get P props with
  | Some v => [quote P ++ ":" ++ JSON_stringify replacer v]
  | None => []
  end.

(** The names that a key of a manifest without its signatures can have. *)
Definition manifest_keys : list string :=
  ["version"; "format"; "exported_by"; "exported_at"; "instance_url";
   "files"; "message_count"; "date_range"; "server_id"; "channel_id";
   "scope"].

(** Whether [path] is a key of the [files] map. *)
Definition listed (path : string) (fs : list (string * FileEntry)) : bool :=
  existsb (String.eqb path) (Object_keys fs).

(** The keys of the object that [canonicalManifest] serializes. *)
Definition top_keys (m : HavenManifest) : list string :=
  Object_keys (manifest_rest (manifest_object m)).

(** Two manifests with the same top-level primitive fields. *)
Definition same_primitives (m1 m2 : HavenManifest) : Prop :=
  version m1 = version m2 /\ format m1 = format m2
  /\ exported_at m1 = exported_at m2 /\ instance_url m1 = instance_url m2
  /\ message_count m1 = message_count m2 /\ scope m1 = scope m2
  /\ server_id m1 = server_id m2 /\ channel_id m1 = channel_id m2.

(** The manifest of the signing tests of [archive.test.ts], with one file
    listed and a short identity key. *)
Definition test_manifest : HavenManifest := {|
  version := 1;
  format := "haven-export";
  exported_by := {| user_id := "user-001"; username := "alice";
                    identity_key := "3q2+7w==" |};
  exported_at := "2026-02-22T12:00:00Z";
  scope := None;
  server_id := None;
  channel_id := None;
  instance_url := "https://haven.example.com";
  files := [("channels/general.json", {| sha256 := "b94d27b9"; size := 11 |})];
  message_count := 0;
  date_range := {| from := "2026-01-01T00:00:00Z"; to := "2026-02-22T12:00:00Z" |};
  user_signature := None;
  server_signature := None
|}.

(** A key or a string value between double quotes. *)
Definition quoted (s : string) : string := dq ++ s ++ dq.

(** What the embedding assumes of Ed25519 as libsodium implements it, for a
    key pair that [crypto_sign_seed_keypair] generates: signing with the
    private key returns, the signature verifies under the public key, and
    it verifies under no other key. *)
Class SignLaws (S : Sodium) : Prop := {
  sign_returns : forall seed message,
    exists signature,
      crypto_sign_detached message
        (privateKey (crypto_sign_seed_keypair seed)) = Return signature;
  verify_signed : forall seed message signature,
    crypto_sign_detached message
      (privateKey (crypto_sign_seed_keypair seed)) = Return signature ->
    crypto_sign_verify_detached signature message
      (publicKey (crypto_sign_seed_keypair seed)) = Return true;
  verify_other_key : forall seed message signature other,
    crypto_sign_detached message
      (privateKey (crypto_sign_seed_keypair seed)) = Return signature ->
    other <> publicKey (crypto_sign_seed_keypair seed) ->
    crypto_sign_verify_detached signature message other <> Return true
}.

(** A builder none of whose file names is the name of the manifest. *)
Definition no_manifest_key (b : HavenArchiveBuilder.t) : Prop :=
  ~ In "manifest.json" (Object_keys (HavenArchiveBuilder.channels b))
  /\ ~ In "manifest.json" (Object_keys (HavenArchiveBuilder.attachments b)).

(** The entry of [manifest.files] for the data of a file. *)
Definition entry_of {S : Sodium} (data : bytes) : FileEntry :=
  {| sha256 := computeFileHash data; size := byteLength data |}.

(** The signing key, when there is one, is the private key of the pair
    whose public key the metadata give as [identity_key]. *)
Definition signing_key_matches {S : Sodium} (metadata : ArchiveMetadata.t)
  (signingKey : option bytes) : Prop :=
  match signingKey with
  | None => True
  | Some key =>
      exists seed,
        key = privateKey (crypto_sign_seed_keypair seed)
        /\ identity_key (ArchiveMetadata.exportedBy metadata)
           = toBase64 (publicKey (crypto_sign_seed_keypair seed))
  end.

(** [cloneSenderKey] of [sender-keys.test.ts]: a copy of the state, byte
    arrays included. *)
Definition cloneSenderKey (sk : SenderKeyState) : ReceivedSenderKey := {|
  distributionId := distributionId sk;
  chainKey := chainKey sk;
  chainIndex := chainIndex sk
|}.

(** What the embedding assumes of the secretbox of libsodium: a box opens
    under the key and the nonce it was made with. *)
Class SecretboxLaws (S : Sodium) : Prop := {
  open_sealed : forall message nonce key,
    crypto_secretbox_open_easy
      (crypto_secretbox_easy message nonce key) nonce key = Return message
}.

(** A wire message that passes step 1 of [senderKeyDecrypt]: the type
    byte and the distribution id are those that the receiver expects. *)
Definition header_matches (wire : bytes) (received : ReceivedSenderKey)
  : Prop :=
  nth_error wire 0 = Some GROUP_MSG_TYPE
  /\ slice 1 17 wire = distributionId received.

(** The skip of step 2 of [senderKeyDecrypt]. *)
Definition skip_of (wire : bytes) (received : ReceivedSenderKey) : Z :=
  read_le (slice 17 21 wire) - chainIndex received.

(** One turn of [updateDateRange] on each of the two dates. *)
Definition earlier (acc : option string) (x : string) : option string :=
  if HavenArchiveBuilder.unset acc
     || String.ltb x (HavenArchiveBuilder.current acc)
  then Some x else acc.

Definition later (acc : option string) (x : string) : option string :=
  if HavenArchiveBuilder.unset acc
     || String.ltb (HavenArchiveBuilder.current acc) x
  then Some x else acc.

(** [test_manifest] with other nested objects: another exporter, other
    hashes and sizes, another range of dates. *)
Definition other_nested : HavenManifest := {|
  version := 1;
  format := "haven-export";
  exported_by := {| user_id := "user-002"; username := "bob";
                    identity_key := "AQID" |};
  exported_at := "2026-02-22T12:00:00Z";
  scope := None;
  server_id := None;
  channel_id := None;
  instance_url := "https://haven.example.com";
  files := [("channels/general.json", {| sha256 := "00000000"; size := 0 |});
            ("attachments/att-001.bin", {| sha256 := "ffffffff"; size := 4 |})];
  message_count := 0;
  date_range := {| from := "1970-01-01T00:00:00Z"; to := "1970-01-01T00:00:00Z" |};
  user_signature := None;
  server_signature := None
|}.

(** [test_manifest] with a file whose path is the name of a manifest
    field. *)
Definition file_named_version : HavenManifest := {|
  version := 1;
  format := "haven-export";
  exported_by := exported_by test_manifest;
  exported_at := "2026-02-22T12:00:00Z";
  scope := None;
  server_id := None;
  channel_id := None;
  instance_url := "https://haven.example.com";
  files := [("version", {| sha256 := "b94d27b9"; size := 11 |})];
  message_count := 0;
  date_range := date_range test_manifest;
  user_signature := None;
  server_signature := None
|}.

(** [test_manifest] with a signature and with an identity key that is not
    base64 text. *)
Definition unreadable_key : HavenManifest := {|
  version := 1;
  format := "haven-export";
  exported_by := {| user_id := "user-001"; username := "alice";
                    identity_key := "not base64!" |};
  exported_at := "2026-02-22T12:00:00Z";
  scope := None;
  server_id := None;
  channel_id := None;
  instance_url := "https://haven.example.com";
  files := [];
  message_count := 0;
  date_range := date_range test_manifest;
  user_signature := Some "AAAA";
  server_signature := None
|}.

(** The channel exports that a sequence of calls adds, in order. *)
Definition added (cs : list BuilderCall) : list HavenChannelExport.t :=
  flat_map (fun c => match c with AddChannel e => [e] | _ => [] end) cs.

(** The channel export that was added last under the file name [k]. *)
Definition last_added (k : string) (cs : list BuilderCall)
  : option HavenChannelExport.t :=
  fold_left
    (fun acc e =>
       if String.eqb (HavenArchiveBuilder.channel_key e) k then Some e else acc)
    (added cs) None.

Definition sum (xs : list Z) : Z := fold_right Z.add 0%Z xs.

(** The least and the greatest of a list of strings, in the order of
    [<] on strings. *)
Definition is_min (r : string) (xs : list string) : Prop :=
  In r xs /\ forall x, In x xs -> String.leb r x = true.

Definition is_max (r : string) (xs : list string) : Prop :=
  In r xs /\ forall x, In x xs -> String.leb x r = true.

Definition string_le (a b : string) : Prop := String.leb a b = true.

Definition from_of (c : HavenChannelExport.t) : string :=
  from (HavenChannelExport.date_range c).

Definition to_of (c : HavenChannelExport.t) : string :=
  to (HavenChannelExport.date_range c).

(** The same channel under two names that [addChannel] maps to one file. *)
Definition renamed (name : string) (count : Z) (c : HavenChannelExport.t)
  : HavenChannelExport.t := {|
  HavenChannelExport.channel :=
    {| Channel.id := Channel.id (HavenChannelExport.channel c);
       Channel.name := name;
       Channel.type := Channel.type (HavenChannelExport.channel c);
       Channel.encrypted := Channel.encrypted (HavenChannelExport.channel c);
       Channel.category := Channel.category (HavenChannelExport.channel c);
       Channel.created_at := Channel.created_at (HavenChannelExport.channel c) |};
  HavenChannelExport.exported_at := HavenChannelExport.exported_at c;
  HavenChannelExport.exported_by := HavenChannelExport.exported_by c;
  HavenChannelExport.message_count := count;
  HavenChannelExport.date_range := HavenChannelExport.date_range c;
  HavenChannelExport.messages := HavenChannelExport.messages c
|}.

(** ** Notions that the further properties use *)

(** A file that the loop of [verify] finds as the manifest lists it:
    present, with the hash and the size of the entry. *)
Definition file_ok {S : Sodium} (files : list (string * bytes))
  (entry : string * FileEntry) : Prop :=
  exists data,
    js_get (fst entry) files = Some data
    /\ computeFileHash data = sha256 (snd entry)
    /\ byteLength data = size (snd entry).

(** The signature of a manifest, when it has one that is not empty,
    verifies under the identity key that the manifest names. *)
Definition signature_ok {S : Sodium} (m : HavenManifest) : Prop :=
  forall signature,
    user_signature m = Some signature -> truthy signature = true ->
    exists pk,
      fromBase64 (identity_key (exported_by m)) = Return pk
      /\ verifyManifest m signature pk = true.

(** [manifest.files = fs] and [manifest.user_signature = sig], on a copy. *)
Definition set_files (m : HavenManifest) (fs : list (string * FileEntry))
  : HavenManifest := {|
  version := version m;
  format := format m;
  exported_by := exported_by m;
  exported_at := exported_at m;
  scope := scope m;
  server_id := server_id m;
  channel_id := channel_id m;
  instance_url := instance_url m;
  files := fs;
  message_count := message_count m;
  date_range := date_range m;
  user_signature := user_signature m;
  server_signature := server_signature m
|}.

Definition set_signatures (m : HavenManifest) (user server : option string)
  : HavenManifest := {|
  version := version m;
  format := format m;
  exported_by := exported_by m;
  exported_at := exported_at m;
  scope := scope m;
  server_id := server_id m;
  channel_id := channel_id m;
  instance_url := instance_url m;
  files := files m;
  message_count := message_count m;
  date_range := date_range m;
  user_signature := user;
  server_signature := server
|}.

(** [manifest.exported_by.identity_key = key], on a copy. *)
Definition set_identity_key (m : HavenManifest) (key : string)
  : HavenManifest := {|
  version := version m;
  format := format m;
  exported_by :=
    {| user_id := user_id (exported_by m);
       username := username (exported_by m);
       identity_key := key |};
  exported_at := exported_at m;
  scope := scope m;
  server_id := server_id m;
  channel_id := channel_id m;
  instance_url := instance_url m;
  files := files m;
  message_count := message_count m;
  date_range := date_range m;
  user_signature := user_signature m;
  server_signature := server_signature m
|}.

(** A reader in which the data of the file [path] are replaced, and the
    entry of the manifest for [path] with them: [files[path] = data] and
    [manifest.files[path] = { sha256, size }] of the new data. *)
Definition replace_file {S : Sodium} (path : string) (data : bytes)
  (r : HavenArchiveReader.t) : HavenArchiveReader.t := {|
  HavenArchiveReader.files := js_set path data (HavenArchiveReader.files r);
  HavenArchiveReader.manifest :=
    set_files (HavenArchiveReader.manifest r)
      (js_set path (entry_of data)
         (manifest_files (HavenArchiveReader.manifest r)))
|}.

(** The names that [getChannelExports] takes for channel files. *)
Definition channel_path (k : string) : bool :=
  (startsWith k "channels/" || startsWith k "dms/") && endsWith k ".json".

(** What the builder keeps of its two maps: names are unique, those of
    channels are under [channels/] or [dms/] and end in [.json], those
    of attachments are under [attachments/]. *)
Definition well_named (b : HavenArchiveBuilder.t) : Prop :=
  NoDup (Object_keys (HavenArchiveBuilder.channels b))
  /\ NoDup (Object_keys (HavenArchiveBuilder.attachments b))
  /\ Forall (fun k => channel_path k = true)
       (Object_keys (HavenArchiveBuilder.channels b))
  /\ Forall (fun k => startsWith k "attachments/" = true)
       (Object_keys (HavenArchiveBuilder.attachments b)).

(** The files of [server.json] and [audit-log.json], when there are. *)
Definition single (path : string) (data : option bytes)
  : list (string * bytes) :=
  match data with
  | Some d => [(path, d)]
  | None => []
  end.

(** The data of the last [addAttachment(id, data)] of a sequence of calls,
    the export of its last [addServerMeta] and the entries of its last
    [addAuditLog]. *)
Definition last_attachment (id : string) (cs : list BuilderCall)
  : option bytes :=
  fold_left
    (fun acc c =>
       match c with
       | AddAttachment id' data => if String.eqb id' id then Some data else acc
       | _ => acc
       end) cs None.

Definition last_server (cs : list BuilderCall) : option HavenServerExport :=
  fold_left
    (fun acc c => match c with AddServerMeta s => Some s | _ => acc end)
    cs None.

Definition last_audit (cs : list BuilderCall) : option (list json) :=
  fold_left
    (fun acc c => match c with AddAuditLog entries => Some entries | _ => acc end)
    cs None.

(** A lowercase hexadecimal digit. *)
Definition is_hex_digit (c : ascii) : bool :=
  (let n := N_of_ascii c in
   ((48 <=? n) && (n <=? 57)) || ((97 <=? n) && (n <=? 102)))%N.

Fixpoint string_forall (f : ascii -> bool) (s : string) : bool :=
  match s with
  | EmptyString => true
  | String c rest => f c && string_forall f rest
  end.

(** [reader] is what [fromBlob] makes of the archive that [build] gives
    after the calls [cs], when the ZIP container gives back the files
    that were written and [JSON.parse] the manifest that was written. *)
Definition opened {S : Sodium} {J : JsonText} {F : Fflate}
  (now : nat -> string) (metadata : ArchiveMetadata.t)
  (cs : list BuilderCall) (signingKey : option bytes)
  (reader : HavenArchiveReader.t) : Prop :=
  exists zip zippable m,
    HavenArchiveBuilder.build now (calls metadata cs) signingKey = Return zip
    /\ HavenArchiveBuilder.archive_files now (calls metadata cs) signingKey
       = Return zippable
    /\ HavenArchiveBuilder.manifest now (calls metadata cs) signingKey
       = Return m
    /\ unzipSync zip = Return zippable
    /\ JSON_parse_manifest (JSON_stringify_manifest m) = Return m
    /\ HavenArchiveReader.fromBlob zip = Return reader.

(** What an accessor of the reader returns for a file that holds the
    text [text], [parse] being [JSON.parse] at the type of the file. *)
Definition parsed {A} (parse : string -> js A) (text : option string)
  : js (option A) :=
  match text with
  | None => Return None
  | Some t => v <- parse t ;; Return (Some v)
  end.

(** ** A small model of the interfaces

    An instance of each interface on which the assumptions made of
    libsodium, of [JSON] and of the ZIP container hold, used to run the
    code on concrete inputs. *)

Module Model.
Definition sodium : Sodium := {|
  crypto_hash_sha256 := fun data => firstn 2 data;
  crypto_sign_seed_keypair :=
    fun seed => {| publicKey := seed; privateKey := seed |};
  crypto_sign_detached :=
    fun message key => Return (key ++ message)%list;
  crypto_sign_verify_detached :=
    fun signature message key =>
      Return (bytes_eqb signature (key ++ message)%list);
  crypto_auth_hmacsha256 := fun message key => (key ++ message)%list;
  crypto_secretbox_easy :=
    fun message nonce key => (key ++ nonce ++ message)%list;
  crypto_secretbox_open_easy :=
    fun ciphertext nonce key =>
      let n := List.length (key ++ nonce)%list in
      if bytes_eqb (firstn n ciphertext) (key ++ nonce)%list
      then Return (skipn n ciphertext)
      else Throw "wrong secret key for the given ciphertext"
|}.

(** [JSON] text that keeps a name of the value only; [JSON.parse] is
    right on the text of [m0] and on the text of [c0]. *)
Definition json (m0 : HavenManifest) (c0 : HavenChannelExport.t)
  : JsonText := {|
  JSON_stringify_channel :=
    fun c => Channel.name (HavenChannelExport.channel c);
  JSON_stringify_server := fun _ => "server";
  JSON_stringify_entries := fun _ => "entries";
  JSON_stringify_manifest := fun m => exported_at m;
  JSON_parse_manifest :=
    fun text => if String.eqb text (exported_at m0) then Return m0
                else Throw "Unexpected token";
  JSON_parse_channel :=
    fun text =>
      if String.eqb text (Channel.name (HavenChannelExport.channel c0))
      then Return c0 else Throw "Unexpected token"
|}.

(** [JSON.parse] that is right on the texts that [json] writes for a
    server export and for an audit log. *)
Definition parse : JsonParse := {|
  JSON_parse_server :=
    fun text => if String.eqb text "server" then Return JNull
                else Throw "Unexpected token";
  JSON_parse_entries :=
    fun text => if String.eqb text "entries" then Return []
                else Throw "Unexpected token"
|}.

(** A container that holds the files [fs0] whatever its bytes are. *)
Definition fflate (fs0 : list (string * bytes)) : Fflate := {|
  zipSync := fun _ => Return [];
  unzipSync := fun _ => Return fs0
|}.

Definition seed : bytes := [x01; x02; x03].

Definition general : HavenChannelExport.t := {|
  HavenChannelExport.channel :=
    {| Channel.id := "ch-001"; Channel.name := "general";
       Channel.type := "text"; Channel.encrypted := true;
       Channel.category := Some "Text Channels";
       Channel.created_at := "2025-03-01T00:00:00Z" |};
  HavenChannelExport.exported_at := "2026-02-22T12:00:00Z";
  HavenChannelExport.exported_by := "user-001";
  HavenChannelExport.message_count := 2;
  HavenChannelExport.date_range :=
    {| from := "2025-03-15T14:30:00Z"; to := "2025-03-15T15:00:00Z" |};
  HavenChannelExport.messages := []
|}.

(** The metadata of the tests of [archive.test.ts], with the identity
    key left empty as the tests first have it, and with the key of
    [seed]. *)
Definition metadata (key : string) : ArchiveMetadata.t := {|
  ArchiveMetadata.exportedBy :=
    {| user_id := "user-001"; username := "alice"; identity_key := key |};
  ArchiveMetadata.scope := None;
  ArchiveMetadata.serverId := Some "srv-001";
  ArchiveMetadata.channelId := None;
  ArchiveMetadata.instanceUrl := "https://haven.example.com"
|}.

Definition now (n : nat) : string := "2026-02-22T12:00:00Z".

Definition session : list BuilderCall :=
  [AddChannel general; AddServerMeta JNull;
   AddAuditLog []; AddAttachment "att-001" [x66; x61; x6b; x65]].

(** The key of [seed], in base64. *)
Definition seed_key : string := toBase64 seed.

(** A channel export without messages, whose dates are empty. *)
Definition undated : HavenChannelExport.t := {|
  HavenChannelExport.channel :=
    {| Channel.id := "ch-002"; Channel.name := "empty";
       Channel.type := "text"; Channel.encrypted := true;
       Channel.category := None;
       Channel.created_at := "2025-03-01T00:00:00Z" |};
  HavenChannelExport.exported_at := "2026-02-22T12:00:00Z";
  HavenChannelExport.exported_by := "user-001";
  HavenChannelExport.message_count := 0;
  HavenChannelExport.date_range := {| from := ""; to := "" |};
  HavenChannelExport.messages := []
|}.

(** A sender-key state as [generateSenderKey] makes it. *)
Definition sender_key : SenderKeyState := {|
  distributionId := repeat x2a 16;
  chainKey := repeat x07 32;
  chainIndex := 0
|}.

Definition nonce : bytes := repeat x11 24.

Definition hello : bytes := list_byte_of_string "hello group".

(** Two channels whose names differ and whose file names do not. *)
Definition dev_ops_1 : HavenChannelExport.t := renamed "dev ops" 2 general.
Definition dev_ops_2 : HavenChannelExport.t := renamed "dev/ops" 5 general.

(** A channel export with other dates. *)
Definition dated (from to : string) (c : HavenChannelExport.t)
  : HavenChannelExport.t := {|
  HavenChannelExport.channel := HavenChannelExport.channel c;
  HavenChannelExport.exported_at := HavenChannelExport.exported_at c;
  HavenChannelExport.exported_by := HavenChannelExport.exported_by c;
  HavenChannelExport.message_count := HavenChannelExport.message_count c;
  HavenChannelExport.date_range := {| from := from; to := to |};
  HavenChannelExport.messages := HavenChannelExport.messages c
|}.

(** Three channels among other calls: the second has the earliest
    message and the third the latest. *)
Definition random : HavenChannelExport.t :=
  dated "2025-01-10T09:00:00Z" "2025-02-01T10:00:00Z"
    (renamed "random" 5 general).

Definition announcements : HavenChannelExport.t :=
  dated "2025-06-01T08:00:00Z" "2025-12-24T18:00:00Z"
    (renamed "announcements" 3 general).

Definition history : list BuilderCall :=
  [AddChannel general; AddAttachment "att-001" [x66; x61; x6b; x65];
   AddChannel random; AddServerMeta JNull; AddChannel announcements].

(** The channel [dev ops] with messages before and after those of
    [dev/ops], and the same channel with empty dates. *)
Definition dev_ops_old : HavenChannelExport.t :=
  dated "2024-11-01T00:00:00Z" "2026-01-31T00:00:00Z" dev_ops_1.

Definition dev_ops_undated : HavenChannelExport.t := dated "" "" dev_ops_1.

(** The manifest that [build] writes after the calls [cs], unsigned. *)
Definition manifest_after (c0 : HavenChannelExport.t)
  (cs : list BuilderCall) : HavenManifest :=
  HavenArchiveBuilder.unsigned_manifest (S := sodium) now
    (calls (J := json test_manifest c0) (metadata "") cs).

(** The manifest and the files that [build] writes for [session]. *)
Definition written_manifest (key : string) : HavenManifest :=
  match HavenArchiveBuilder.manifest (S := sodium) now
          (calls (J := json test_manifest general) (metadata key) session)
          (Some seed) with
  | Return m => m
  | Throw _ => test_manifest
  end.

Definition written_files (key : string) : list (string * bytes) :=
  match HavenArchiveBuilder.archive_files (S := sodium)
          (J := json test_manifest general) now
          (calls (J := json test_manifest general) (metadata key) session)
          (Some seed) with
  | Return fs => fs
  | Throw _ => []
  end.
(** The reader of the archive of [session], and the interfaces under
    which it is read. *)
Definition reader (key : string) : HavenArchiveReader.t := {|
  HavenArchiveReader.files := written_files key;
  HavenArchiveReader.manifest := written_manifest key
|}.

Definition written_json (key : string) : JsonText :=
  json (written_manifest key) general.

Definition written_fflate (key : string) : Fflate :=
  fflate (written_files key).

(** The archive of [session] without its attachment, with other data in
    the place of the attachment, and with a file more. *)
Definition attachment : string := "attachments/att-001.bin".

Definition without_attachment (key : string) : HavenArchiveReader.t := {|
  HavenArchiveReader.files := js_delete attachment (written_files key);
  HavenArchiveReader.manifest := written_manifest key
|}.

Definition other_attachment (key : string) : HavenArchiveReader.t := {|
  HavenArchiveReader.files := js_set attachment [x00] (written_files key);
  HavenArchiveReader.manifest := written_manifest key
|}.

Definition with_notes (key : string) : list (string * bytes) :=
  (written_files key ++ [("notes.txt", [x00])])%list.

(** The seed of another key pair than that of the exporter. *)
Definition other_seed : bytes := [x09].

(** The archive of a channel whose name is not the name of its file. *)
Definition dev_ops_session : list BuilderCall := [AddChannel dev_ops_1].

Definition dev_ops_manifest : HavenManifest :=
  match HavenArchiveBuilder.manifest (S := sodium) now
          (calls (J := json test_manifest dev_ops_1) (metadata seed_key)
             dev_ops_session)
          (Some seed) with
  | Return m => m
  | Throw _ => test_manifest
  end.

Definition dev_ops_files : list (string * bytes) :=
  match HavenArchiveBuilder.archive_files (S := sodium)
          (J := json test_manifest dev_ops_1) now
          (calls (J := json test_manifest dev_ops_1) (metadata seed_key)
             dev_ops_session)
          (Some seed) with
  | Return fs => fs
  | Throw _ => []
  end.

Definition dev_ops_reader : HavenArchiveReader.t := {|
  HavenArchiveReader.files := dev_ops_files;
  HavenArchiveReader.manifest := dev_ops_manifest
|}.

Definition dev_ops_json : JsonText := json dev_ops_manifest dev_ops_1.

Definition dev_ops_fflate : Fflate := fflate dev_ops_files.
End Model.

(** * Properties *)

(** ** Base64 *)

Ltac div_lia := zify; Z.to_euclidean_division_equations; lia.

Lemma N_below_64 (n : N) : (n < 64)%N -> In n (map N.of_nat (seq 0 64)).
Proof.
  intros Hn. apply in_map_iff. exists (N.to_nat n). split; [lia|].
  apply in_seq. lia.
Qed.

Lemma b64_value_char (n : N) : (n < 64)%N -> b64_value (b64_char n) = Some n.
Proof.
  intros Hn.
  assert (Hall : forallb
            (fun k => match b64_value (b64_char k) with
                      | Some m => N.eqb m k
                      | None => false
                      end) (map N.of_nat (seq 0 64)) = true) by reflexivity.
  rewrite forallb_forall in Hall. specialize (Hall n (N_below_64 Hn)).
  destruct (b64_value (b64_char n)); [|discriminate].
  apply N.eqb_eq in Hall. now subst.
Qed.

Lemma b64_char_not_pad (n : N) : (n < 64)%N -> Ascii.eqb (b64_char n) "=" = false.
Proof.
  intros Hn. destruct (Ascii.eqb_spec (b64_char n) "=") as [E|]; [|reflexivity].
  pose proof (b64_value_char Hn) as H. rewrite E in H. discriminate.
Qed.

Lemma byte_of_to_N (b : byte) : byte_of_N (Byte.to_N b) = b.
Proof. unfold byte_of_N. now rewrite Byte.of_to_N. Qed.

Lemma to_N_lt (b : byte) : (Byte.to_N b < 256)%N.
Proof. pose proof (Byte.to_N_bounded b). lia. Qed.

Lemma mod_shift (a b k : N) : (b < k -> (a * k + b) mod k = b)%N.
Proof.
  intros. rewrite N.add_comm, N.Div0.mod_add. apply N.mod_small; lia.
Qed.

Lemma sextets_1 (x y : N) : (y < 256 -> x / 4 * 4 + (x mod 4 * 16 + y / 16) / 16 = x)%N.
Proof. intros. div_lia. Qed.
Lemma sextets_2 (x y z : N) : (y < 256 -> z < 256 -> (x mod 4 * 16 + y / 16) mod 16 * 16 + (y mod 16 * 4 + z / 64) / 4 = y)%N.
Proof. intros. div_lia. Qed.
Lemma sextets_3 (y z : N) : (z < 256 -> (y mod 16 * 4 + z / 64) mod 4 * 64 + z mod 64 = z)%N.
Proof. intros. div_lia. Qed.

Lemma list_ind3 (A : Type) (P : list A -> Prop) :
  P [] -> (forall a, P [a]) -> (forall a b, P [a; b]) ->
  (forall a b c rest, P rest -> P (a :: b :: c :: rest)) ->
  forall l, P l.
Proof.
  intros H0 H1 H2 H3.
  fix IH 1. intros [|a [|b [|c rest]]];
    [apply H0 | apply H1 | apply H2 | apply H3, IH].
Qed.

Lemma sextet_bounds (x y : N) :
  (x < 256 -> y < 256 ->
   x / 4 < 64 /\ x mod 4 * 16 + y / 16 < 64 /\ x mod 16 * 4 + y / 64 < 64
   /\ x mod 64 < 64 /\ x mod 4 * 16 < 64 /\ x mod 16 * 4 < 64)%N.
Proof. intros. div_lia. Qed.

Theorem fromBase64_toBase64 (data : bytes) :
  fromBase64 (toBase64 data) = Return data.
Proof.
  induction data as [|a|a b|a b c rest IH] using list_ind3.
  - reflexivity.
  - pose proof (to_N_lt a) as Ha.
    destruct (sextet_bounds Ha Ha) as (B1 & _ & _ & _ & B2 & _).
    cbn [toBase64 fromBase64].
    rewrite (b64_value_char B1), (b64_value_char B2). cbn.
    replace (Byte.to_N a mod 4 * 16 mod 16 =? 0)%N with true
      by (symmetry; apply N.eqb_eq; div_lia).
    replace (Byte.to_N a / 4 * 4 + Byte.to_N a mod 4 * 16 / 16)%N
      with (Byte.to_N a) by div_lia.
    now rewrite byte_of_to_N.
  - pose proof (to_N_lt a) as Ha. pose proof (to_N_lt b) as Hb.
    destruct (sextet_bounds Ha Hb) as (B1 & B2 & _).
    destruct (sextet_bounds Hb Hb) as (_ & _ & _ & _ & _ & B3).
    cbn [toBase64 fromBase64].
    rewrite (b64_value_char B1), (b64_value_char B2), (b64_char_not_pad B3),
      (b64_value_char B3).
    cbn.
    replace (Byte.to_N b mod 16 * 4 mod 4 =? 0)%N with true
      by (symmetry; apply N.eqb_eq; div_lia).
    rewrite (sextets_1 (Byte.to_N a) Hb).
    replace ((Byte.to_N a mod 4 * 16 + Byte.to_N b / 16) mod 16 * 16
             + Byte.to_N b mod 16 * 4 / 4)%N with (Byte.to_N b).
    + now rewrite !byte_of_to_N.
    + rewrite mod_shift; div_lia.
  - pose proof (to_N_lt a) as Ha. pose proof (to_N_lt b) as Hb.
    pose proof (to_N_lt c) as Hc.
    destruct (sextet_bounds Ha Hb) as (B1 & B2 & _).
    destruct (sextet_bounds Hb Hc) as (_ & _ & B3 & _).
    destruct (sextet_bounds Hc Hc) as (_ & _ & _ & B4 & _).
    cbn [toBase64 fromBase64].
    rewrite (b64_value_char B1), (b64_value_char B2), (b64_char_not_pad B3),
      (b64_value_char B3), (b64_char_not_pad B4), (b64_value_char B4), IH.
    cbn [bind].
    rewrite (sextets_1 (Byte.to_N a) Hb), (sextets_2 (Byte.to_N a) Hb Hc),
      (sextets_3 (Byte.to_N b) Hc).
    now rewrite !byte_of_to_N.
Qed.

(** ** Byte strings *)

Lemma bytes_eqb_eq (a b : bytes) : bytes_eqb a b = true <-> a = b.
Proof.
  revert b. induction a as [|x a IH]; intros [|y b]; cbn;
    try (split; discriminate); [tauto|].
  rewrite andb_true_iff, IH. split.
  - intros [Hxy ->]. now rewrite (Byte.byte_dec_bl _ _ Hxy).
  - intros [= -> ->]. split; [now apply Byte.byte_dec_lb|reflexivity].
Qed.

Lemma bytes_eqb_refl (a : bytes) : bytes_eqb a a = true.
Proof. now apply bytes_eqb_eq. Qed.

(** ** Objects *)

Section ObjectFacts.
Variable V : Type.
Implicit Types (obj : list (string * V)) (k : string) (v : V).

Lemma js_get_set_same k v obj : js_get k (js_set k v obj) = Some v.
Proof.
  induction obj as [|[k' w] rest IH]; cbn.
  - now rewrite String.eqb_refl.
  - destruct (String.eqb k' k) eqn:E; cbn; rewrite E; [reflexivity|exact IH].
Qed.

Lemma js_get_set_other k k' v obj :
  k <> k' -> js_get k' (js_set k v obj) = js_get k' obj.
Proof.
  intros Hne. induction obj as [|[k0 w] rest IH]; cbn.
  - destruct (String.eqb_spec k k'); [contradiction|reflexivity].
  - destruct (String.eqb_spec k0 k) as [->|]; cbn.
    + destruct (String.eqb_spec k k'); [contradiction|reflexivity].
    + destruct (String.eqb k0 k'); [reflexivity|exact IH].
Qed.

Lemma js_set_keys_In k v obj x :
  In x (Object_keys (js_set k v obj)) <-> x = k \/ In x (Object_keys obj).
Proof.
  induction obj as [|[k0 w] rest IH]; cbn.
  - intuition.
  - destruct (String.eqb_spec k0 k) as [->|]; cbn; [intuition|].
    rewrite IH. intuition.
Qed.

Lemma js_set_new k v obj :
  ~ In k (Object_keys obj) -> js_set k v obj = (obj ++ [(k, v)])%list.
Proof.
  induction obj as [|[k0 w] rest IH]; cbn; intros Hk; [reflexivity|].
  destruct (String.eqb_spec k0 k) as [->|]; [tauto|].
  rewrite IH by tauto. reflexivity.
Qed.

Lemma js_set_NoDup k v obj :
  NoDup (Object_keys obj) -> NoDup (Object_keys (js_set k v obj)).
Proof.
  induction obj as [|[k0 w] rest IH]; cbn; intros Hnd.
  - constructor; [intros []|constructor].
  - inversion Hnd as [|? ? Hk0 Hrest]; subst.
    destruct (String.eqb_spec k0 k) as [->|Hne]; cbn.
    + now constructor.
    + constructor; [|now apply IH].
      intros Hin. apply js_set_keys_In in Hin.
      destruct Hin; [congruence|now apply Hk0].
Qed.

Lemma js_get_In k v obj :
  NoDup (Object_keys obj) -> In (k, v) obj -> js_get k obj = Some v.
Proof.
  induction obj as [|[k0 w] rest IH]; cbn; intros Hnd Hin; [destruct Hin|].
  inversion Hnd as [|? ? Hk0 Hrest]; subst.
  destruct Hin as [[= -> ->]|Hin].
  - now rewrite String.eqb_refl.
  - destruct (String.eqb_spec k0 k) as [->|]; [|now apply IH].
    exfalso. apply Hk0. change k with (fst (k, v)). now apply in_map.
Qed.

Lemma js_get_keys k obj :
  js_get k obj = None <-> ~ In k (Object_keys obj).
Proof.
  induction obj as [|[k0 w] rest IH]; cbn; [tauto|].
  destruct (String.eqb_spec k0 k) as [->|]; [split; [discriminate|tauto]|].
  rewrite IH. tauto.
Qed.

(** Assigning entries with fresh, distinct keys one by one appends them. *)
Lemma assign_fresh (W : Type) (f : W -> V) (entries : list (string * W)) :
  forall obj,
    NoDup (Object_keys obj ++ Object_keys entries) ->
    fold_left (fun acc pd => js_set (fst pd) (f (snd pd)) acc) entries obj
    = (obj ++ map (fun pd => (fst pd, f (snd pd))) entries)%list.
Proof.
  induction entries as [|[k w] rest IH]; intros obj Hnd; cbn.
  - now rewrite app_nil_r.
  - cbn in Hnd. rewrite js_set_new.
    + rewrite IH.
      * now rewrite <- app_assoc.
      * unfold Object_keys in *. rewrite map_app. cbn.
        rewrite <- app_assoc. exact Hnd.
    + apply NoDup_remove_2 in Hnd. intros Hin. apply Hnd.
      apply in_or_app. now left.
Qed.

Lemma assign_all_cons k v (entries target : list (string * V)) :
  HavenArchiveBuilder.assign_all ((k, v) :: entries) target
  = HavenArchiveBuilder.assign_all entries (js_set k v target).
Proof. reflexivity. Qed.

Lemma assign_all_keys_In (entries target : list (string * V)) x :
  In x (Object_keys (HavenArchiveBuilder.assign_all entries target))
  <-> In x (Object_keys entries) \/ In x (Object_keys target).
Proof.
  revert target. induction entries as [|[k w] rest IH]; intros target.
  - cbn. tauto.
  - rewrite assign_all_cons, IH, js_set_keys_In. cbn. intuition.
Qed.

Lemma assign_all_NoDup (entries target : list (string * V)) :
  NoDup (Object_keys target) ->
  NoDup (Object_keys (HavenArchiveBuilder.assign_all entries target)).
Proof.
  revert target. induction entries as [|[k w] rest IH]; intros target H.
  - exact H.
  - rewrite assign_all_cons. apply IH. now apply js_set_NoDup.
Qed.

Lemma assign_all_same (entries : list (string * V)) :
  NoDup (Object_keys entries) ->
  HavenArchiveBuilder.assign_all entries [] = entries.
Proof.
  intros Hnd. unfold HavenArchiveBuilder.assign_all.
  rewrite (assign_fresh (fun v => v)) by exact Hnd. cbn.
  rewrite <- (map_id entries) at 2. apply map_ext. now intros [k v].
Qed.
End ObjectFacts.

(** ** The order of strings *)

Lemma compare_lt_trans (s1 s2 s3 : string) :
  String.compare s1 s2 = Lt -> String.compare s2 s3 = Lt ->
  String.compare s1 s3 = Lt.
Proof.
  revert s2 s3.
  induction s1 as [|c1 s1 IH]; intros [|c2 s2] [|c3 s3]; cbn;
    try discriminate; try reflexivity.
  unfold Ascii.compare. intros H12 H23.
  destruct (N.compare_spec (N_of_ascii c1) (N_of_ascii c2)) as [E12|L12|G12];
    try discriminate H12;
    destruct (N.compare_spec (N_of_ascii c2) (N_of_ascii c3)) as [E23|L23|G23];
    try discriminate H23;
    destruct (N.compare_spec (N_of_ascii c1) (N_of_ascii c3)) as [E13|L13|G13];
    try lia; try reflexivity.
  now apply IH with s2.
Qed.

Lemma compare_refl (s : string) : String.compare s s = Eq.
Proof.
  induction s as [|c s IH]; cbn; [reflexivity|].
  unfold Ascii.compare. now rewrite N.compare_refl.
Qed.

Lemma leb_refl (s : string) : String.leb s s = true.
Proof. unfold String.leb. now rewrite compare_refl. Qed.

Lemma ltb_leb (a b : string) : String.ltb a b = true -> String.leb a b = true.
Proof. unfold String.ltb, String.leb. now destruct (String.compare a b). Qed.

Lemma not_ltb_leb (a b : string) :
  String.ltb a b = false -> String.leb b a = true.
Proof.
  unfold String.ltb, String.leb. rewrite (String.compare_antisym a b).
  now destruct (String.compare b a).
Qed.

Lemma leb_trans (a b c : string) :
  String.leb a b = true -> String.leb b c = true -> String.leb a c = true.
Proof.
  unfold String.leb.
  destruct (String.compare a b) eqn:Hab; try discriminate;
    destruct (String.compare b c) eqn:Hbc; try discriminate; intros _ _.
  - apply String.compare_eq_iff in Hab. subst. now rewrite Hbc.
  - apply String.compare_eq_iff in Hab. subst. now rewrite Hbc.
  - apply String.compare_eq_iff in Hbc. subst. now rewrite Hab.
  - now rewrite (compare_lt_trans _ _ _ Hab Hbc).
Qed.

Lemma leb_empty (s : string) : String.leb "" s = true.
Proof. now destruct s. Qed.

Lemma truthy_false (s : string) : truthy s = false <-> s = "".
Proof. destruct s; cbn; split; congruence. Qed.

Lemma append_length (s t : string) :
  String.length (s ++ t) = (String.length s + String.length t)%nat.
Proof. induction s as [|c s IH]; cbn; [reflexivity|now rewrite IH]. Qed.

Lemma append_assoc (a b c : string) : (a ++ b) ++ c = a ++ b ++ c.
Proof. induction a as [|x a IH]; cbn; [reflexivity|now rewrite IH]. Qed.

Lemma substring_suffix (s t : string) :
  substring (String.length s) (String.length t) (s ++ t) = t.
Proof.
  induction s as [|c s IH]; cbn.
  - induction t as [|d t IHt]; cbn; [reflexivity|]. now rewrite IHt.
  - exact IH.
Qed.

Lemma endsWith_append (s p : string) : endsWith (s ++ p) p = true.
Proof.
  unfold endsWith. rewrite append_length.
  replace (String.length s + String.length p - String.length p)%nat
    with (String.length s) by lia.
  rewrite substring_suffix, String.eqb_refl, andb_true_r.
  apply Nat.leb_le. lia.
Qed.

Lemma startsWith_empty (s : string) : prefix "" s = true.
Proof. now destruct s. Qed.

Lemma append_inv_head (p a b : string) : p ++ a = p ++ b -> a = b.
Proof.
  induction p as [|c p IH]; cbn; [trivial|]. intros [= H]. now apply IH.
Qed.

(** ** [JSON.stringify] with an array replacer *)


Lemma JSON_stringify_replacer (K : list string) (props : list (string * json)) :
  JSON_stringify (Some K) (JObj props)
  = "{" ++ join "," (flat_map (member_of (Some K) props) K) ++ "}".
Proof.
  cbn [JSON_stringify]. do 3 f_equal.
  apply flat_map_ext. intros P. unfold member_of.
  induction props as [|[k v] rest IH]; [reflexivity|].
  cbn [js_get]. destruct (String.eqb k P); [reflexivity|exact IH].
Qed.

Lemma flat_map_ext_in (A B : Type) (f g : A -> list B) (l : list A) :
  (forall a, In a l -> f a = g a) -> flat_map f l = flat_map g l.
Proof.
  induction l as [|a l IH]; intros H; [reflexivity|].
  cbn. rewrite (H a) by now left. f_equal. apply IH. intros; apply H. now right.
Qed.

Lemma flat_map_nil (A B : Type) (f : A -> list B) (l : list A) :
  (forall a, In a l -> f a = []) -> flat_map f l = [].
Proof.
  induction l as [|a l IH]; intros H; [reflexivity|].
  cbn. rewrite (H a) by now left. apply IH. intros; apply H. now right.
Qed.


(** An object none of whose keys is the name of a manifest field is
    written as an empty object. *)
Lemma JSON_stringify_foreign (K : list string) (props : list (string * json)) :
  (forall P, In P K -> js_get P props = None) ->
  JSON_stringify (Some K) (JObj props) = "{}".
Proof.
  intros H. rewrite JSON_stringify_replacer, flat_map_nil; [reflexivity|].
  intros P HP. unfold member_of. now rewrite (H P HP).
Qed.

Lemma ExportedBy_foreign (e : ExportedBy) (P : string) :
  In P manifest_keys -> js_get P [("user_id", JStr (user_id e));
    ("username", JStr (username e)); ("identity_key", JStr (identity_key e))] = None.
Proof.
  intros H. repeat (destruct H as [<-|H]; [reflexivity|]). destruct H.
Qed.

Lemma FileEntry_foreign (f : FileEntry) (P : string) :
  In P manifest_keys ->
  js_get P [("sha256", JStr (sha256 f)); ("size", JNum (size f))] = None.
Proof.
  intros H. repeat (destruct H as [<-|H]; [reflexivity|]). destruct H.
Qed.

Lemma DateRange_foreign (d : DateRange) (P : string) :
  In P manifest_keys ->
  js_get P [("from", JStr (from d)); ("to", JStr (to d))] = None.
Proof.
  intros H. repeat (destruct H as [<-|H]; [reflexivity|]). destruct H.
Qed.

Lemma JSON_stringify_ExportedBy (K : list string) (e : ExportedBy) :
  incl K manifest_keys -> JSON_stringify (Some K) (ExportedBy_value e) = "{}".
Proof.
  intros HK. apply JSON_stringify_foreign. intros P HP.
  apply ExportedBy_foreign, HK, HP.
Qed.

Lemma JSON_stringify_FileEntry (K : list string) (f : FileEntry) :
  incl K manifest_keys -> JSON_stringify (Some K) (FileEntry_value f) = "{}".
Proof.
  intros HK. apply JSON_stringify_foreign. intros P HP.
  apply FileEntry_foreign, HK, HP.
Qed.

Lemma JSON_stringify_DateRange (K : list string) (d : DateRange) :
  incl K manifest_keys -> JSON_stringify (Some K) (DateRange_value d) = "{}".
Proof.
  intros HK. apply JSON_stringify_foreign. intros P HP.
  apply DateRange_foreign, HK, HP.
Qed.


Lemma js_get_files_value (P : string) (fs : list (string * FileEntry)) :
  js_get P (map (fun pf => (fst pf, FileEntry_value (snd pf))) fs)
  = option_map FileEntry_value (js_get P fs).
Proof.
  induction fs as [|[k f] rest IH]; [reflexivity|].
  cbn. destruct (String.eqb k P); [reflexivity|exact IH].
Qed.

Lemma js_get_listed (V : Type) (P : string) (obj : list (string * V)) :
  existsb (String.eqb P) (Object_keys obj)
  = match js_get P obj with Some _ => true | None => false end.
Proof.
  induction obj as [|[k v] rest IH]; [reflexivity|].
  cbn. rewrite (String.eqb_sym P k). destruct (String.eqb k P); [reflexivity|exact IH].
Qed.

(** What the canonical form keeps of the [files] map: the paths that are
    also names of manifest fields, each with an empty object. *)
Lemma JSON_stringify_files (K : list string) (fs : list (string * FileEntry)) :
  incl K manifest_keys ->
  JSON_stringify (Some K) (files_value fs)
  = "{" ++ join ","
      (flat_map (fun P => if listed P fs then [quote P ++ ":{}"] else []) K)
    ++ "}".
Proof.
  intros HK. unfold files_value. rewrite JSON_stringify_replacer.
  do 3 f_equal. apply flat_map_ext. intros P.
  unfold member_of, listed. rewrite js_get_files_value, js_get_listed.
  destruct (js_get P fs) as [f|]; [|reflexivity].
  cbn [option_map]. now rewrite (JSON_stringify_FileEntry f HK).
Qed.

(** ** The canonical manifest *)


Lemma manifest_rest_object (m : HavenManifest) :
  manifest_rest (manifest_object m)
  = ([("version", JNum (version m));
      ("format", JStr (format m));
      ("exported_by", ExportedBy_value (exported_by m));
      ("exported_at", JStr (exported_at m));
      ("instance_url", JStr (instance_url m));
      ("files", files_value (files m));
      ("message_count", JNum (message_count m));
      ("date_range", DateRange_value (date_range m))]
     ++ optional "server_id" (server_id m)
     ++ optional "channel_id" (channel_id m)
     ++ optional "scope" (scope m))%list.
Proof.
  unfold manifest_rest, manifest_object.
  destruct (server_id m), (channel_id m), (scope m), (user_signature m),
    (server_signature m); reflexivity.
Qed.

Lemma sort_insert_In (x y : string) (l : list string) :
  In y (sort_insert x l) <-> y = x \/ In y l.
Proof.
  induction l as [|z l IH]; cbn.
  - intuition.
  - destruct (String.leb x z); cbn; [intuition|]. rewrite IH. intuition.
Qed.

Lemma Array_sort_In (y : string) (l : list string) :
  In y (Array_sort l) <-> In y l.
Proof.
  induction l as [|x l IH]; cbn; [reflexivity|].
  rewrite sort_insert_In, IH. intuition.
Qed.

Lemma top_keys_manifest_keys (m : HavenManifest) :
  incl (top_keys m) manifest_keys.
Proof.
  unfold top_keys. rewrite manifest_rest_object.
  destruct (server_id m), (channel_id m), (scope m); cbn;
    intros P H; repeat (destruct H as [<-|H]; [cbn; tauto|]); destruct H.
Qed.

Lemma sorted_keys_manifest_keys (m : HavenManifest) :
  incl (Array_sort (top_keys m)) manifest_keys.
Proof.
  intros P H. apply (top_keys_manifest_keys (m := m)).
  now apply (proj1 (Array_sort_In _ _)).
Qed.


Lemma same_primitives_top_keys (m1 m2 : HavenManifest) :
  same_primitives m1 m2 -> top_keys m1 = top_keys m2.
Proof.
  intros (_ & _ & _ & _ & _ & Hsc & Hsid & Hcid).
  unfold top_keys. rewrite !manifest_rest_object, Hsc, Hsid, Hcid.
  destruct (server_id m2), (channel_id m2), (scope m2); reflexivity.
Qed.

Lemma canonicalManifest_members (m : HavenManifest) :
  canonicalManifest m
  = "{" ++ join ","
      (flat_map
         (member_of (Some (Array_sort (top_keys m)))
            (manifest_rest (manifest_object m)))
         (Array_sort (top_keys m)))
    ++ "}".
Proof.
  unfold canonicalManifest, canonicalObject. cbv zeta.
  now rewrite JSON_stringify_replacer.
Qed.

Lemma canonicalManifest_same (m1 m2 : HavenManifest) :
  same_primitives m1 m2 ->
  (forall P, In P (top_keys m1) -> listed P (files m1) = listed P (files m2)) ->
  canonicalManifest m1 = canonicalManifest m2.
Proof.
  intros Hprim Hfiles.
  rewrite !canonicalManifest_members.
  rewrite <- (same_primitives_top_keys Hprim).
  pose proof (sorted_keys_manifest_keys m1) as HK.
  assert (HKin : forall P, In P (Array_sort (top_keys m1)) -> In P (top_keys m1))
    by (intros P; apply (proj1 (Array_sort_In _ _))).
  set (K := Array_sort (top_keys m1)) in *.
  do 3 f_equal. apply flat_map_ext_in. intros P HP.
  assert (Hfs : JSON_stringify (Some K) (files_value (files m1))
                = JSON_stringify (Some K) (files_value (files m2))).
  { rewrite !JSON_stringify_files by exact HK.
    do 3 f_equal. apply flat_map_ext_in. intros Q HQ.
    now rewrite (Hfiles Q (HKin Q HQ)). }
  destruct Hprim as (Hv & Hf & Hat & Hurl & Hmc & Hsc & Hsid & Hcid).
  unfold member_of. rewrite !manifest_rest_object.
  rewrite <- Hv, <- Hf, <- Hat, <- Hurl, <- Hmc, <- Hsc, <- Hsid, <- Hcid.
  cbn [app js_get].
  repeat match goal with
         | |- context [String.eqb ?k P] =>
             destruct (String.eqb k P);
             [cbn [JSON_stringify];
              rewrite ?JSON_stringify_ExportedBy, ?JSON_stringify_DateRange,
                ?Hfs by exact HK;
              reflexivity|]
         end.
  destruct (server_id m1), (channel_id m1), (scope m1); cbn [optional app js_get];
    repeat match goal with
           | |- context [String.eqb ?k P] =>
               destruct (String.eqb k P); [reflexivity|]
           end; reflexivity.
Qed.

(** ** The order of the top-level keys *)

Lemma sort_insert_perm (x : string) (l : list string) :
  Permutation (x :: l) (sort_insert x l).
Proof.
  induction l as [|y l IH]; cbn; [reflexivity|].
  destruct (String.leb x y); [reflexivity|].
  rewrite perm_swap. now constructor.
Qed.

Lemma Array_sort_perm (l : list string) : Permutation l (Array_sort l).
Proof.
  induction l as [|x l IH]; cbn; [constructor|].
  rewrite <- sort_insert_perm. now constructor.
Qed.

Lemma sort_insert_sorted (x : string) (l : list string) :
  StronglySorted string_le l -> StronglySorted string_le (sort_insert x l).
Proof.
  induction 1 as [|y l Hs IH Hall]; cbn.
  - repeat constructor.
  - destruct (String.leb x y) eqn:E.
    + constructor; [now constructor|]. constructor; [exact E|].
      eapply Forall_impl; [|exact Hall]. intros z Hz.
      now apply leb_trans with y.
    + constructor; [exact IH|].
      apply (Permutation_Forall (sort_insert_perm x l)).
      constructor; [|exact Hall].
      destruct (String.leb_total x y) as [H|H]; [congruence|exact H].
Qed.

(** [Object.keys(rest).sort()] is in ascending order, and holds the keys
    of [rest]. *)
Lemma Array_sort_sorted (l : list string) : StronglySorted string_le (Array_sort l).
Proof.
  induction l as [|x l IH]; cbn; [constructor|].
  now apply sort_insert_sorted.
Qed.

Lemma sorted_perm_eq (l1 l2 : list string) :
  StronglySorted string_le l1 -> StronglySorted string_le l2 -> Permutation l1 l2 ->
  l1 = l2.
Proof.
  intros H1. revert l2.
  induction H1 as [|x l1 Hs1 IH Hall1]; intros l2 H2 Hp.
  - apply Permutation_nil in Hp. now subst.
  - destruct H2 as [|y l2 Hs2 Hall2].
    + apply Permutation_sym, Permutation_nil in Hp. discriminate Hp.
    + assert (Hxy : x = y).
      { apply String.leb_antisym.
        - assert (Hin : In y (x :: l1))
            by (apply (Permutation_in _ (Permutation_sym Hp)); now left).
          destruct Hin as [->|Hin]; [apply leb_refl|].
          rewrite Forall_forall in Hall1. now apply Hall1.
        - assert (Hin : In x (y :: l2))
            by (apply (Permutation_in _ Hp); now left).
          destruct Hin as [->|Hin]; [apply leb_refl|].
          rewrite Forall_forall in Hall2. now apply Hall2. }
      subst y. f_equal. apply IH; [exact Hs2|].
      now apply Permutation_cons_inv with x.
Qed.

(** The canonical form of an object does not depend on the order in
    which its properties were inserted. *)
Lemma js_get_perm (V : Type) (k : string) (o1 o2 : list (string * V)) :
  NoDup (Object_keys o1) -> Permutation o1 o2 -> js_get k o1 = js_get k o2.
Proof.
  intros Hnd Hp.
  assert (Hnd2 : NoDup (Object_keys o2))
    by (apply (Permutation_NoDup (Permutation_map fst Hp)), Hnd).
  destruct (js_get k o1) as [v|] eqn:E1.
  - symmetry. apply js_get_In; [exact Hnd2|].
    apply (Permutation_in _ Hp).
    clear - E1. induction o1 as [|[k0 w] rest IH]; [discriminate|].
    cbn in E1. destruct (String.eqb_spec k0 k) as [->|].
    + injection E1 as ->. now left.
    + right. now apply IH.
  - symmetry. apply js_get_keys. apply js_get_keys in E1.
    intros Hin. apply E1.
    apply (Permutation_in _ (Permutation_sym (Permutation_map fst Hp))), Hin.
Qed.

Lemma js_delete_perm (V : Type) (k : string) (o1 o2 : list (string * V)) :
  Permutation o1 o2 -> Permutation (js_delete k o1) (js_delete k o2).
Proof.
  induction 1 as [|[k0 w] l1 l2 Hp IH|[k0 w] [k1 w1] l|l1 l2 l3 _ IH1 _ IH2];
    cbn.
  - constructor.
  - destruct (String.eqb k0 k); [exact IH|now constructor].
  - destruct (String.eqb k0 k), (String.eqb k1 k); try reflexivity.
    apply perm_swap.
  - now transitivity (js_delete k l2).
Qed.

Lemma js_delete_keys (V : Type) (k : string) (o : list (string * V)) :
  Object_keys (js_delete k o) = filter (fun x => negb (String.eqb x k)) (Object_keys o).
Proof.
  unfold Object_keys.
  induction o as [|[k0 w] rest IH]; cbn; [reflexivity|].
  destruct (String.eqb k0 k); cbn; [exact IH|now rewrite IH].
Qed.

Lemma js_delete_NoDup (V : Type) (k : string) (o : list (string * V)) :
  NoDup (Object_keys o) -> NoDup (Object_keys (js_delete k o)).
Proof. intros H. rewrite js_delete_keys. now apply NoDup_filter. Qed.

Lemma canonicalObject_perm (o1 o2 : list (string * json)) :
  NoDup (Object_keys o1) -> Permutation o1 o2 ->
  canonicalObject o1 = canonicalObject o2.
Proof.
  intros Hnd Hp. unfold canonicalObject, manifest_rest. cbv zeta.
  set (r1 := js_delete "server_signature" (js_delete "user_signature" o1)).
  set (r2 := js_delete "server_signature" (js_delete "user_signature" o2)).
  assert (Hr : Permutation r1 r2) by now do 2 apply js_delete_perm.
  assert (Hndr : NoDup (Object_keys r1)) by now do 2 apply js_delete_NoDup.
  assert (HK : Array_sort (Object_keys r1) = Array_sort (Object_keys r2)).
  { apply sorted_perm_eq; try apply Array_sort_sorted.
    rewrite <- !Array_sort_perm. now apply Permutation_map. }
  rewrite <- HK, !JSON_stringify_replacer. do 3 f_equal.
  apply flat_map_ext. intros P. unfold member_of.
  now rewrite (js_get_perm P Hndr Hr).
Qed.

(** ** The canonical form and the form of the specification *)

(** C1, the code at the failing input.  The canonical form of the
    manifest of the signing tests, with one file listed, has its nested
    objects emptied; the form that section 4.10 describes has them in
    full. *)
Theorem canonicalManifest_test_manifest :
  canonicalManifest test_manifest
  = "{" ++ quoted "date_range" ++ ":{},"
        ++ quoted "exported_at" ++ ":" ++ quoted "2026-02-22T12:00:00Z" ++ ","
        ++ quoted "exported_by" ++ ":{},"
        ++ quoted "files" ++ ":{},"
        ++ quoted "format" ++ ":" ++ quoted "haven-export" ++ ","
        ++ quoted "instance_url" ++ ":" ++ quoted "https://haven.example.com" ++ ","
        ++ quoted "message_count" ++ ":0,"
        ++ quoted "version" ++ ":1}"
  /\ canonical_manifest_spec test_manifest
  = "{" ++ quoted "date_range" ++ ":{" ++ quoted "from" ++ ":" ++ quoted "2026-01-01T00:00:00Z"
        ++ "," ++ quoted "to" ++ ":" ++ quoted "2026-02-22T12:00:00Z" ++ "},"
        ++ quoted "exported_at" ++ ":" ++ quoted "2026-02-22T12:00:00Z" ++ ","
        ++ quoted "exported_by" ++ ":{" ++ quoted "user_id" ++ ":" ++ quoted "user-001" ++ ","
        ++ quoted "username" ++ ":" ++ quoted "alice" ++ ","
        ++ quoted "identity_key" ++ ":" ++ quoted "3q2+7w==" ++ "},"
        ++ quoted "files" ++ ":{" ++ quoted "channels/general.json" ++ ":{"
        ++ quoted "sha256" ++ ":" ++ quoted "b94d27b9" ++ "," ++ quoted "size" ++ ":11}},"
        ++ quoted "format" ++ ":" ++ quoted "haven-export" ++ ","
        ++ quoted "instance_url" ++ ":" ++ quoted "https://haven.example.com" ++ ","
        ++ quoted "message_count" ++ ":0,"
        ++ quoted "version" ++ ":1}"
  /\ canonicalManifest test_manifest <> canonical_manifest_spec test_manifest.
Proof.
  split; [reflexivity|split; [reflexivity|]].
  intros H. vm_compute in H. discriminate H.
Qed.


(** On every manifest the canonical form of the code differs from the one
    that section 4.10 describes: [date_range] is written as an empty
    object in the first and with its two dates in the second. *)
Lemma canonicalManifest_not_spec (m : HavenManifest) :
  canonicalManifest m <> canonical_manifest_spec m.
Proof.
  rewrite canonicalManifest_members.
  unfold canonical_manifest_spec, top_keys. cbv zeta.
  rewrite manifest_rest_object.
  destruct m as [v f eb ea sc sid cid iu fs mc dr us ss].
  cbn [version format exported_by exported_at scope server_id channel_id
       instance_url files message_count date_range].
  destruct sc as [sc|], sid as [sid|], cid as [cid|];
    cbn -[quote_units JSON_stringify files_value ExportedBy_value Number_toString];
    rewrite ?append_assoc;
    cbn -[quote_units JSON_stringify files_value ExportedBy_value Number_toString];
    intros H.
  all: try (injection H as H; apply append_inv_head in H; discriminate H).
  all: try discriminate H.
Qed.

(** C2, as amended.  Two manifests with the same top-level primitive
    fields, and whose [files] list the same paths among the names of the
    top-level keys present, have the same canonical form whatever else
    their [files], [exported_by] and [date_range] hold; so [signManifest]
    gives the same result on both, and no hash, size or identity key has
    a part in it. *)
Theorem canonicalManifest_insensitive (m1 m2 : HavenManifest) :
  same_primitives m1 m2 ->
  (forall P, In P (top_keys m1) -> listed P (files m1) = listed P (files m2)) ->
  canonicalManifest m1 = canonicalManifest m2
  /\ forall (S : Sodium) (privateKey : bytes),
       signManifest m1 privateKey = signManifest m2 privateKey.
Proof.
  intros Hprim Hfiles.
  pose proof (canonicalManifest_same Hprim Hfiles) as E.
  split; [exact E|]. intros S sk. unfold signManifest. now rewrite E.
Qed.

(** [test_manifest] and [other_nested] differ in every nested object and
    have one canonical form. *)
Lemma canonicalManifest_insensitive_witness :
  canonicalManifest test_manifest = canonicalManifest other_nested
  /\ forall (S : Sodium) (privateKey : bytes),
       signManifest test_manifest privateKey
       = signManifest other_nested privateKey.
Proof.
  apply (@canonicalManifest_insensitive test_manifest other_nested).
  - repeat split.
  - intros P H. cbn in H.
    repeat (destruct H as [<-|H]; [reflexivity|]). destruct H.
Defined.

(** C2, the claim as it stands fails: a path of [files] that is the name
    of a manifest field is kept, with an empty object. *)
Lemma canonicalManifest_insensitive_counterexample :
  same_primitives test_manifest file_named_version
  /\ canonicalManifest test_manifest <> canonicalManifest file_named_version.
Proof.
  split; [repeat split|].
  intros H. vm_compute in H. discriminate H.
Qed.

(** ** Signing and verifying a manifest *)


Lemma verifyManifest_true `{S : Sodium} (m : HavenManifest)
  (signature pk : bytes) :
  verifyManifest m (toBase64 signature) pk = true
  <-> crypto_sign_verify_detached signature
        (TextEncoder_encode (canonicalManifest m)) pk = Return true.
Proof.
  unfold verifyManifest. rewrite fromBase64_toBase64. cbn [bind].
  destruct (crypto_sign_verify_detached _ _ _) as [[|]|e]; cbn;
    split; congruence.
Qed.

Section Signing.
Context {S : Sodium} {L : SignLaws S}.

(** C5.  A manifest signed with the private key of a key pair verifies
    under the public key of the pair, and under no other public key. *)
Theorem sign_then_verify (m : HavenManifest) (seed : bytes) :
  let kp := crypto_sign_seed_keypair seed in
  exists signature,
    signManifest m (privateKey kp) = Return signature
    /\ verifyManifest m signature (publicKey kp) = true
    /\ forall pk2, pk2 <> publicKey kp ->
                   verifyManifest m signature pk2 = false.
Proof.
  intros kp.
  destruct (sign_returns seed (TextEncoder_encode (canonicalManifest m)))
    as [sig Hsig].
  exists (toBase64 sig). unfold signManifest. fold kp in Hsig.
  rewrite Hsig. cbn [bind]. split; [reflexivity|split].
  - apply verifyManifest_true. now apply verify_signed.
  - intros pk2 Hpk2.
    destruct (verifyManifest m (toBase64 sig) pk2) eqn:E; [|reflexivity].
    apply verifyManifest_true in E.
    now apply (verify_other_key seed _ Hsig Hpk2) in E.
Qed.
End Signing.

(** The model satisfies the laws of signatures. *)
Lemma Model_sign_laws : SignLaws Model.sodium.
Proof.
  split; cbn.
  - intros seed message. now eexists.
  - intros seed message signature [= <-]. now rewrite bytes_eqb_refl.
  - intros seed message signature other [= <-] Hne [= H].
    apply bytes_eqb_eq, app_inv_tail in H. congruence.
Qed.

(** A manifest signed with the key of [Model.seed] verifies under it and
    not under another key. *)
Lemma sign_then_verify_witness :
  exists signature,
    signManifest (S := Model.sodium) test_manifest Model.seed
    = Return signature
    /\ verifyManifest (S := Model.sodium) test_manifest signature Model.seed
       = true
    /\ forall pk2, pk2 <> Model.seed ->
                   verifyManifest (S := Model.sodium) test_manifest signature pk2
                   = false.
Proof.
  exact (sign_then_verify (S := Model.sodium) (L := Model_sign_laws)
           test_manifest Model.seed).
Defined.

(** ** The builder *)

Lemma channel_key_not_manifest (c : HavenChannelExport.t) :
  HavenArchiveBuilder.channel_key c <> "manifest.json".
Proof.
  unfold HavenArchiveBuilder.channel_key, HavenArchiveBuilder.channel_dir.
  destruct (_ || _); cbn; discriminate.
Qed.

Lemma call_no_manifest_key `{J : JsonText} (b : HavenArchiveBuilder.t)
  (c : BuilderCall) :
  no_manifest_key b -> no_manifest_key (call b c).
Proof.
  intros [Hc Ha]. destruct c; cbn; split; cbn; try assumption.
  - intros Hin. apply js_set_keys_In in Hin. destruct Hin as [Hin|Hin].
    + now apply (channel_key_not_manifest channelExport).
    + now apply Hc.
  - intros Hin. apply js_set_keys_In in Hin. destruct Hin as [Hin|Hin].
    + discriminate Hin.
    + now apply Ha.
Qed.

Lemma calls_no_manifest_key `{J : JsonText} (metadata : ArchiveMetadata.t)
  (cs : list BuilderCall) : no_manifest_key (calls metadata cs).
Proof.
  unfold calls.
  assert (H0 : no_manifest_key (HavenArchiveBuilder.new metadata))
    by (split; intros []).
  revert H0. generalize (HavenArchiveBuilder.new metadata).
  induction cs as [|c cs IH]; intros b Hb; cbn; [exact Hb|].
  apply IH. now apply call_no_manifest_key.
Qed.

Lemma collect_NoDup (b : HavenArchiveBuilder.t) :
  NoDup (Object_keys (HavenArchiveBuilder.collect b)).
Proof.
  unfold HavenArchiveBuilder.collect.
  destruct (HavenArchiveBuilder.auditLog b), (HavenArchiveBuilder.serverMeta b);
    repeat first [apply js_set_NoDup | apply assign_all_NoDup]; constructor.
Qed.

Lemma collect_no_manifest (b : HavenArchiveBuilder.t) :
  no_manifest_key b ->
  ~ In "manifest.json" (Object_keys (HavenArchiveBuilder.collect b)).
Proof.
  intros [Hc Ha] Hin. unfold HavenArchiveBuilder.collect in Hin.
  assert (Hbase : ~ In "manifest.json"
            (Object_keys
               (HavenArchiveBuilder.assign_all (HavenArchiveBuilder.attachments b)
                  (HavenArchiveBuilder.assign_all (HavenArchiveBuilder.channels b) [])))).
  { intros H. apply assign_all_keys_In in H. destruct H as [H|H]; [tauto|].
    apply assign_all_keys_In in H. destruct H as [H|[]]. tauto. }
  destruct (HavenArchiveBuilder.auditLog b), (HavenArchiveBuilder.serverMeta b);
    repeat (apply js_set_keys_In in Hin; destruct Hin as [Hin|Hin];
            [discriminate Hin|]);
    now apply Hbase.
Qed.

Lemma hash_all_map `{S : Sodium} (files : list (string * bytes)) :
  NoDup (Object_keys files) ->
  HavenArchiveBuilder.hash_all files
  = map (fun pd => (fst pd, entry_of (snd pd))) files.
Proof.
  intros Hnd. exact (@assign_fresh _ _ entry_of files [] Hnd).
Qed.

(** ** The reader *)

Lemma check_file_listed `{S : Sodium} (r : HavenArchiveReader.t)
  (issues : list string) (path : string) (data : bytes) :
  js_get path (HavenArchiveReader.files r) = Some data ->
  HavenArchiveReader.check_file r issues (path, entry_of data) = issues.
Proof.
  intros Hget. unfold HavenArchiveReader.check_file. cbn [fst snd].
  rewrite Hget. cbn. now rewrite String.eqb_refl, Z.eqb_refl.
Qed.

Lemma check_files_listed `{S : Sodium} (r : HavenArchiveReader.t)
  (fs : list (string * bytes)) :
  (forall path data, In (path, data) fs ->
     js_get path (HavenArchiveReader.files r) = Some data) ->
  forall issues,
    fold_left (HavenArchiveReader.check_file r)
      (map (fun pd => (fst pd, entry_of (snd pd))) fs) issues = issues.
Proof.
  induction fs as [|[p d] rest IH]; intros Hall issues; [reflexivity|].
  cbn [map fold_left fst snd].
  rewrite check_file_listed by (apply Hall; now left).
  apply IH. intros; apply Hall. now right.
Qed.

Lemma canonicalManifest_with_user_signature (m : HavenManifest) (sig : string) :
  canonicalManifest (HavenArchiveBuilder.with_user_signature m sig)
  = canonicalManifest m.
Proof.
  unfold canonicalManifest, canonicalObject.
  now rewrite !manifest_rest_object.
Qed.

Lemma decode_encode (s : string) : TextDecoder_decode (TextEncoder_encode s) = s.
Proof. apply string_of_list_byte_of_string. Qed.

Section Archive.
Context {S : Sodium} {L : SignLaws S} {J : JsonText} {F : Fflate}.

(** The manifest that [build] writes lists the collected files, each
    with the hash and the size of its data. *)
Lemma built_manifest_files (now : nat -> string) (b : HavenArchiveBuilder.t)
  (signingKey : option bytes) (m : HavenManifest) :
  HavenArchiveBuilder.manifest now b signingKey = Return m ->
  files m = map (fun pd => (fst pd, entry_of (snd pd)))
              (HavenArchiveBuilder.collect b).
Proof.
  unfold HavenArchiveBuilder.manifest. intros H.
  destruct signingKey as [key|].
  - destruct (signManifest _ key) as [sig|e]; [|discriminate H].
    injection H as <-. cbn. apply hash_all_map, collect_NoDup.
  - injection H as <-. cbn. apply hash_all_map, collect_NoDup.
Qed.

(** The signature that [build] writes verifies under the key that the
    manifest names, when the metadata name the key of the signer. *)
Lemma built_manifest_signature (now : nat -> string) (b : HavenArchiveBuilder.t)
  (signingKey : option bytes) (m : HavenManifest) :
  signing_key_matches (HavenArchiveBuilder.metadata b) signingKey ->
  HavenArchiveBuilder.manifest now b signingKey = Return m ->
  match user_signature m with
  | None => True
  | Some signature =>
      exists pk,
        fromBase64 (identity_key (exported_by m)) = Return pk
        /\ verifyManifest m signature pk = true
  end.
Proof.
  unfold HavenArchiveBuilder.manifest, signing_key_matches. intros Hkey H.
  destruct signingKey as [key|].
  - destruct Hkey as (seed & -> & Hid).
    unfold signManifest in H.
    destruct (crypto_sign_detached _ _) as [sig|e] eqn:Hsig;
      [|discriminate H].
    cbn [bind] in H. injection H as <-. cbn [user_signature].
    exists (publicKey (crypto_sign_seed_keypair seed)). split.
    + cbn. rewrite Hid. apply fromBase64_toBase64.
    + apply verifyManifest_true.
      rewrite canonicalManifest_with_user_signature.
      now apply verify_signed.
  - injection H as <-. exact I.
Qed.

Lemma calls_metadata (metadata : ArchiveMetadata.t) (cs : list BuilderCall) :
  HavenArchiveBuilder.metadata (calls metadata cs) = metadata.
Proof.
  unfold calls.
  change metadata with
    (HavenArchiveBuilder.metadata (HavenArchiveBuilder.new metadata)) at 2.
  generalize (HavenArchiveBuilder.new metadata).
  induction cs as [|c cs IH]; intros b; cbn; [reflexivity|].
  rewrite IH. now destruct c.
Qed.

(** A reader whose files are those that the manifest lists, and whose
    manifest carries a signature that verifies, has nothing to report. *)
Lemma verify_consistent (r : HavenArchiveReader.t)
  (fs : list (string * bytes)) :
  manifest_files (HavenArchiveReader.manifest r)
  = map (fun pd => (fst pd, entry_of (snd pd))) fs ->
  (forall path data, In (path, data) fs ->
     js_get path (HavenArchiveReader.files r) = Some data) ->
  match user_signature (HavenArchiveReader.manifest r) with
  | None => True
  | Some signature =>
      exists pk,
        fromBase64 (identity_key (exported_by (HavenArchiveReader.manifest r)))
        = Return pk
        /\ verifyManifest (HavenArchiveReader.manifest r) signature pk = true
  end ->
  HavenArchiveReader.verify r = Return {| valid := true; issues := [] |}.
Proof.
  intros Hfiles Hget Hsig. unfold HavenArchiveReader.verify, Object_entries.
  rewrite Hfiles, (check_files_listed r fs Hget).
  destruct (user_signature (HavenArchiveReader.manifest r)) as [sig|];
    [|reflexivity].
  destruct (truthy sig); [|reflexivity].
  destruct Hsig as (pk & Hpk & Hv). rewrite Hpk. cbn [bind].
  now rewrite Hv.
Qed.

(** C3, as amended.  An archive that [build] produces from any sequence
    of calls, without a signing key or with the private key of the pair
    whose public key the metadata give as [identity_key], opens in a
    reader whose [verify] reports [valid] and no issue.  The ZIP
    container and [JSON.parse] are assumed to give back what was written:
    the files of this archive and the manifest of this archive. *)
Theorem build_then_verify (metadata : ArchiveMetadata.t)
  (cs : list BuilderCall) (signingKey : option bytes)
  (now : nat -> string) (zip : bytes) :
  signing_key_matches metadata signingKey ->
  HavenArchiveBuilder.build now (calls metadata cs) signingKey
  = Return zip ->
  (forall zippable,
     HavenArchiveBuilder.archive_files now (calls metadata cs) signingKey
     = Return zippable -> unzipSync zip = Return zippable) ->
  (forall m,
     HavenArchiveBuilder.manifest now (calls metadata cs) signingKey
     = Return m ->
     JSON_parse_manifest (JSON_stringify_manifest m) = Return m) ->
  exists reader,
    HavenArchiveReader.fromBlob zip = Return reader
    /\ HavenArchiveReader.verify reader
       = Return {| valid := true; issues := [] |}.
Proof.
  intros Hkey Hbuild Hzip Hjson.
  set (b := calls metadata cs) in *.
  pose proof (collect_NoDup b) as Hnd.
  pose proof (collect_no_manifest (calls_no_manifest_key metadata cs)) as Hnm.
  fold b in Hnm.
  unfold HavenArchiveBuilder.build, HavenArchiveBuilder.archive_files in *.
  destruct (HavenArchiveBuilder.manifest now b signingKey) as [m|e] eqn:Hm;
    [|discriminate Hbuild].
  cbn [bind] in Hbuild, Hzip.
  set (text := TextEncoder_encode (JSON_stringify_manifest m)) in *.
  unfold Object_entries in *.
  rewrite assign_all_same in Hbuild, Hzip by now apply js_set_NoDup.
  specialize (Hzip _ eq_refl). specialize (Hjson m eq_refl).
  eexists. split.
  - unfold HavenArchiveReader.fromBlob. rewrite Hzip. cbn [bind].
    rewrite js_get_set_same. unfold text.
    rewrite decode_encode, Hjson. cbn [bind]. reflexivity.
  - apply verify_consistent with (fs := HavenArchiveBuilder.collect b).
    + cbn. exact (built_manifest_files _ _ _ Hm).
    + intros path data Hin. cbn.
      rewrite js_get_set_other.
      * now apply js_get_In.
      * intros <-. apply Hnm. change "manifest.json" with (fst ("manifest.json", data)).
        now apply in_map.
    + cbn. apply (built_manifest_signature now b signingKey); [|exact Hm].
      unfold b. now rewrite calls_metadata.
Qed.
End Archive.

(** The archive of [Model.session], signed with the key that the
    metadata name, verifies. *)
Lemma build_then_verify_witness :
  exists reader,
    HavenArchiveReader.fromBlob
      (J := Model.json (Model.written_manifest Model.seed_key) Model.general)
      (F := Model.fflate (Model.written_files Model.seed_key)) []
    = Return reader
    /\ HavenArchiveReader.verify (S := Model.sodium) reader
       = Return {| valid := true; issues := [] |}.
Proof.
  apply (build_then_verify (S := Model.sodium) (L := Model_sign_laws)
           (J := Model.json (Model.written_manifest Model.seed_key) Model.general)
           (F := Model.fflate (Model.written_files Model.seed_key))
           (Model.metadata Model.seed_key) Model.session (Some Model.seed)
           Model.now (zip := [])).
  - exists Model.seed. split; reflexivity.
  - reflexivity.
  - intros zippable H. vm_compute in H. injection H as <-. reflexivity.
  - intros m H. vm_compute in H. injection H as <-. reflexivity.
Defined.

(** C3, the claim as it stands fails: the builder signs with whatever key
    it is given and does not compare it with [identity_key].  With the
    metadata of the tests, whose [identity_key] is empty, the archive
    signed with the key of [Model.seed] opens, and [verify] reports the
    signature. *)
Lemma build_then_verify_counterexample :
  HavenArchiveBuilder.build (S := Model.sodium)
    (J := Model.json (Model.written_manifest "") Model.general)
    (F := Model.fflate (Model.written_files "")) Model.now
    (calls (J := Model.json (Model.written_manifest "") Model.general)
       (Model.metadata "") Model.session)
    (Some Model.seed) = Return []
  /\ exists reader,
    HavenArchiveReader.fromBlob
      (J := Model.json (Model.written_manifest "") Model.general)
      (F := Model.fflate (Model.written_files "")) []
    = Return reader
    /\ HavenArchiveReader.verify (S := Model.sodium) reader
       = Return {| valid := false;
                   issues := ["User signature verification failed"] |}.
Proof.
  split; [reflexivity|]. eexists. split; reflexivity.
Qed.

(** ** [verify] and exceptions *)

(** [verify] returns when the manifest has no signature, or an empty one,
    or an identity key that decodes, and then [valid] says whether there
    are issues. *)
Lemma verify_valid_iff {S : Sodium} (r : HavenArchiveReader.t)
  (res : VerifyResult) :
  HavenArchiveReader.verify r = Return res ->
  (valid res = true <-> issues res = []).
Proof.
  unfold HavenArchiveReader.verify.
  match goal with |- bind ?x _ = _ -> _ => destruct x as [l|e] end;
    [|discriminate].
  cbn [bind]. intros [= <-]. cbn [valid issues].
  destruct l; cbn; split; intros H; try reflexivity; discriminate H.
Qed.

(** When [verify] returns, as far as the signature decides: the files
    are taken to be looked up among own properties, see [check_file]. *)
Lemma verify_returns {S : Sodium} (r : HavenArchiveReader.t) :
  returns (HavenArchiveReader.verify r)
  = match user_signature (HavenArchiveReader.manifest r) with
    | Some signature =>
        negb (truthy signature)
        || returns (fromBase64
                      (identity_key
                         (exported_by (HavenArchiveReader.manifest r))))
    | None => true
    end.
Proof.
  unfold HavenArchiveReader.verify.
  destruct (user_signature _) as [sig|]; [|reflexivity].
  destruct (truthy sig); [|reflexivity].
  now destruct (fromBase64 _).
Qed.

(** C4, the code at the failing input.  On a reader whose manifest is
    signed and names an identity key that is not base64 text, [verify]
    does not return: the error of [fromBase64] leaves it, whatever
    libsodium is. *)
Theorem verify_raises (S : Sodium) (files : list (string * bytes)) :
  HavenArchiveReader.verify
    {| HavenArchiveReader.files := files;
       HavenArchiveReader.manifest := unreadable_key |}
  = Throw "invalid input".
Proof. reflexivity. Qed.

(** ** Two channels in one file *)

Lemma channel_key_is_channel_file (c : HavenChannelExport.t) :
  (startsWith (HavenArchiveBuilder.channel_key c) "channels/"
   || startsWith (HavenArchiveBuilder.channel_key c) "dms/")
  && endsWith (HavenArchiveBuilder.channel_key c) ".json" = true.
Proof.
  apply andb_true_iff. split.
  - unfold HavenArchiveBuilder.channel_key, HavenArchiveBuilder.channel_dir,
      startsWith.
    destruct (String.eqb _ "dm" || String.eqb _ "group_dm"); cbn;
      now rewrite startsWith_empty.
  - unfold HavenArchiveBuilder.channel_key. cbv zeta.
    set (dir := HavenArchiveBuilder.channel_dir _).
    set (name := replace_non_slug _).
    assert (E : dir ++ "/" ++ name ++ ".json" = (dir ++ "/" ++ name) ++ ".json")
      by now rewrite !append_assoc.
    rewrite E. apply endsWith_append.
Qed.

(** On any builder, a second channel with the key of the first takes its
    place in the map of channels, and both are counted. *)
Lemma addChannel_collision `{J : JsonText} (b : HavenArchiveBuilder.t)
  (c1 c2 : HavenChannelExport.t) :
  HavenArchiveBuilder.channel_key c1 = HavenArchiveBuilder.channel_key c2 ->
  let b1 := HavenArchiveBuilder.addChannel c1 b in
  let b2 := HavenArchiveBuilder.addChannel c2 b1 in
  js_get (HavenArchiveBuilder.channel_key c1) (HavenArchiveBuilder.channels b2)
  = Some (TextEncoder_encode (JSON_stringify_channel c2))
  /\ Object_keys (HavenArchiveBuilder.channels b2)
     = Object_keys (HavenArchiveBuilder.channels b1)
  /\ HavenArchiveBuilder.messageCount b2
     = (HavenArchiveBuilder.messageCount b
        + HavenChannelExport.message_count c1
        + HavenChannelExport.message_count c2)%Z.
Proof.
  intros Hkey. cbn. rewrite <- Hkey. split; [apply js_get_set_same|].
  split; [|reflexivity].
  generalize (TextEncoder_encode (JSON_stringify_channel c1)).
  generalize (TextEncoder_encode (JSON_stringify_channel c2)).
  generalize (HavenArchiveBuilder.channel_key c1).
  intros k d2 d1. induction (HavenArchiveBuilder.channels b) as [|[k0 w] rest IH];
    cbn.
  - now rewrite String.eqb_refl.
  - destruct (String.eqb k0 k) eqn:E; cbn; rewrite E; cbn; [reflexivity|].
    now rewrite IH.
Qed.

(** ** The running counters of the builder *)

Lemma calls_counters `{J : JsonText} (cs : list BuilderCall) :
  forall b,
    let b' := fold_left call cs b in
    HavenArchiveBuilder.messageCount b'
    = (HavenArchiveBuilder.messageCount b
       + sum (map HavenChannelExport.message_count (added cs)))%Z
    /\ HavenArchiveBuilder.earliestDate b'
       = fold_left earlier (map from_of (added cs))
           (HavenArchiveBuilder.earliestDate b)
    /\ HavenArchiveBuilder.latestDate b'
       = fold_left later (map to_of (added cs))
           (HavenArchiveBuilder.latestDate b).
Proof.
  induction cs as [|c cs IH]; intros b; cbn zeta.
  - cbn. repeat split. lia.
  - cbn [fold_left]. destruct (IH (call b c)) as (Hm & He & Hl).
    rewrite Hm, He, Hl.
    destruct c; unfold sum, added; cbn; (split; [lia|split; reflexivity]).
Qed.

Lemma later_max (xs : list string) :
  forall a seen,
    is_max a seen ->
    exists r, fold_left later xs (Some a) = Some r /\ is_max r (seen ++ xs)%list.
Proof.
  induction xs as [|x xs IH]; intros a seen [Hin Hle].
  - exists a. rewrite app_nil_r. now repeat split.
  - cbn [fold_left].
    assert (Hstep : exists a', later (Some a) x = Some a'
                               /\ is_max a' (seen ++ [x])%list).
    { unfold later. cbn [HavenArchiveBuilder.unset HavenArchiveBuilder.current].
      destruct (truthy a) eqn:Ht; cbn [negb orb].
      - destruct (String.ltb a x) eqn:Hlt.
        + exists x. split; [reflexivity|]. split.
          * apply in_or_app. right. now left.
          * intros y Hy. apply in_app_or in Hy. destruct Hy as [Hy|[<-|[]]].
            -- apply leb_trans with a; [now apply Hle|now apply ltb_leb].
            -- apply leb_refl.
        + exists a. split; [reflexivity|]. split.
          * apply in_or_app. now left.
          * intros y Hy. apply in_app_or in Hy. destruct Hy as [Hy|[<-|[]]].
            -- now apply Hle.
            -- now apply not_ltb_leb.
      - apply truthy_false in Ht. subst a.
        exists x. split; [reflexivity|]. split.
        + apply in_or_app. right. now left.
        + intros y Hy. apply in_app_or in Hy. destruct Hy as [Hy|[<-|[]]].
          * apply leb_trans with ""; [now apply Hle|apply leb_empty].
          * apply leb_refl. }
    destruct Hstep as (a' & -> & Hmax).
    destruct (IH a' _ Hmax) as (r & Hr & Hrmax).
    exists r. split; [exact Hr|]. now rewrite <- app_assoc in Hrmax.
Qed.

Lemma earlier_min (xs : list string) :
  forall a seen,
    is_min a seen -> a <> "" -> Forall (fun x => x <> "") xs ->
    exists r, fold_left earlier xs (Some a) = Some r
              /\ is_min r (seen ++ xs)%list.
Proof.
  induction xs as [|x xs IH]; intros a seen [Hin Hle] Ha Hxs.
  - exists a. rewrite app_nil_r. now repeat split.
  - cbn [fold_left]. inversion Hxs as [|? ? Hx Hrest]; subst.
    assert (Hstep : exists a', earlier (Some a) x = Some a' /\ a' <> ""
                               /\ is_min a' (seen ++ [x])%list).
    { unfold earlier. cbn [HavenArchiveBuilder.unset HavenArchiveBuilder.current].
      destruct (truthy a) eqn:Ht; [|now apply truthy_false in Ht].
      cbn [negb orb]. destruct (String.ltb x a) eqn:Hlt.
      - exists x. split; [reflexivity|]. split; [exact Hx|]. split.
        + apply in_or_app. right. now left.
        + intros y Hy. apply in_app_or in Hy. destruct Hy as [Hy|[<-|[]]].
          * apply leb_trans with a; [now apply ltb_leb|now apply Hle].
          * apply leb_refl.
      - exists a. split; [reflexivity|]. split; [exact Ha|]. split.
        + apply in_or_app. now left.
        + intros y Hy. apply in_app_or in Hy. destruct Hy as [Hy|[<-|[]]].
          * now apply Hle.
          * now apply not_ltb_leb. }
    destruct Hstep as (a' & -> & Ha' & Hmin).
    destruct (IH a' _ Hmin Ha' Hrest) as (r & Hr & Hrmin).
    exists r. split; [exact Hr|]. now rewrite <- app_assoc in Hrmin.
Qed.

Lemma is_max_singleton (x : string) : is_max x [x].
Proof. split; [now left|]. intros y [<-|[]]. apply leb_refl. Qed.

Lemma is_min_singleton (x : string) : is_min x [x].
Proof. split; [now left|]. intros y [<-|[]]. apply leb_refl. Qed.

Lemma later_max_all (xs : list string) :
  xs <> [] -> exists r, fold_left later xs None = Some r /\ is_max r xs.
Proof.
  destruct xs as [|x xs]; [congruence|]. intros _. cbn [fold_left].
  exact (later_max xs (is_max_singleton x)).
Qed.

Lemma earlier_min_all (xs : list string) :
  xs <> [] -> Forall (fun x => x <> "") xs ->
  exists r, fold_left earlier xs None = Some r /\ is_min r xs.
Proof.
  destruct xs as [|x xs]; [congruence|]. intros _ Hall. cbn [fold_left].
  inversion Hall; subst.
  now apply (earlier_min (is_min_singleton x)).
Qed.

(** What [!this.earliestDate] makes of an empty date: an empty [from]
    is taken whatever is kept, and the next [from] replaces it. *)
Lemma earlier_empty (acc : option string) : earlier acc "" = Some "".
Proof.
  unfold earlier. destruct acc as [[|c a]|]; reflexivity.
Qed.

Lemma earlier_after_empty (x : string) : earlier (Some "") x = Some x.
Proof. reflexivity. Qed.

Lemma earlier_last (xs : list string) (y : string) (acc : option string) :
  exists r,
    fold_left earlier (xs ++ [y]) acc = Some r /\ (y = "" <-> r = "").
Proof.
  rewrite fold_left_app. cbn [fold_left].
  generalize (fold_left earlier xs acc). intros kept. unfold earlier.
  destruct (HavenArchiveBuilder.unset kept || String.ltb y _) eqn:E.
  - exists y. now split.
  - apply orb_false_iff in E. destruct E as [Hset Hlt].
    destruct kept as [a|]; [|discriminate Hset].
    cbn in Hset, Hlt. apply negb_false_iff in Hset.
    exists a. split; [reflexivity|]. split.
    + intros ->. destruct a; [reflexivity|discriminate Hlt].
    + intros ->. discriminate Hset.
Qed.

Lemma earlier_returns (xs : list string) :
  xs <> [] -> exists r, fold_left earlier xs None = Some r.
Proof.
  intros Hne. destruct (exists_last Hne) as (xs' & y & ->).
  destruct (earlier_last xs' y None) as (r & Hr & _). now exists r.
Qed.

Lemma leb_empty_inv (s : string) : String.leb s "" = true -> s = "".
Proof. now destruct s. Qed.

(** The date that the builder keeps is the least of the [from] dates
    exactly when none of them is empty or the last one is. *)
Lemma earlier_min_iff (xs : list string) (r : string) :
  xs <> [] -> fold_left earlier xs None = Some r ->
  is_min r xs
  <-> Forall (fun d => d <> "") xs \/ last xs "" = "".
Proof.
  intros Hne Hr.
  destruct (exists_last Hne) as (xs' & y & E).
  destruct (earlier_last xs' y None) as (r' & Hr' & Hy).
  rewrite <- E in Hr'. rewrite Hr in Hr'. injection Hr' as <-.
  assert (Hlast : last xs "" = y) by (rewrite E; apply last_last).
  assert (Hin : In y xs) by (rewrite E; apply in_or_app; right; now left).
  rewrite Hlast. clear Hlast E. split.
  - intros [_ Hle].
    destruct (Forall_Exists_dec (fun d : string => d <> "")
                (fun d => match string_dec d "" with
                          | left e => right (fun H => H e)
                          | right n => left n
                          end) xs) as [Hall|Hex]; [now left|].
    right. apply Hy. apply leb_empty_inv. apply Hle.
    apply Exists_exists in Hex. destruct Hex as (d & Hd & Hnot).
    destruct (string_dec d "") as [->|Hd']; [exact Hd|contradiction].
  - intros [Hall|Hempty].
    + destruct (earlier_min_all Hne Hall) as (r' & Hr' & Hmin).
      rewrite Hr in Hr'. now injection Hr' as <-.
    + pose proof (proj1 Hy Hempty) as Hr0. subst r y.
      split; [exact Hin|]. intros x _. apply leb_empty.
Qed.

Section Counters.
Context {S : Sodium} {J : JsonText}.

Lemma built_manifest_counters (now : nat -> string)
  (b : HavenArchiveBuilder.t) (signingKey : option bytes)
  (m : HavenManifest) :
  HavenArchiveBuilder.manifest now b signingKey = Return m ->
  message_count m = HavenArchiveBuilder.messageCount b
  /\ from (date_range m)
     = match HavenArchiveBuilder.earliestDate b with
       | Some d => d | None => now 1%nat end
  /\ to (date_range m)
     = match HavenArchiveBuilder.latestDate b with
       | Some d => d | None => now 2%nat end.
Proof.
  unfold HavenArchiveBuilder.manifest. intros H.
  destruct signingKey as [key|].
  - destruct (signManifest _ key) as [sig|e]; [|discriminate H].
    injection H as <-. now cbn.
  - injection H as <-. now cbn.
Qed.

Lemma manifest_of_calls (metadata : ArchiveMetadata.t)
  (cs : list BuilderCall) (now : nat -> string)
  (signingKey : option bytes) (m : HavenManifest) :
  HavenArchiveBuilder.manifest now (calls metadata cs) signingKey
  = Return m ->
  message_count m = sum (map HavenChannelExport.message_count (added cs))
  /\ (added cs = [] ->
      from (date_range m) = now 1%nat /\ to (date_range m) = now 2%nat)
  /\ (added cs <> [] ->
      is_max (to (date_range m)) (map to_of (added cs))
      /\ (is_min (from (date_range m)) (map from_of (added cs))
          <-> Forall (fun d => d <> "") (map from_of (added cs))
              \/ last (map from_of (added cs)) "" = ""))
  /\ (forall before c1 c2,
        added cs = (before ++ [c1; c2])%list -> from_of c1 = "" ->
        from (date_range m) = from_of c2).
Proof.
  intros Hm. apply built_manifest_counters in Hm.
  destruct Hm as (Hcount & Hfrom & Hto).
  destruct (calls_counters cs (HavenArchiveBuilder.new metadata))
    as (Hc & He & Hl).
  fold (calls metadata cs) in Hc, He, Hl. cbn in Hc, He, Hl.
  rewrite Hcount, Hfrom, Hto, Hc, He, Hl.
  split; [reflexivity|]. split; [|split].
  - intros ->. now split.
  - intros Hne.
    assert (Hne' : forall (f : HavenChannelExport.t -> string),
              map f (added cs) <> []).
    { intros f E. apply map_eq_nil in E. contradiction. }
    destruct (later_max_all (Hne' to_of)) as (r & -> & Hr).
    split; [exact Hr|].
    destruct (earlier_returns (Hne' from_of)) as (r' & Hr').
    rewrite Hr'. now apply earlier_min_iff.
  - intros before c1 c2 E Hc1. rewrite E, map_app. cbn [map].
    rewrite fold_left_app. cbn [fold_left].
    now rewrite Hc1, earlier_empty, earlier_after_empty.
Qed.

(** C9, the code on every sequence of calls, the failing ones
    included.  The manifest that [build] emits has for [message_count]
    the sum of the counts of the channel exports added; without any, both
    dates are the time of the build; with one or more, [date_range.to]
    is the greatest of their [date_range.to], while [date_range.from] is
    the least of their [date_range.from] only when none of these is
    empty or the last is: [!this.earliestDate] holds of the empty string
    as of [null], so after an export with an empty [from] the manifest
    has the [from] of the next one, whatever came before. *)
Theorem manifest_counts_and_dates (metadata : ArchiveMetadata.t)
  (cs : list BuilderCall) (now : nat -> string)
  (signingKey : option bytes) (m : HavenManifest) :
  HavenArchiveBuilder.manifest now (calls metadata cs) signingKey
  = Return m ->
  message_count m = sum (map HavenChannelExport.message_count (added cs))
  /\ (added cs = [] ->
      from (date_range m) = now 1%nat /\ to (date_range m) = now 2%nat)
  /\ (added cs <> [] ->
      is_max (to (date_range m)) (map to_of (added cs))
      /\ (is_min (from (date_range m)) (map from_of (added cs))
          <-> Forall (fun d => d <> "") (map from_of (added cs))
              \/ last (map from_of (added cs)) "" = ""))
  /\ (forall before c1 c2,
        added cs = (before ++ [c1; c2])%list -> from_of c1 = "" ->
        from (date_range m) = from_of c2).
Proof. apply manifest_of_calls. Qed.

(** Two channel exports with one file name, added to a new builder: the
    archive holds the file of the second one only, and the manifest counts
    the messages and the dates of both, but for the [from] of the first
    when it is empty and that of the second is not. *)
Lemma two_channels_one_file (metadata : ArchiveMetadata.t)
  (c1 c2 : HavenChannelExport.t) (now : nat -> string)
  (signingKey : option bytes) (m : HavenManifest) :
  HavenArchiveBuilder.channel_key c1 = HavenArchiveBuilder.channel_key c2 ->
  JSON_parse_channel (JSON_stringify_channel c2) = Return c2 ->
  HavenArchiveBuilder.manifest now
    (calls metadata [AddChannel c1; AddChannel c2]) signingKey = Return m ->
  let b := calls metadata [AddChannel c1; AddChannel c2] in
  let present :=
    HavenArchiveReader.getChannelExports
      {| HavenArchiveReader.files :=
           js_set "manifest.json"
             (TextEncoder_encode (JSON_stringify_manifest m))
             (HavenArchiveBuilder.collect b);
         HavenArchiveReader.manifest := m |} in
  HavenArchiveBuilder.collect b
  = [(HavenArchiveBuilder.channel_key c2,
      TextEncoder_encode (JSON_stringify_channel c2))]
  /\ present = [c2]
  /\ message_count m
     = (HavenChannelExport.message_count c1
        + HavenChannelExport.message_count c2)%Z
  /\ is_max (to (date_range m)) [to_of c1; to_of c2]
  /\ (is_min (from (date_range m)) [from_of c1; from_of c2]
      <-> from_of c1 <> "" \/ from_of c2 = "")
  /\ (from_of c1 = "" -> from (date_range m) = from_of c2)
  /\ ((0 < HavenChannelExport.message_count c1)%Z ->
      (sum (map HavenChannelExport.message_count present)
       < message_count m)%Z).
Proof.
  intros Hkey Hparse Hm. cbv zeta.
  destruct (manifest_of_calls _ _ _ _ Hm) as (Hcount & _ & Hdates & Hreset).
  cbn [added flat_map app map] in Hcount, Hdates, Hreset.
  destruct Hdates as [Hmax Hmin]; [discriminate|].
  assert (Hcollect :
    HavenArchiveBuilder.collect (calls metadata [AddChannel c1; AddChannel c2])
    = [(HavenArchiveBuilder.channel_key c2,
        TextEncoder_encode (JSON_stringify_channel c2))]).
  { unfold HavenArchiveBuilder.collect. cbn. rewrite Hkey.
    now rewrite String.eqb_refl. }
  assert (Hpresent :
    HavenArchiveReader.getChannelExports
      {| HavenArchiveReader.files :=
           js_set "manifest.json"
             (TextEncoder_encode (JSON_stringify_manifest m))
             (HavenArchiveBuilder.collect
                (calls metadata [AddChannel c1; AddChannel c2]));
         HavenArchiveReader.manifest := m |} = [c2]).
  { rewrite Hcollect. unfold HavenArchiveReader.getChannelExports.
    cbn [HavenArchiveReader.files Object_entries].
    rewrite js_set_new.
    - cbn [app flat_map fst snd].
      rewrite (channel_key_is_channel_file c2), decode_encode, Hparse.
      reflexivity.
    - cbn. intros [H|[]]. now apply (channel_key_not_manifest c2). }
  rewrite Hpresent. split; [exact Hcollect|]. split; [reflexivity|].
  unfold sum in *. cbn [map fold_right] in *.
  split; [lia|]. split; [exact Hmax|]. split; [|split; [|lia]].
  - rewrite Hmin. cbn [last]. split.
    + intros [Hall|Hlast]; [left|now right].
      now inversion Hall.
    + intros [H1|H2]; [|now right].
      destruct (string_dec (from_of c2) "") as [E|E]; [now right|left].
      now repeat constructor.
  - intros H1. exact (Hreset [] c1 c2 eq_refl H1).
Qed.

Lemma call_channels (b : HavenArchiveBuilder.t) (c : BuilderCall) :
  HavenArchiveBuilder.channels (call b c)
  = match c with
    | AddChannel e =>
        js_set (HavenArchiveBuilder.channel_key e)
          (TextEncoder_encode (JSON_stringify_channel e))
          (HavenArchiveBuilder.channels b)
    | _ => HavenArchiveBuilder.channels b
    end.
Proof. now destruct c. Qed.

Lemma calls_snoc (metadata : ArchiveMetadata.t) (cs : list BuilderCall)
  (c : BuilderCall) :
  calls metadata (cs ++ [c]) = call (calls metadata cs) c.
Proof. unfold calls. now rewrite fold_left_app. Qed.

Lemma added_snoc (cs : list BuilderCall) (c : BuilderCall) :
  added (cs ++ [c])
  = (added cs ++ match c with AddChannel e => [e] | _ => [] end)%list.
Proof.
  unfold added. rewrite flat_map_app. cbn. now rewrite app_nil_r.
Qed.

(** The map of channels holds, under each file name, the export that was
    added last under that name. *)
Lemma channels_last_added (metadata : ArchiveMetadata.t)
  (cs : list BuilderCall) (k : string) :
  js_get k (HavenArchiveBuilder.channels (calls metadata cs))
  = option_map (fun e => TextEncoder_encode (JSON_stringify_channel e))
      (last_added k cs).
Proof.
  induction cs as [|c cs IH] using rev_ind; [reflexivity|].
  rewrite calls_snoc, call_channels. unfold last_added in *.
  rewrite added_snoc, fold_left_app.
  destruct c as [e| | |]; cbn [fold_left]; try exact IH.
  destruct (String.eqb_spec (HavenArchiveBuilder.channel_key e) k) as [->|Hne].
  - now rewrite js_get_set_same.
  - now rewrite js_get_set_other.
Qed.

Lemma channels_NoDup (metadata : ArchiveMetadata.t) (cs : list BuilderCall) :
  NoDup (Object_keys (HavenArchiveBuilder.channels (calls metadata cs))).
Proof.
  induction cs as [|c cs IH] using rev_ind; [constructor|].
  rewrite calls_snoc, call_channels.
  destruct c; try exact IH. now apply js_set_NoDup.
Qed.

(** C10, the code on every sequence of calls, the failing ones
    included.  The map of channels holds one file for each file name,
    that of the channel export added last under the name, while the
    manifest counts the messages and the dates of every export added: an
    export whose file name a later export has too has no file in the
    archive and is counted all the same.  With two such exports on a new
    builder, the archive holds the file of the second only, the count of
    the manifest exceeds the counts of the channel files of the archive
    by the count of the first, and the dates of the manifest are the
    greatest [to] and the least [from] of the two, but for one case: the
    [from] of the first is lost when it is empty and that of the second
    is not. *)
Theorem slug_collision (metadata : ArchiveMetadata.t) :
  (forall cs k,
      js_get k (HavenArchiveBuilder.channels (calls metadata cs))
      = option_map (fun e => TextEncoder_encode (JSON_stringify_channel e))
          (last_added k cs))
  /\ (forall cs,
        NoDup (Object_keys (HavenArchiveBuilder.channels (calls metadata cs))))
  /\ (forall cs now signingKey m,
        HavenArchiveBuilder.manifest now (calls metadata cs) signingKey
        = Return m ->
        message_count m
        = sum (map HavenChannelExport.message_count (added cs))
        /\ (added cs <> [] ->
            is_max (to (date_range m)) (map to_of (added cs))
            /\ (is_min (from (date_range m)) (map from_of (added cs))
                <-> Forall (fun d => d <> "") (map from_of (added cs))
                    \/ last (map from_of (added cs)) "" = "")))
  /\ (forall c1 c2 now signingKey m,
        HavenArchiveBuilder.channel_key c1 = HavenArchiveBuilder.channel_key c2 ->
        JSON_parse_channel (JSON_stringify_channel c2) = Return c2 ->
        HavenArchiveBuilder.manifest now
          (calls metadata [AddChannel c1; AddChannel c2]) signingKey
        = Return m ->
        let b := calls metadata [AddChannel c1; AddChannel c2] in
        let present :=
          HavenArchiveReader.getChannelExports
            {| HavenArchiveReader.files :=
                 js_set "manifest.json"
                   (TextEncoder_encode (JSON_stringify_manifest m))
                   (HavenArchiveBuilder.collect b);
               HavenArchiveReader.manifest := m |} in
        HavenArchiveBuilder.collect b
        = [(HavenArchiveBuilder.channel_key c2,
            TextEncoder_encode (JSON_stringify_channel c2))]
        /\ present = [c2]
        /\ message_count m
           = (HavenChannelExport.message_count c1
              + HavenChannelExport.message_count c2)%Z
        /\ is_max (to (date_range m)) [to_of c1; to_of c2]
        /\ (is_min (from (date_range m)) [from_of c1; from_of c2]
            <-> from_of c1 <> "" \/ from_of c2 = "")
        /\ (from_of c1 = "" -> from (date_range m) = from_of c2)
        /\ ((0 < HavenChannelExport.message_count c1)%Z ->
            (sum (map HavenChannelExport.message_count present)
             < message_count m)%Z)).
Proof.
  split; [intros cs k; apply channels_last_added|].
  split; [intros cs; apply channels_NoDup|].
  split.
  - intros cs now signingKey m Hm.
    destruct (manifest_of_calls _ _ _ _ Hm) as (Hcount & _ & Hdates & _).
    now split.
  - intros c1 c2 now signingKey m Hkey Hparse Hm.
    exact (@two_channels_one_file metadata c1 c2 now signingKey m
             Hkey Hparse Hm).
Qed.
End Counters.

(** The manifest written for [Model.history], three channels among
    other calls: 10 messages, from the first message of [random] to the
    last of [announcements]. *)
Lemma manifest_counts_and_dates_witness :
  let cs := Model.history in
  let m := Model.manifest_after Model.general cs in
  message_count m = 10%Z
  /\ to (date_range m) = "2025-12-24T18:00:00Z"
  /\ is_max (to (date_range m)) (map to_of (added cs))
  /\ from (date_range m) = "2025-01-10T09:00:00Z"
  /\ is_min (from (date_range m)) (map from_of (added cs)).
Proof.
  cbv zeta.
  destruct (@manifest_counts_and_dates Model.sodium
              (Model.json test_manifest Model.general) (Model.metadata "")
              Model.history Model.now None
              (Model.manifest_after Model.general Model.history) eq_refl)
    as (Hcount & _ & Hdates & _).
  destruct Hdates as [Hmax Hmin]; [discriminate|].
  split; [exact Hcount|]. split; [reflexivity|]. split; [exact Hmax|].
  split; [reflexivity|]. apply Hmin. left.
  repeat constructor; discriminate.
Defined.

(** The code where the least [from] is lost.  After [Model.undated], whose
    dates are empty, and [Model.general], the manifest has the [from] of
    [Model.general], which is not the least; in the other order it has
    the empty [from], which is. *)
Lemma empty_from_forgotten :
  let m := Model.manifest_after Model.general
             [AddChannel Model.undated; AddChannel Model.general] in
  let m' := Model.manifest_after Model.general
              [AddChannel Model.general; AddChannel Model.undated] in
  from (date_range m) = "2025-03-15T14:30:00Z"
  /\ is_min "" ["" ; "2025-03-15T14:30:00Z"]
  /\ ~ is_min (from (date_range m)) ["" ; "2025-03-15T14:30:00Z"]
  /\ message_count m = 2%Z
  /\ to (date_range m) = "2025-03-15T15:00:00Z"
  /\ from (date_range m') = "".
Proof.
  cbv zeta. split; [reflexivity|]. split; [|split].
  - split; [now left|]. intros x _. apply leb_empty.
  - intros [_ Hle]. specialize (Hle "" (or_introl eq_refl)).
    vm_compute in Hle. discriminate Hle.
  - repeat split; reflexivity.
Qed.

(** The channels [dev ops] and [dev/ops] are both written to
    [channels/dev_ops.json]: the archive holds the second, with 5
    messages, and the manifest counts 7, from the first message of
    [dev ops] to its last, which are earlier and later than those of
    [dev/ops]. *)
Lemma slug_collision_witness :
  let c1 := Model.dev_ops_old in
  let c2 := Model.dev_ops_2 in
  let J := Model.json test_manifest c2 in
  let cs := [AddChannel c1; AddChannel c2] in
  let m := Model.manifest_after c2 cs in
  let b := calls (J := J) (Model.metadata "") cs in
  let present :=
    HavenArchiveReader.getChannelExports (J := J)
      {| HavenArchiveReader.files :=
           js_set "manifest.json"
             (TextEncoder_encode (JSON_stringify_manifest (JsonText := J) m))
             (HavenArchiveBuilder.collect b);
         HavenArchiveReader.manifest := m |} in
  HavenArchiveBuilder.collect b
  = [("channels/dev_ops.json", TextEncoder_encode "dev/ops")]
  /\ present = [c2]
  /\ message_count m = 7%Z
  /\ sum (map HavenChannelExport.message_count present) = 5%Z
  /\ date_range m
     = {| from := "2024-11-01T00:00:00Z"; to := "2026-01-31T00:00:00Z" |}
  /\ is_min (from (date_range m)) [from_of c1; from_of c2]
  /\ is_max (to (date_range m)) [to_of c1; to_of c2].
Proof.
  cbv zeta.
  destruct (@slug_collision Model.sodium
              (Model.json test_manifest Model.dev_ops_2) (Model.metadata ""))
    as (_ & _ & _ & Htwo).
  destruct (Htwo Model.dev_ops_old Model.dev_ops_2 Model.now None
              (Model.manifest_after Model.dev_ops_2
                 [AddChannel Model.dev_ops_old; AddChannel Model.dev_ops_2])
              eq_refl eq_refl eq_refl)
    as (Hcollect & Hpresent & Hcount & Hmax & Hmin & _).
  split; [exact Hcollect|]. split; [exact Hpresent|].
  split; [exact Hcount|]. split; [rewrite Hpresent; reflexivity|].
  split; [reflexivity|]. split; [|exact Hmax].
  apply Hmin. left. discriminate.
Defined.

(** The code where the dates of the overwritten channel are lost.  With
    the dates of [dev ops] empty, the manifest has the dates of
    [dev/ops]: nothing of the dates of the channel without a file is
    left in it. *)
Lemma overwritten_from_lost :
  let c1 := Model.dev_ops_undated in
  let c2 := Model.dev_ops_2 in
  let cs := [AddChannel c1; AddChannel c2] in
  let m := Model.manifest_after c2 cs in
  HavenArchiveBuilder.collect
    (calls (J := Model.json test_manifest c2) (Model.metadata "") cs)
  = [("channels/dev_ops.json", TextEncoder_encode "dev/ops")]
  /\ message_count m = 7%Z
  /\ date_range m = HavenChannelExport.date_range c2
  /\ ~ is_min (from (date_range m)) [from_of c1; from_of c2].
Proof.
  cbv zeta. repeat split; try reflexivity.
  intros [_ Hle]. specialize (Hle "" (or_introl eq_refl)).
  vm_compute in Hle. discriminate Hle.
Qed.

(** ** Sender keys *)

Lemma to_N_byte_of_N (n : N) : (n < 256)%N -> Byte.to_N (byte_of_N n) = n.
Proof.
  intros Hn. unfold byte_of_N.
  destruct (Byte.of_N n) as [b|] eqn:E.
  - now apply Byte.to_of_N.
  - apply Byte.of_N_None_iff in E. lia.
Qed.

Lemma le_bytes_length (w : nat) (n : Z) : List.length (le_bytes w n) = w.
Proof.
  revert n. induction w as [|w IH]; intros n; cbn; [reflexivity|].
  now rewrite IH.
Qed.

Lemma read_le_bytes (w : nat) (n : Z) :
  read_le (le_bytes w n) = (n mod 256 ^ Z.of_nat w)%Z.
Proof.
  revert n. induction w as [|w IH]; intros n.
  - cbn. now rewrite Z.mod_1_r.
  - cbn [le_bytes read_le]. rewrite IH.
    assert (H256 : (0 <= n mod 256 < 256)%Z) by (apply Z.mod_pos_bound; lia).
    rewrite to_N_byte_of_N by lia.
    rewrite Z2N.id by lia.
    rewrite Nat2Z.inj_succ, Z.pow_succ_r by lia.
    rewrite Z.rem_mul_r by lia.
    reflexivity.
Qed.

Lemma read_u32_le (n : Z) : (0 <= n < 2 ^ 32)%Z -> read_le (u32_le n) = n.
Proof.
  intros Hn. unfold u32_le. rewrite read_le_bytes.
  apply Z.mod_small. exact Hn.
Qed.

Lemma firstn_exact (A : Type) (a b : list A) (n : nat) :
  List.length a = n -> firstn n (a ++ b) = a.
Proof.
  intros <-. rewrite firstn_app, Nat.sub_diag, firstn_all. cbn.
  apply app_nil_r.
Qed.

Lemma skipn_exact (A : Type) (a b : list A) (n : nat) :
  List.length a = n -> skipn n (a ++ b) = b.
Proof.
  intros <-. rewrite skipn_app, Nat.sub_diag, skipn_all. reflexivity.
Qed.

Lemma slice_middle (A : Type) (a b c : list A) (start stop : nat) :
  List.length a = start -> List.length b = (stop - start)%nat ->
  slice start stop (a ++ b ++ c) = b.
Proof.
  intros Ha Hb. unfold slice. rewrite (skipn_exact a _ Ha).
  now apply firstn_exact.
Qed.

(** C6.  The payload of a well-formed state is 52 bytes, the distribution
    id, the chain key and the chain index in little-endian order, and
    parsing it gives the state back; parsing fails with [SkdmTooShort]
    exactly on fewer than 52 bytes, and on 52 bytes or more it returns
    what it returns on the first 52. *)
Theorem skdm_payload_roundtrip (s : SenderKeyState) :
  well_formed s ->
  List.length (createSkdmPayload s) = 52%nat
  /\ slice 0 16 (createSkdmPayload s) = distributionId s
  /\ slice 16 48 (createSkdmPayload s) = chainKey s
  /\ slice 48 52 (createSkdmPayload s) = u32_le (chainIndex s)
  /\ parseSkdmPayload (createSkdmPayload s) = Return s
  /\ (forall data,
        parseSkdmPayload data = Throw SkdmTooShort
        <-> (List.length data < 52)%nat)
  /\ (forall data,
        (52 <= List.length data)%nat ->
        returns (parseSkdmPayload data) = true
        /\ parseSkdmPayload data = parseSkdmPayload (firstn 52 data)).
Proof.
  intros (Hd & Hk & Hi). unfold createSkdmPayload.
  assert (Hlen : List.length
            (distributionId s ++ chainKey s ++ u32_le (chainIndex s)) = 52%nat).
  { rewrite !length_app, Hd, Hk. unfold u32_le. now rewrite le_bytes_length. }
  assert (H1 : slice 0 16 (distributionId s ++ chainKey s ++ u32_le (chainIndex s))
               = distributionId s).
  { unfold slice. cbn [skipn]. now apply firstn_exact. }
  assert (H2 : slice 16 48 (distributionId s ++ chainKey s ++ u32_le (chainIndex s))
               = chainKey s).
  { now apply slice_middle. }
  assert (H3 : slice 48 52 (distributionId s ++ chainKey s ++ u32_le (chainIndex s))
               = u32_le (chainIndex s)).
  { rewrite app_assoc. rewrite <- (app_nil_r (u32_le (chainIndex s))) at 1.
    apply slice_middle.
    - now rewrite length_app, Hd, Hk.
    - unfold u32_le. now rewrite le_bytes_length. }
  repeat split; try assumption.
  - unfold parseSkdmPayload. rewrite Hlen. cbn [Nat.ltb Nat.leb SKDM_SIZE].
    rewrite H1, H2, H3, (read_u32_le Hi). now destruct s.
  - unfold parseSkdmPayload. destruct (Nat.ltb_spec (List.length data) SKDM_SIZE);
      [intros _; assumption|discriminate].
  - intros Hlt. unfold parseSkdmPayload.
    destruct (Nat.ltb_spec (List.length data) SKDM_SIZE) as [|Hge];
      [reflexivity|unfold SKDM_SIZE in Hge; lia].
  - unfold parseSkdmPayload.
    destruct (Nat.ltb_spec (List.length data) SKDM_SIZE) as [Hlt|];
      [unfold SKDM_SIZE in Hlt; lia|reflexivity].
  - unfold parseSkdmPayload.
    rewrite length_firstn, (Nat.min_l 52) by lia.
    destruct (Nat.ltb_spec (List.length data) SKDM_SIZE) as [Hlt|];
      [unfold SKDM_SIZE in Hlt; lia|].
    cbn [Nat.ltb Nat.leb SKDM_SIZE]. unfold slice.
    rewrite !skipn_firstn_comm, !firstn_firstn. reflexivity.
Qed.

Section Ratchet.
Context {S : Sodium}.

Lemma advance_times_succ (n : nat) (state : SenderKeyState) :
  advance_times (Datatypes.S n) state = snd (advance (advance_times n state)).
Proof.
  revert state. induction n as [|n IH]; intros state; [reflexivity|].
  cbn [advance_times] in *. now rewrite IH.
Qed.

Lemma advance_times_distributionId (n : nat) (state : SenderKeyState) :
  distributionId (advance_times n state) = distributionId state.
Proof.
  revert state. induction n as [|n IH]; intros state; [reflexivity|].
  cbn [advance_times]. now rewrite IH.
Qed.

Lemma advance_times_chainIndex (n : nat) (state : SenderKeyState) :
  chainIndex (advance_times n state) = (chainIndex state + Z.of_nat n)%Z.
Proof.
  revert state. induction n as [|n IH]; intros state.
  - cbn. lia.
  - cbn [advance_times]. rewrite IH. cbn. lia.
Qed.

(** The parts of a wire message. *)
Lemma wire_layout (type : byte) (d u n ct : bytes) :
  List.length d = 16%nat -> List.length u = 4%nat ->
  List.length n = 24%nat ->
  let wire := (type :: d ++ u ++ n ++ ct)%list in
  slice 1 17 wire = d /\ slice 17 21 wire = u
  /\ slice 21 45 wire = n /\ skipn HEADER_SIZE wire = ct.
Proof.
  intros Hd Hu Hn wire. unfold wire.
  change (type :: d ++ u ++ n ++ ct)%list
    with ([type] ++ d ++ u ++ n ++ ct)%list.
  repeat split.
  - now apply slice_middle.
  - rewrite (app_assoc [type] d). apply slice_middle; [|exact Hu].
    rewrite length_app, Hd. reflexivity.
  - rewrite (app_assoc [type] d), (app_assoc ([type] ++ d) u).
    apply slice_middle; [|exact Hn].
    rewrite !length_app, Hd, Hu. reflexivity.
  - rewrite (app_assoc [type] d), (app_assoc ([type] ++ d) u),
      (app_assoc (([type] ++ d) ++ u) n).
    apply skipn_exact. rewrite !length_app, Hd, Hu, Hn. reflexivity.
Qed.

Context {L : SecretboxLaws S}.

(** A receiver that is [K] steps behind the sender, with [K] at most
    [MAX_SKIP], decrypts the message and ends one step after it. *)
Lemma decrypt_behind (received : ReceivedSenderKey) (K : nat)
  (nonce plaintext : bytes) :
  well_formed received -> (Z.of_nat K <= MAX_SKIP)%Z ->
  (chainIndex received + Z.of_nat K < 2 ^ 32)%Z ->
  List.length nonce = 24%nat ->
  let wire :=
    fst (senderKeyEncrypt nonce (advance_times K received) plaintext) in
  skip_of wire received = Z.of_nat K
  /\ senderKeyDecrypt wire received
     = (Return plaintext, advance_times (Datatypes.S K) received).
Proof.
  intros (Hd & Hk & Hi) HK Hfit Hnonce. cbv zeta.
  unfold senderKeyEncrypt. cbv zeta. cbn [fst].
  rewrite advance_times_distributionId, advance_times_chainIndex.
  set (ct := crypto_secretbox_easy _ _ _).
  assert (Hu : List.length (u32_le (chainIndex received + Z.of_nat K)) = 4%nat)
    by apply le_bytes_length.
  destruct (wire_layout GROUP_MSG_TYPE _ _ _ ct Hd Hu Hnonce)
    as (W1 & W2 & W3 & W4).
  set (wire := (GROUP_MSG_TYPE :: _)%list) in *.
  assert (Hskip : skip_of wire received = Z.of_nat K).
  { unfold skip_of. rewrite W2, read_u32_le by lia. lia. }
  split; [exact Hskip|].
  unfold senderKeyDecrypt. unfold skip_of in Hskip.
  unfold wire at 1. cbn [Byte.eqb negb].
  change (Byte.eqb GROUP_MSG_TYPE GROUP_MSG_TYPE) with true.
  cbn [negb]. fold wire.
  rewrite W1, bytes_eqb_refl. cbn [negb]. rewrite Hskip, W3, W4.
  destruct (Z.ltb_spec (Z.of_nat K) 0); [lia|].
  destruct (Z.ltb_spec MAX_SKIP (Z.of_nat K)); [lia|].
  rewrite Nat2Z.id. unfold ct. cbn [advance fst snd].
  rewrite open_sealed. now rewrite advance_times_succ.
Qed.

(** C7.  A message encrypted on a sender state decrypts on a copy of
    the state taken before, to the plaintext; both states end one step
    after the index they started from. *)
Theorem encrypt_then_decrypt (sk : SenderKeyState) (msg nonce : bytes) :
  well_formed sk -> List.length nonce = 24%nat ->
  let received := cloneSenderKey sk in
  let sent := senderKeyEncrypt nonce sk msg in
  let got := senderKeyDecrypt (fst sent) received in
  fst got = Return msg
  /\ chainIndex (snd sent) = (chainIndex sk + 1)%Z
  /\ chainIndex (snd got) = (chainIndex sk + 1)%Z.
Proof.
  intros Hwf Hnonce. cbv zeta.
  assert (Hclone : cloneSenderKey sk = sk) by now destruct sk.
  rewrite Hclone.
  destruct (@decrypt_behind sk 0 nonce msg Hwf) as (_ & Hdec);
    [unfold MAX_SKIP; lia|destruct Hwf as (_ & _ & ?); lia|exact Hnonce|].
  cbn [advance_times] in Hdec. rewrite Hdec. cbn. repeat split.
Qed.

(** C8.  On a wire message whose type and distribution id are those of
    the receiver, [senderKeyDecrypt] fails with [AlreadyConsumed]
    exactly when the skip is negative and with [TooManySkipped] exactly
    when it exceeds 256; a message 256 steps ahead of the receiver
    decrypts, and leaves the receiver 257 steps on, one after the index
    of the message. *)
Theorem skip_limits :
  (forall wire received,
      header_matches wire received ->
      (fst (senderKeyDecrypt wire received) = Throw AlreadyConsumed
       <-> (skip_of wire received < 0)%Z)
      /\ (fst (senderKeyDecrypt wire received) = Throw TooManySkipped
          <-> (MAX_SKIP < skip_of wire received)%Z))
  /\ (forall received msg nonce,
        well_formed received ->
        (chainIndex received + MAX_SKIP < 2 ^ 32)%Z ->
        List.length nonce = 24%nat ->
        let ahead := Z.to_nat MAX_SKIP in
        let wire :=
          fst (senderKeyEncrypt nonce (advance_times ahead received) msg) in
        let got := senderKeyDecrypt wire received in
        skip_of wire received = MAX_SKIP
        /\ fst got = Return msg
        /\ snd got = advance_times (Datatypes.S ahead) received
        /\ chainIndex (snd got) = (read_le (slice 17 21 wire) + 1)%Z
        /\ chainIndex (snd got)
           = (chainIndex received + MAX_SKIP + 1)%Z).
Proof.
  split.
  - intros wire received [Htype Hdist].
    destruct wire as [|type rest]; [discriminate Htype|].
    injection Htype as ->.
    unfold senderKeyDecrypt, skip_of.
    change (Byte.eqb GROUP_MSG_TYPE GROUP_MSG_TYPE) with true.
    rewrite Hdist, bytes_eqb_refl. cbn [negb].
    set (skip := (read_le _ - chainIndex received)%Z).
    destruct (Z.ltb_spec skip 0) as [Hneg|Hpos]; cbn [fst].
    + split; (split; [intros H|intros H]);
        try reflexivity; try assumption; try discriminate H.
      unfold MAX_SKIP in *. lia.
    + destruct (Z.ltb_spec MAX_SKIP skip) as [Hbig|Hsmall]; cbn [fst].
      * split; (split; [intros H|intros H]);
          try reflexivity; try assumption; try discriminate H; lia.
      * destruct (crypto_secretbox_open_easy _ _ _); cbn [fst];
          (split; (split; [intros H|intros H]); try discriminate H; lia).
  - intros received msg nonce Hwf Hfit Hnonce. cbv zeta.
    assert (HK : Z.of_nat (Z.to_nat MAX_SKIP) = MAX_SKIP) by reflexivity.
    revert HK. generalize (Z.to_nat MAX_SKIP). intros K HK.
    destruct (@decrypt_behind received K nonce msg Hwf) as (Hskip & Hdec);
      [lia|lia|exact Hnonce|].
    rewrite Hdec. cbn [fst snd]. rewrite advance_times_chainIndex.
    unfold skip_of in *.
    split; [lia|]. split; [reflexivity|]. split; [reflexivity|]. lia.
Qed.
End Ratchet.

(** The model satisfies the law of the secretbox. *)
Lemma Model_secretbox_laws : SecretboxLaws Model.sodium.
Proof.
  split. intros message nonce key. cbn.
  rewrite app_assoc.
  rewrite (firstn_exact (key ++ nonce)%list message eq_refl).
  rewrite bytes_eqb_refl.
  now rewrite (skipn_exact (key ++ nonce)%list message eq_refl).
Qed.

Lemma Model_sender_key_well_formed : well_formed Model.sender_key.
Proof. repeat split; cbn; lia. Qed.

(** The payload of [Model.sender_key]. *)
Lemma skdm_payload_roundtrip_witness :
  List.length (createSkdmPayload Model.sender_key) = 52%nat
  /\ parseSkdmPayload (createSkdmPayload Model.sender_key)
     = Return Model.sender_key.
Proof.
  destruct (skdm_payload_roundtrip Model_sender_key_well_formed)
    as (Hlen & _ & _ & _ & Hparse & _).
  split; [exact Hlen|exact Hparse].
Defined.

(** A message encrypted on [Model.sender_key] and decrypted on its copy. *)
Lemma encrypt_then_decrypt_witness :
  let received := cloneSenderKey Model.sender_key in
  let sent :=
    senderKeyEncrypt (S := Model.sodium) Model.nonce Model.sender_key
      Model.hello in
  let got := senderKeyDecrypt (S := Model.sodium) (fst sent) received in
  fst got = Return Model.hello
  /\ chainIndex (snd sent) = 1%Z
  /\ chainIndex (snd got) = 1%Z.
Proof.
  exact (encrypt_then_decrypt (S := Model.sodium) (L := Model_secretbox_laws)
           Model.hello Model.nonce Model_sender_key_well_formed eq_refl).
Defined.

(** A message 256 steps ahead of a copy of [Model.sender_key]. *)
Lemma skip_limits_witness :
  let received := cloneSenderKey Model.sender_key in
  let ahead := Z.to_nat MAX_SKIP in
  let wire :=
    fst (senderKeyEncrypt (S := Model.sodium) Model.nonce
           (advance_times (S := Model.sodium) ahead received) Model.hello) in
  let got := senderKeyDecrypt (S := Model.sodium) wire received in
  skip_of wire received = 256%Z
  /\ fst got = Return Model.hello
  /\ chainIndex (snd got) = 257%Z.
Proof.
  cbv zeta.
  destruct (skip_limits (S := Model.sodium) (L := Model_secretbox_laws))
    as [_ Hahead].
  destruct (Hahead (cloneSenderKey Model.sender_key) Model.hello Model.nonce
              Model_sender_key_well_formed)
    as (Hskip & Hmsg & _ & _ & Hindex).
  - reflexivity.
  - reflexivity.
  - split; [exact Hskip|]. split; [exact Hmsg|exact Hindex].
Defined.

(** * Further properties *)

(** ** What [verify] reports *)

Section Verify.
Context {S : Sodium}.

Lemma check_file_push (r : HavenArchiveReader.t) (issues : list string)
  (entry : string * FileEntry) :
  HavenArchiveReader.check_file r issues entry
  = (issues ++ HavenArchiveReader.check_file r [] entry)%list.
Proof.
  unfold HavenArchiveReader.check_file, push.
  destruct (js_get _ _) as [data|]; [|reflexivity].
  destruct (String.eqb _ _), (Z.eqb _ _); cbn;
    rewrite ?app_nil_r, <- ?app_assoc; reflexivity.
Qed.

Lemma check_files_flat (r : HavenArchiveReader.t)
  (entries : list (string * FileEntry)) :
  forall issues,
    fold_left (HavenArchiveReader.check_file r) entries issues
    = (issues ++ flat_map (HavenArchiveReader.check_file r []) entries)%list.
Proof.
  induction entries as [|e entries IH]; intros issues; cbn.
  - now rewrite app_nil_r.
  - rewrite IH, (check_file_push r issues e). now rewrite <- app_assoc.
Qed.

Lemma check_file_ok (r : HavenArchiveReader.t) (entry : string * FileEntry) :
  HavenArchiveReader.check_file r [] entry = []
  <-> file_ok (HavenArchiveReader.files r) entry.
Proof.
  unfold HavenArchiveReader.check_file, file_ok, push.
  destruct (js_get _ _) as [data|].
  - destruct (String.eqb_spec (computeFileHash data) (sha256 (snd entry)))
      as [Hh|Hh];
      destruct (Z.eqb_spec (byteLength data) (size (snd entry))) as [Hs|Hs];
      cbn; split; intros H; try discriminate H; try reflexivity;
      try (now exists data).
    all: destruct H as (d & [= <-] & H1 & H2); contradiction.
  - cbn. split; [discriminate|]. intros (d & H & _). discriminate H.
Qed.

Lemma flat_map_nil_iff (A B : Type) (f : A -> list B) (l : list A) :
  flat_map f l = [] <-> forall a, In a l -> f a = [].
Proof.
  split; [|apply flat_map_nil].
  induction l as [|x l IH]; cbn; intros H a Ha; [destruct Ha|].
  apply app_eq_nil in H. destruct H as [Hx Hl].
  destruct Ha as [<-|Ha]; [exact Hx|now apply IH].
Qed.

(** The issues of [verify]: those of the files in the order of the
    manifest, then that of the signature. *)
Lemma verify_issues (r : HavenArchiveReader.t) (res : VerifyResult) :
  HavenArchiveReader.verify r = Return res ->
  valid res = (List.length (issues res) =? 0)%nat
  /\ exists tail,
       issues res
       = (flat_map (HavenArchiveReader.check_file r [])
            (manifest_files (HavenArchiveReader.manifest r)) ++ tail)%list
       /\ (tail = [] \/ tail = ["User signature verification failed"])
       /\ (tail = [] <-> signature_ok (HavenArchiveReader.manifest r)).
Proof.
  unfold HavenArchiveReader.verify, Object_entries, signature_ok.
  rewrite check_files_flat. cbn [app].
  set (base := flat_map _ _).
  destruct (user_signature (HavenArchiveReader.manifest r)) as [sig|].
  - destruct (truthy sig) eqn:Ht.
    + destruct (fromBase64 _) as [pk|e]; [|discriminate].
      cbn [bind]. intros [= <-]. cbn [valid issues]. split; [reflexivity|].
      destruct (verifyManifest _ sig pk) eqn:Hv.
      * exists []. rewrite app_nil_r.
        split; [reflexivity|]. split; [now left|].
        split; [|reflexivity]. intros _ s [= <-] _. now exists pk.
      * exists ["User signature verification failed"]. unfold push.
        split; [reflexivity|]. split; [now right|].
        split; [discriminate|].
        intros H. destruct (H sig eq_refl Ht) as (pk' & [= <-] & Hv').
        congruence.
    + cbn [bind]. intros [= <-]. cbn [valid issues]. split; [reflexivity|].
      exists []. rewrite app_nil_r.
      split; [reflexivity|]. split; [now left|].
      split; [|reflexivity]. intros _ s [= <-] Ht'. congruence.
  - cbn [bind]. intros [= <-]. cbn [valid issues]. split; [reflexivity|].
    exists []. rewrite app_nil_r.
    split; [reflexivity|]. split; [now left|].
    split; [|reflexivity]. intros _ s Hs. discriminate Hs.
Qed.

Lemma verify_valid_checks (r : HavenArchiveReader.t) :
  HavenArchiveReader.verify r = Return {| valid := true; issues := [] |}
  <-> (forall entry,
         In entry (manifest_files (HavenArchiveReader.manifest r)) ->
         file_ok (HavenArchiveReader.files r) entry)
      /\ signature_ok (HavenArchiveReader.manifest r).
Proof.
  split.
  - intros H. destruct (verify_issues r H) as (_ & tail & Hi & _ & Ht).
    cbn [issues] in Hi. symmetry in Hi. apply app_eq_nil in Hi.
    destruct Hi as [Hfiles Htail]. split.
    + intros entry Hin. apply check_file_ok.
      now apply (proj1 (flat_map_nil_iff _ _) Hfiles).
    + now apply Ht.
  - intros [Hfiles Hsig].
    unfold HavenArchiveReader.verify, Object_entries.
    rewrite check_files_flat. cbn [app].
    rewrite flat_map_nil
      by (intros entry Hin; now apply check_file_ok, Hfiles).
    unfold signature_ok in Hsig.
    destruct (user_signature (HavenArchiveReader.manifest r)) as [sig|];
      [|reflexivity].
    destruct (truthy sig) eqn:Ht; [|reflexivity].
    destruct (Hsig sig eq_refl Ht) as (pk & Hpk & Hv).
    rewrite Hpk. cbn [bind]. now rewrite Hv.
Qed.

Lemma valid_true_no_issue (r : HavenArchiveReader.t) (res : VerifyResult) :
  HavenArchiveReader.verify r = Return res -> valid res = true ->
  res = {| valid := true; issues := [] |}.
Proof.
  intros H Hv. destruct (verify_issues r H) as (Hval & _).
  destruct res as [v i]. cbn in *. subst v.
  destruct i; [reflexivity|discriminate Hval].
Qed.

Lemma valid_iff_ok (r : HavenArchiveReader.t) :
  (exists res, HavenArchiveReader.verify r = Return res /\ valid res = true)
  <-> (forall entry,
         In entry (manifest_files (HavenArchiveReader.manifest r)) ->
         file_ok (HavenArchiveReader.files r) entry)
      /\ signature_ok (HavenArchiveReader.manifest r).
Proof.
  rewrite <- verify_valid_checks. split.
  - intros (res & H & Hv). now rewrite <- (valid_true_no_issue r H Hv).
  - intros H. exists {| valid := true; issues := [] |}. now split.
Qed.

(** X1.  [verify] returns [valid] exactly when every file that the
    manifest lists is in the archive with the listed hash and size and
    the signature, if the manifest has one that is not empty, verifies
    under the identity key that the manifest names. *)
Theorem verify_valid_exactly (r : HavenArchiveReader.t) :
  (exists res, HavenArchiveReader.verify r = Return res /\ valid res = true)
  <-> (forall entry,
         In entry (manifest_files (HavenArchiveReader.manifest r)) ->
         file_ok (HavenArchiveReader.files r) entry)
      /\ signature_ok (HavenArchiveReader.manifest r).
Proof. apply valid_iff_ok. Qed.

(** X2.  A file that the manifest lists and the archive lacks is reported
    as [Missing file], and the archive is not valid. *)
Theorem verify_missing_file (r : HavenArchiveReader.t) (res : VerifyResult)
  (path : string) (expected : FileEntry) :
  HavenArchiveReader.verify r = Return res ->
  In (path, expected) (manifest_files (HavenArchiveReader.manifest r)) ->
  js_get path (HavenArchiveReader.files r) = None ->
  In ("Missing file: " ++ path) (issues res) /\ valid res = false.
Proof.
  intros H Hin Hget.
  destruct (verify_issues r H) as (Hval & tail & Hi & _).
  assert (Hissue : In ("Missing file: " ++ path) (issues res)).
  { rewrite Hi. apply in_or_app. left. apply in_flat_map.
    exists (path, expected). split; [exact Hin|].
    unfold HavenArchiveReader.check_file. cbn [fst]. rewrite Hget.
    now left. }
  split; [exact Hissue|]. rewrite Hval.
  destruct (issues res); [destruct Hissue|reflexivity].
Qed.

(** X3.  A listed file whose data do not have the listed hash, or the
    listed size, is reported with both values, and the archive is not
    valid. *)
Theorem verify_mismatch (r : HavenArchiveReader.t) (res : VerifyResult)
  (path : string) (expected : FileEntry) (data : bytes) :
  HavenArchiveReader.verify r = Return res ->
  In (path, expected) (manifest_files (HavenArchiveReader.manifest r)) ->
  js_get path (HavenArchiveReader.files r) = Some data ->
  (computeFileHash data <> sha256 expected ->
   In ("Hash mismatch for " ++ path ++ ": expected " ++ sha256 expected
       ++ ", got " ++ computeFileHash data) (issues res)
   /\ valid res = false)
  /\ (byteLength data <> size expected ->
      In ("Size mismatch for " ++ path ++ ": expected "
          ++ Number_toString (size expected) ++ ", got "
          ++ Number_toString (byteLength data)) (issues res)
      /\ valid res = false).
Proof.
  intros H Hin Hget.
  destruct (verify_issues r H) as (Hval & tail & Hi & _).
  assert (Hnot : forall x, In x (issues res) -> valid res = false).
  { intros x Hx. rewrite Hval. destruct (issues res); [destruct Hx|reflexivity]. }
  assert (Hsub : forall x,
            In x (HavenArchiveReader.check_file r [] (path, expected)) ->
            In x (issues res)).
  { intros x Hx. rewrite Hi. apply in_or_app. left. apply in_flat_map.
    now exists (path, expected). }
  unfold HavenArchiveReader.check_file in Hsub. cbn [fst snd] in Hsub.
  rewrite Hget in Hsub. unfold push in Hsub.
  split; intros Hne.
  - assert (Hx : In ("Hash mismatch for " ++ path ++ ": expected "
                     ++ sha256 expected ++ ", got " ++ computeFileHash data)
                   (issues res)).
    { apply Hsub.
      destruct (String.eqb_spec (computeFileHash data) (sha256 expected));
        [contradiction|].
      destruct (Z.eqb _ _); cbn; auto. }
    split; [exact Hx|exact (Hnot _ Hx)].
  - assert (Hx : In ("Size mismatch for " ++ path ++ ": expected "
                     ++ Number_toString (size expected) ++ ", got "
                     ++ Number_toString (byteLength data)) (issues res)).
    { apply Hsub.
      destruct (Z.eqb_spec (byteLength data) (size expected));
        [contradiction|].
      destruct (String.eqb _ _); cbn; auto. }
    split; [exact Hx|exact (Hnot _ Hx)].
Qed.

(** X4.  [verify] looks at the files that the manifest lists and at no
    other: two archives with the same manifest and the same data under
    the listed paths get the same result, whatever else they hold. *)
Theorem verify_listed_files_only (m : HavenManifest)
  (fs1 fs2 : list (string * bytes)) :
  (forall entry, In entry (manifest_files m) ->
     js_get (fst entry) fs1 = js_get (fst entry) fs2) ->
  HavenArchiveReader.verify
    {| HavenArchiveReader.files := fs1; HavenArchiveReader.manifest := m |}
  = HavenArchiveReader.verify
      {| HavenArchiveReader.files := fs2; HavenArchiveReader.manifest := m |}.
Proof.
  intros Hsame. unfold HavenArchiveReader.verify, Object_entries.
  rewrite !check_files_flat. cbn [app HavenArchiveReader.manifest].
  replace (flat_map
             (HavenArchiveReader.check_file
                {| HavenArchiveReader.files := fs1;
                   HavenArchiveReader.manifest := m |} []) (manifest_files m))
    with (flat_map
            (HavenArchiveReader.check_file
               {| HavenArchiveReader.files := fs2;
                  HavenArchiveReader.manifest := m |} []) (manifest_files m));
    [reflexivity|].
  apply flat_map_ext_in. intros entry Hin.
  unfold HavenArchiveReader.check_file. cbn [HavenArchiveReader.files].
  now rewrite (Hsame entry Hin).
Qed.
End Verify.

(** The archive of [Model.session] without its attachment: [verify]
    reports the file as missing. *)
Lemma verify_missing_file_witness :
  exists res,
    HavenArchiveReader.verify (S := Model.sodium)
      (Model.without_attachment Model.seed_key) = Return res
    /\ In "Missing file: attachments/att-001.bin" (issues res)
    /\ valid res = false.
Proof.
  exists {| valid := false;
            issues := ["Missing file: attachments/att-001.bin"] |}.
  split; [vm_compute; reflexivity|].
  apply (@verify_missing_file Model.sodium
           (Model.without_attachment Model.seed_key) _ Model.attachment
           {| sha256 := "6661"; size := 4 |}).
  - vm_compute. reflexivity.
  - vm_compute. repeat first [left; reflexivity | right].
  - vm_compute. reflexivity.
Defined.

(** The archive of [Model.session] with one byte in the place of the
    four of its attachment: [verify] reports the hash and the size. *)
Lemma verify_mismatch_witness :
  exists res,
    HavenArchiveReader.verify (S := Model.sodium)
      (Model.other_attachment Model.seed_key) = Return res
    /\ In "Hash mismatch for attachments/att-001.bin: expected 6661, got 00"
         (issues res)
    /\ In "Size mismatch for attachments/att-001.bin: expected 4, got 1"
         (issues res)
    /\ valid res = false.
Proof.
  exists {| valid := false;
            issues :=
              ["Hash mismatch for attachments/att-001.bin: expected 6661, got 00";
               "Size mismatch for attachments/att-001.bin: expected 4, got 1"] |}.
  split; [vm_compute; reflexivity|].
  destruct (@verify_mismatch Model.sodium
              (Model.other_attachment Model.seed_key)
              {| valid := false;
                 issues :=
                   ["Hash mismatch for attachments/att-001.bin: expected 6661, got 00";
                    "Size mismatch for attachments/att-001.bin: expected 4, got 1"] |}
              Model.attachment
              {| sha256 := "6661"; size := 4 |} [x00]) as [H1 H2].
  - vm_compute. reflexivity.
  - vm_compute. repeat first [left; reflexivity | right].
  - vm_compute. reflexivity.
  - destruct H1 as [Ha Hb]; [vm_compute; discriminate|].
    destruct H2 as [Hc _]; [vm_compute; discriminate|].
    vm_compute in Ha, Hc. vm_compute.
    split; [exact Ha|]. split; [exact Hc|reflexivity].
Defined.

(** The archive of [Model.session] verifies the same with a file more
    that its manifest does not list. *)
Lemma verify_listed_files_only_witness :
  HavenArchiveReader.verify (S := Model.sodium)
    {| HavenArchiveReader.files := Model.written_files Model.seed_key;
       HavenArchiveReader.manifest := Model.written_manifest Model.seed_key |}
  = HavenArchiveReader.verify (S := Model.sodium)
      {| HavenArchiveReader.files := Model.with_notes Model.seed_key;
         HavenArchiveReader.manifest := Model.written_manifest Model.seed_key |}.
Proof.
  apply (verify_listed_files_only (S := Model.sodium)).
  intros entry Hin. vm_compute in Hin.
  repeat (destruct Hin as [<-|Hin]; [vm_compute; reflexivity|]). destruct Hin.
Defined.

(** ** What the signature does not cover *)

Section Unsigned.
Context {S : Sodium}.

Lemma js_set_In (V : Type) (k : string) (v : V) (obj : list (string * V))
  (e : string * V) :
  NoDup (Object_keys obj) -> In e (js_set k v obj) ->
  e = (k, v) \/ (In e obj /\ fst e <> k).
Proof.
  induction obj as [|[k0 w] rest IH]; cbn; intros Hnd Hin.
  - destruct Hin as [<-|[]]. now left.
  - inversion Hnd as [|? ? Hk0 Hrest]; subst.
    destruct (String.eqb_spec k0 k) as [->|Hne].
    + destruct Hin as [<-|Hin]; [now left|]. right. split; [now right|].
      intros <-. apply Hk0. now apply in_map.
    + destruct Hin as [<-|Hin]; [right; split; [now left|exact Hne]|].
      destruct (IH Hrest Hin) as [->|[H1 H2]]; [now left|].
      right. split; [now right|exact H2].
Qed.

Lemma listed_js_set (path P : string) (e : FileEntry)
  (fs : list (string * FileEntry)) :
  listed path fs = true \/ P <> path ->
  listed P (js_set path e fs) = listed P fs.
Proof.
  intros H. unfold listed.
  apply eq_true_iff_eq. rewrite !existsb_exists.
  split; intros (x & Hx & E); apply String.eqb_eq in E; subst x.
  - apply js_set_keys_In in Hx. destruct Hx as [->|Hx].
    + destruct H as [H|H]; [|contradiction].
      unfold listed in H. apply existsb_exists in H.
      destruct H as (x & Hx & E). apply String.eqb_eq in E. subst x.
      exists path. split; [exact Hx|apply String.eqb_refl].
    + exists P. split; [exact Hx|apply String.eqb_refl].
  - exists P. split; [|apply String.eqb_refl].
    apply js_set_keys_In. now right.
Qed.

Lemma verifyManifest_canonical (m1 m2 : HavenManifest) (sig : string)
  (pk : bytes) :
  canonicalManifest m1 = canonicalManifest m2 ->
  verifyManifest m1 sig pk = verifyManifest m2 sig pk.
Proof. intros E. unfold verifyManifest. now rewrite E. Qed.

Lemma canonicalManifest_set_files (m : HavenManifest) (path : string)
  (e : FileEntry) :
  listed path (files m) = true \/ ~ In path manifest_keys ->
  canonicalManifest (set_files m (js_set path e (files m)))
  = canonicalManifest m.
Proof.
  intros H. symmetry. apply canonicalManifest_same.
  - repeat split.
  - intros P HP. cbn [files set_files]. symmetry. apply listed_js_set.
    destruct H as [H|H]; [now left|]. right. intros ->. apply H.
    now apply (top_keys_manifest_keys (m := m)).
Qed.

(** X5.  The signature can be taken out: an archive that verifies still
    does, with nothing to report, once [user_signature] is removed or
    set to the empty string, whatever is done to [server_signature]. *)
Theorem verify_without_signature (r : HavenArchiveReader.t)
  (user server : option string) :
  if_truthy user = None ->
  (exists res,
     HavenArchiveReader.verify r = Return res /\ valid res = true) ->
  HavenArchiveReader.verify
    {| HavenArchiveReader.files := HavenArchiveReader.files r;
       HavenArchiveReader.manifest :=
         set_signatures (HavenArchiveReader.manifest r) user server |}
  = Return {| valid := true; issues := [] |}.
Proof.
  intros Hu Hvalid. apply valid_iff_ok in Hvalid.
  destruct Hvalid as [Hfiles _].
  apply verify_valid_checks. split; [exact Hfiles|].
  intros sig Hsig Ht. cbn in Hsig. subst user.
  cbn in Hu. rewrite Ht in Hu. discriminate Hu.
Qed.

(** X6.  The signature does not protect the files: in an archive that
    verifies, signed or not, the data of a listed file can be replaced,
    the entry of the manifest being set to their hash and size, and the
    archive verifies as before with the signature it had.  A file can be
    added in the same way unless its path is the name of a manifest
    field. *)
Theorem verify_accepts_replaced_file (r : HavenArchiveReader.t)
  (path : string) (data : bytes) :
  NoDup (Object_keys (manifest_files (HavenArchiveReader.manifest r))) ->
  listed path (manifest_files (HavenArchiveReader.manifest r)) = true
  \/ ~ In path manifest_keys ->
  (exists res, HavenArchiveReader.verify r = Return res /\ valid res = true) ->
  HavenArchiveReader.verify (replace_file path data r)
  = Return {| valid := true; issues := [] |}.
Proof.
  intros Hnd Hpath Hvalid.
  apply valid_iff_ok in Hvalid.
  destruct Hvalid as [Hfiles Hsig].
  apply verify_valid_checks. split.
  - intros entry Hin. unfold replace_file in *.
    cbn [HavenArchiveReader.files HavenArchiveReader.manifest files set_files]
      in *.
    apply js_set_In in Hin; [|exact Hnd].
    destruct Hin as [->|[Hin Hne]].
    + exists data. cbn [fst snd]. rewrite js_get_set_same. now repeat split.
    + destruct (Hfiles entry Hin) as (d & Hd & Hh & Hs).
      exists d. rewrite js_get_set_other by congruence. now repeat split.
  - intros sig Hs Ht. unfold replace_file in *.
    cbn [HavenArchiveReader.manifest set_files user_signature exported_by]
      in *.
    destruct (Hsig sig Hs Ht) as (pk & Hpk & Hv).
    exists pk. split; [exact Hpk|].
    rewrite <- Hv. apply verifyManifest_canonical.
    now apply canonicalManifest_set_files.
Qed.
End Unsigned.

(** The archive of [Model.session], which verifies with its signature,
    verifies without it. *)
Lemma verify_without_signature_witness :
  HavenArchiveReader.verify (S := Model.sodium)
    {| HavenArchiveReader.files := Model.written_files Model.seed_key;
       HavenArchiveReader.manifest :=
         set_signatures (Model.written_manifest Model.seed_key) None None |}
  = Return {| valid := true; issues := [] |}.
Proof.
  apply (@verify_without_signature Model.sodium
           (Model.reader Model.seed_key) None None eq_refl).
  exists {| valid := true; issues := [] |}.
  split; [vm_compute; reflexivity|reflexivity].
Defined.

(** The signed archive of [Model.session] verifies with one byte in the
    place of its attachment, once the manifest lists that byte. *)
Lemma verify_accepts_replaced_file_witness :
  HavenArchiveReader.verify (S := Model.sodium)
    (replace_file (S := Model.sodium) Model.attachment [x00]
       (Model.reader Model.seed_key))
  = Return {| valid := true; issues := [] |}.
Proof.
  apply (verify_accepts_replaced_file (S := Model.sodium)).
  - vm_compute.
    repeat (apply NoDup_cons; [intros Hin; cbn in Hin; intuition discriminate|]).
    apply NoDup_nil.
  - left. vm_compute. reflexivity.
  - exists {| valid := true; issues := [] |}.
    split; [vm_compute; reflexivity|reflexivity].
Defined.

(** ** The files of an archive *)

Lemma prefix_head (a b : ascii) (s1 s2 : string) :
  prefix (String a s1) (String b s2) = true -> a = b.
Proof. cbn. now destruct (ascii_dec a b). Qed.

Lemma append_inv_tail (a b s : string) : a ++ s = b ++ s -> a = b.
Proof.
  revert b. induction a as [|c a IH]; intros [|d b] H; cbn in H.
  - reflexivity.
  - exfalso. apply (f_equal String.length) in H. cbn in H.
    rewrite append_length in H. lia.
  - exfalso. apply (f_equal String.length) in H. cbn in H.
    rewrite append_length in H. lia.
  - injection H as -> H. f_equal. now apply IH.
Qed.

Lemma js_get_app (V : Type) (k : string) (a b : list (string * V)) :
  js_get k (a ++ b)
  = match js_get k a with Some v => Some v | None => js_get k b end.
Proof.
  induction a as [|[k0 w] a IH]; cbn; [reflexivity|].
  destruct (String.eqb k0 k); [reflexivity|exact IH].
Qed.

Lemma js_get_none_by (V : Type) (P : string -> bool) (k : string)
  (obj : list (string * V)) :
  Forall (fun x => P x = true) (Object_keys obj) -> P k = false ->
  js_get k obj = None.
Proof.
  intros Hall Hk. apply js_get_keys. intros Hin.
  rewrite Forall_forall in Hall. rewrite (Hall k Hin) in Hk. discriminate Hk.
Qed.

(** A path under [attachments/] is not the path of a channel file. *)
Lemma attachment_not_channel (k : string) :
  startsWith k "attachments/" = true -> channel_path k = false.
Proof.
  unfold startsWith, channel_path. destruct k as [|c k]; [discriminate|].
  intros H. apply prefix_head in H. subst c. reflexivity.
Qed.

Lemma attachment_key_prefix (id : string) :
  startsWith ("attachments/" ++ id ++ ".bin") "attachments/" = true.
Proof. unfold startsWith. cbn. apply startsWith_empty. Qed.

Section Layout.
Context {S : Sodium} {J : JsonText}.

Lemma call_well_named (b : HavenArchiveBuilder.t) (c : BuilderCall) :
  well_named b -> well_named (call b c).
Proof.
  intros (Hc & Ha & Hpc & Hpa).
  destruct c as [e|id data|s|entries]; cbn; repeat split; cbn;
    try assumption.
  - now apply js_set_NoDup.
  - apply Forall_forall. intros k Hk. apply js_set_keys_In in Hk.
    destruct Hk as [->|Hk].
    + apply channel_key_is_channel_file.
    + rewrite Forall_forall in Hpc. now apply Hpc.
  - now apply js_set_NoDup.
  - apply Forall_forall. intros k Hk. apply js_set_keys_In in Hk.
    destruct Hk as [->|Hk].
    + apply attachment_key_prefix.
    + rewrite Forall_forall in Hpa. now apply Hpa.
Qed.

Lemma calls_well_named (metadata : ArchiveMetadata.t) (cs : list BuilderCall) :
  well_named (calls metadata cs).
Proof.
  unfold calls.
  assert (H0 : well_named (HavenArchiveBuilder.new metadata))
    by (repeat split; constructor).
  revert H0. generalize (HavenArchiveBuilder.new metadata).
  induction cs as [|c cs IH]; intros b Hb; cbn; [exact Hb|].
  apply IH. now apply call_well_named.
Qed.

(** The files that [build] collects: the channels, then the attachments,
    then [server.json], then [audit-log.json]. *)
Lemma collect_layout (b : HavenArchiveBuilder.t) :
  well_named b ->
  HavenArchiveBuilder.collect b
  = (HavenArchiveBuilder.channels b ++ HavenArchiveBuilder.attachments b
     ++ single "server.json" (HavenArchiveBuilder.serverMeta b)
     ++ single "audit-log.json" (HavenArchiveBuilder.auditLog b))%list.
Proof.
  intros (Hc & Ha & Hpc & Hpa). unfold HavenArchiveBuilder.collect.
  rewrite (assign_all_same _ Hc).
  assert (Hmid :
    HavenArchiveBuilder.assign_all (HavenArchiveBuilder.attachments b)
      (HavenArchiveBuilder.channels b)
    = (HavenArchiveBuilder.channels b
       ++ HavenArchiveBuilder.attachments b)%list).
  { unfold HavenArchiveBuilder.assign_all.
    rewrite (assign_fresh (fun v => v)).
    - f_equal. rewrite <- (map_id (HavenArchiveBuilder.attachments b)) at 2.
      apply map_ext. now intros [k v].
    - apply NoDup_app; try assumption. intros k Hk1 Hk2.
      rewrite Forall_forall in Hpc, Hpa.
      pose proof (attachment_not_channel k (Hpa k Hk2)) as Hn.
      rewrite (Hpc k Hk1) in Hn. discriminate Hn. }
  rewrite Hmid.
  set (base := (HavenArchiveBuilder.channels b
                ++ HavenArchiveBuilder.attachments b)%list).
  assert (Hfresh : forall k,
            channel_path k = false -> startsWith k "attachments/" = false ->
            ~ In k (Object_keys base)).
  { intros k H1 H2 Hin. unfold base, Object_keys in Hin.
    rewrite map_app in Hin. apply in_app_or in Hin.
    rewrite Forall_forall in Hpc, Hpa. destruct Hin as [Hin|Hin].
    - rewrite (Hpc k Hin) in H1. discriminate H1.
    - rewrite (Hpa k Hin) in H2. discriminate H2. }
  destruct (HavenArchiveBuilder.serverMeta b) as [sm|],
           (HavenArchiveBuilder.auditLog b) as [al|]; cbn [single].
  - rewrite (js_set_new _ sm _ (Hfresh "server.json" eq_refl eq_refl)).
    rewrite js_set_new.
    + subst base. now rewrite <- !app_assoc.
    + unfold Object_keys. rewrite map_app. intros Hin.
      apply in_app_or in Hin. destruct Hin as [Hin|[Hin|[]]].
      * now apply (Hfresh "audit-log.json" eq_refl eq_refl).
      * discriminate Hin.
  - rewrite (js_set_new _ sm _ (Hfresh "server.json" eq_refl eq_refl)).
    subst base. now rewrite <- !app_assoc.
  - rewrite (js_set_new _ al _ (Hfresh "audit-log.json" eq_refl eq_refl)).
    subst base. now rewrite <- !app_assoc.
  - subst base. now rewrite !app_nil_r.
Qed.

Lemma archive_files_layout (now : nat -> string) (b : HavenArchiveBuilder.t)
  (signingKey : option bytes) (zippable : list (string * bytes)) :
  well_named b ->
  HavenArchiveBuilder.archive_files now b signingKey = Return zippable ->
  exists m,
    HavenArchiveBuilder.manifest now b signingKey = Return m
    /\ zippable
       = (HavenArchiveBuilder.collect b
          ++ [("manifest.json",
               TextEncoder_encode (JSON_stringify_manifest m))])%list
    /\ NoDup (Object_keys zippable)
    /\ manifest_files m
       = map (fun pd => (fst pd, entry_of (snd pd)))
           (HavenArchiveBuilder.collect b).
Proof.
  intros Hwn H. unfold HavenArchiveBuilder.archive_files in H.
  destruct (HavenArchiveBuilder.manifest now b signingKey) as [m|e] eqn:Hm;
    [|discriminate H].
  cbn [bind] in H. injection H as <-. exists m.
  assert (Hnm : ~ In "manifest.json"
                  (Object_keys (HavenArchiveBuilder.collect b))).
  { rewrite (collect_layout Hwn). destruct Hwn as (_ & _ & Hpc & Hpa).
    unfold Object_keys. rewrite !map_app. intros Hin.
    rewrite Forall_forall in Hpc, Hpa.
    apply in_app_or in Hin. destruct Hin as [Hin|Hin];
      [specialize (Hpc _ Hin); discriminate Hpc|].
    apply in_app_or in Hin. destruct Hin as [Hin|Hin];
      [specialize (Hpa _ Hin); discriminate Hpa|].
    apply in_app_or in Hin.
    destruct Hin as [Hin|Hin];
      [destruct (HavenArchiveBuilder.serverMeta b)
      |destruct (HavenArchiveBuilder.auditLog b)];
      cbn in Hin; try tauto; destruct Hin as [Hin|[]]; discriminate Hin. }
  unfold Object_entries.
  rewrite assign_all_same by (apply js_set_NoDup, collect_NoDup).
  rewrite (js_set_new _ _ _ Hnm).
  split; [reflexivity|]. split; [reflexivity|]. split.
  - rewrite <- (js_set_new _ (TextEncoder_encode (JSON_stringify_manifest m)) _ Hnm).
    apply js_set_NoDup, collect_NoDup.
  - exact (built_manifest_files _ _ _ Hm).
Qed.
End Layout.

(** ** What a reader finds in an archive of the builder *)

Lemma attachment_key_inj (id1 id2 : string) :
  "attachments/" ++ id1 ++ ".bin" = "attachments/" ++ id2 ++ ".bin" ->
  id1 = id2.
Proof.
  intros H. apply append_inv_head in H. now apply append_inv_tail in H.
Qed.

Lemma replace_non_slug_idem (s : string) :
  replace_non_slug (replace_non_slug s) = replace_non_slug s.
Proof.
  induction s as [|c s IH]; cbn; [reflexivity|]. rewrite IH.
  now destruct (is_slug_unit c) eqn:E; [rewrite E|].
Qed.

Lemma last_added_key (k : string) (cs : list BuilderCall)
  (c : HavenChannelExport.t) :
  last_added k cs = Some c ->
  HavenArchiveBuilder.channel_key c = k /\ In c (added cs).
Proof.
  unfold last_added.
  induction (added cs) as [|e es IH] using rev_ind; [discriminate|].
  rewrite fold_left_app. cbn.
  destruct (String.eqb_spec (HavenArchiveBuilder.channel_key e) k) as [<-|Hne].
  - intros [= <-]. split; [reflexivity|]. apply in_or_app. right. now left.
  - intros H. destruct (IH H) as [H1 H2]. split; [exact H1|].
    apply in_or_app. now left.
Qed.

(** The file name of a channel export holds the name of the channel with
    every unit outside [a-zA-Z0-9_-] replaced. *)
Lemma channel_key_name (c : HavenChannelExport.t) (prefix name : string) :
  (prefix = "channels/" \/ prefix = "dms/") ->
  HavenArchiveBuilder.channel_key c = prefix ++ name ++ ".json" ->
  replace_non_slug name = name.
Proof.
  unfold HavenArchiveBuilder.channel_key, HavenArchiveBuilder.channel_dir.
  intros Hp H.
  destruct (String.eqb _ "dm" || String.eqb _ "group_dm");
    destruct Hp as [-> | ->]; cbn in H; try discriminate H.
  - injection H as H. apply append_inv_tail in H. rewrite <- H.
    apply replace_non_slug_idem.
  - injection H as H. apply append_inv_tail in H. rewrite <- H.
    apply replace_non_slug_idem.
Qed.

Section Opened.
Context {S : Sodium} {J : JsonText} {F : Fflate}.

Lemma call_attachments (b : HavenArchiveBuilder.t) (c : BuilderCall) :
  HavenArchiveBuilder.attachments (call b c)
  = match c with
    | AddAttachment id data =>
        js_set ("attachments/" ++ id ++ ".bin") data
          (HavenArchiveBuilder.attachments b)
    | _ => HavenArchiveBuilder.attachments b
    end.
Proof. now destruct c. Qed.

Lemma attachments_last (metadata : ArchiveMetadata.t)
  (cs : list BuilderCall) (id : string) :
  js_get ("attachments/" ++ id ++ ".bin")
    (HavenArchiveBuilder.attachments (calls metadata cs))
  = last_attachment id cs.
Proof.
  induction cs as [|c cs IH] using rev_ind; [reflexivity|].
  rewrite calls_snoc, call_attachments. unfold last_attachment in *.
  rewrite fold_left_app.
  destruct c as [|id' data| |]; cbn [fold_left]; try exact IH.
  destruct (String.eqb_spec id' id) as [->|Hne].
  - now rewrite js_get_set_same.
  - rewrite js_get_set_other; [exact IH|].
    intros H. now apply attachment_key_inj in H.
Qed.

Lemma serverMeta_last (metadata : ArchiveMetadata.t) (cs : list BuilderCall) :
  HavenArchiveBuilder.serverMeta (calls metadata cs)
  = option_map (fun s => TextEncoder_encode (JSON_stringify_server s))
      (last_server cs).
Proof.
  induction cs as [|c cs IH] using rev_ind; [reflexivity|].
  rewrite calls_snoc. unfold last_server in *. rewrite fold_left_app.
  now destruct c.
Qed.

Lemma auditLog_last (metadata : ArchiveMetadata.t) (cs : list BuilderCall) :
  HavenArchiveBuilder.auditLog (calls metadata cs)
  = option_map (fun e => TextEncoder_encode (JSON_stringify_entries e))
      (last_audit cs).
Proof.
  induction cs as [|c cs IH] using rev_ind; [reflexivity|].
  rewrite calls_snoc. unfold last_audit in *. rewrite fold_left_app.
  now destruct c.
Qed.

(** The files and the manifest of a reader of an archive of the builder. *)
Lemma opened_reader (now : nat -> string) (metadata : ArchiveMetadata.t)
  (cs : list BuilderCall) (signingKey : option bytes)
  (reader : HavenArchiveReader.t) :
  opened now metadata cs signingKey reader ->
  let b := calls metadata cs in
  HavenArchiveBuilder.manifest now b signingKey
  = Return (HavenArchiveReader.manifest reader)
  /\ HavenArchiveReader.files reader
     = (HavenArchiveBuilder.channels b ++ HavenArchiveBuilder.attachments b
        ++ single "server.json" (HavenArchiveBuilder.serverMeta b)
        ++ single "audit-log.json" (HavenArchiveBuilder.auditLog b)
        ++ [("manifest.json",
             TextEncoder_encode
               (JSON_stringify_manifest
                  (HavenArchiveReader.manifest reader)))])%list
  /\ NoDup (Object_keys (HavenArchiveReader.files reader))
  /\ manifest_files (HavenArchiveReader.manifest reader)
     = map (fun pd => (fst pd, entry_of (snd pd)))
         (HavenArchiveBuilder.collect b).
Proof.
  intros (zip & zippable & m & _ & Hfiles & Hm & Hzip & Hjson & Hopen) b.
  pose proof (calls_well_named metadata cs) as Hwn. fold b in Hwn, Hfiles, Hm.
  destruct (archive_files_layout _ _ Hwn Hfiles)
    as (m' & Hm' & Hz & Hnd & Hlisted).
  rewrite Hm in Hm'. injection Hm' as <-.
  unfold HavenArchiveReader.fromBlob in Hopen. rewrite Hzip in Hopen.
  cbn [bind] in Hopen.
  assert (Hget : js_get "manifest.json" zippable
                 = Some (TextEncoder_encode (JSON_stringify_manifest m))).
  { apply js_get_In; [exact Hnd|]. rewrite Hz. apply in_or_app. right.
    now left. }
  rewrite Hget, decode_encode, Hjson in Hopen. cbn [bind] in Hopen.
  injection Hopen as <-. cbn.
  repeat split; try assumption.
  rewrite Hz, (collect_layout Hwn). now rewrite <- !app_assoc.
Qed.

(** A name under [channels/] or [dms/] is looked up in the channels of
    the builder, and no other name is. *)
Lemma opened_lookup (now : nat -> string) (metadata : ArchiveMetadata.t)
  (cs : list BuilderCall) (signingKey : option bytes)
  (reader : HavenArchiveReader.t) (k : string) :
  opened now metadata cs signingKey reader ->
  js_get k (HavenArchiveReader.files reader)
  = match js_get k (HavenArchiveBuilder.channels (calls metadata cs)) with
    | Some d => Some d
    | None =>
        match js_get k (HavenArchiveBuilder.attachments (calls metadata cs)) with
        | Some d => Some d
        | None =>
            js_get k
              (single "server.json"
                 (HavenArchiveBuilder.serverMeta (calls metadata cs))
               ++ single "audit-log.json"
                    (HavenArchiveBuilder.auditLog (calls metadata cs))
               ++ [("manifest.json",
                    TextEncoder_encode
                      (JSON_stringify_manifest
                         (HavenArchiveReader.manifest reader)))])%list
        end
    end.
Proof.
  intros H. destruct (opened_reader H) as (_ & -> & _ & _).
  now rewrite !js_get_app.
Qed.
End Opened.

Lemma js_get_map (V W : Type) (f : V -> W) (k : string)
  (obj : list (string * V)) :
  js_get k (map (fun pd => (fst pd, f (snd pd))) obj)
  = option_map f (js_get k obj).
Proof.
  induction obj as [|[k0 v] obj IH]; cbn; [reflexivity|].
  destruct (String.eqb k0 k); [reflexivity|exact IH].
Qed.

Lemma js_get_Some_In (V : Type) (k : string) (v : V)
  (obj : list (string * V)) :
  js_get k obj = Some v -> In (k, v) obj.
Proof.
  induction obj as [|[k0 w] obj IH]; cbn; [discriminate|].
  destruct (String.eqb_spec k0 k) as [->|Hne].
  - intros [= ->]. now left.
  - intros H. right. now apply IH.
Qed.

Lemma js_get_single_other (k path : string) (data : option bytes) :
  path <> k -> js_get k (single path data) = None.
Proof.
  intros Hne. destruct data as [d|]; cbn; [|reflexivity].
  now destruct (String.eqb_spec path k).
Qed.

Section Accessors.
Context {S : Sodium} {J : JsonText} {F : Fflate}.

Variable now : nat -> string.
Variable metadata : ArchiveMetadata.t.
Variable cs : list BuilderCall.
Variable signingKey : option bytes.
Variable reader : HavenArchiveReader.t.

(** X7.  The archive that [build] writes holds the files of the map of
    channels of the builder, then those of its map of attachments, then
    [server.json] and [audit-log.json] when they were added, then
    [manifest.json], each map in its own order, and no name twice. *)
Theorem archive_layout :
  opened now metadata cs signingKey reader ->
  let b := calls metadata cs in
  HavenArchiveReader.files reader
  = (HavenArchiveBuilder.channels b ++ HavenArchiveBuilder.attachments b
     ++ single "server.json" (HavenArchiveBuilder.serverMeta b)
     ++ single "audit-log.json" (HavenArchiveBuilder.auditLog b)
     ++ [("manifest.json",
          TextEncoder_encode
            (JSON_stringify_manifest (HavenArchiveReader.manifest reader)))])%list
  /\ NoDup (Object_keys (HavenArchiveReader.files reader)).
Proof.
  intros H b. destruct (opened_reader H) as (_ & H1 & H2 & _). now split.
Qed.

(** X8.  The manifest of an archive lists every file of the archive but
    [manifest.json], each with the hash and the size of its data, and
    lists nothing else. *)
Theorem manifest_lists_other_files (path : string) :
  opened now metadata cs signingKey reader ->
  js_get path (manifest_files (HavenArchiveReader.manifest reader))
  = if String.eqb path "manifest.json" then None
    else option_map entry_of (js_get path (HavenArchiveReader.files reader)).
Proof.
  intros H. destruct (opened_reader H) as (_ & Hf & _ & ->).
  pose proof (calls_well_named metadata cs) as Hwn.
  rewrite Hf, js_get_map, (collect_layout Hwn). clear Hf.
  pose proof (collect_no_manifest (calls_no_manifest_key metadata cs)) as Hnm.
  rewrite (collect_layout Hwn) in Hnm. apply js_get_keys in Hnm.
  destruct (String.eqb_spec path "manifest.json") as [->|Hne].
  - now rewrite Hnm.
  - set (c := HavenArchiveBuilder.channels _).
    set (a := HavenArchiveBuilder.attachments _).
    set (s := single "server.json" _). set (l := single "audit-log.json" _).
    replace (c ++ a ++ s ++ l ++ [("manifest.json", _)])%list
      with ((c ++ a ++ s ++ l) ++ [("manifest.json",
              TextEncoder_encode
                (JSON_stringify_manifest (HavenArchiveReader.manifest reader)))])%list
      by now rewrite <- !app_assoc.
    rewrite (js_get_app path (c ++ a ++ s ++ l)%list).
    destruct (js_get path (c ++ a ++ s ++ l)%list); [reflexivity|].
    cbn [js_get]. destruct (String.eqb_spec "manifest.json" path); [congruence|reflexivity].
Qed.

(** X9.  [getAttachment] on the name [attachments/<id>.bin] returns the
    data of the last [addAttachment] with that id, and [null] when there
    was none. *)
Theorem getAttachment_last (id : string) :
  opened now metadata cs signingKey reader ->
  HavenArchiveReader.getAttachment reader ("attachments/" ++ id ++ ".bin")
  = last_attachment id cs.
Proof.
  intros H. unfold HavenArchiveReader.getAttachment.
  rewrite (opened_lookup _ H).
  destruct (calls_well_named metadata cs) as (_ & _ & Hpc & _).
  rewrite (js_get_none_by channel_path _ _ Hpc)
    by (apply attachment_not_channel, attachment_key_prefix).
  rewrite attachments_last.
  destruct (last_attachment id cs); [reflexivity|].
  rewrite !js_get_app, !js_get_single_other by discriminate. reflexivity.
Qed.

(** X10.  [getAttachment] is not confined to attachments: it returns the
    data of every file of the archive under its name, those of
    [manifest.json] included. *)
Theorem getAttachment_any_file :
  opened now metadata cs signingKey reader ->
  (forall path data,
     In (path, data) (HavenArchiveReader.files reader) ->
     HavenArchiveReader.getAttachment reader path = Some data)
  /\ HavenArchiveReader.getAttachment reader "manifest.json"
     = Some (TextEncoder_encode
               (JSON_stringify_manifest (HavenArchiveReader.manifest reader))).
Proof.
  intros H. destruct (opened_reader H) as (_ & Hf & Hnd & _).
  assert (Hall : forall path data,
            In (path, data) (HavenArchiveReader.files reader) ->
            HavenArchiveReader.getAttachment reader path = Some data)
    by (intros path data Hin; now apply js_get_In).
  split; [exact Hall|]. apply Hall. rewrite Hf.
  repeat (apply in_or_app; right). now left.
Qed.

(** X11.  [getServerMeta] parses the text of the last [addServerMeta],
    and returns [null] when there was none. *)
Theorem getServerMeta_last {P : JsonParse} :
  opened now metadata cs signingKey reader ->
  HavenArchiveReader.getServerMeta reader
  = parsed JSON_parse_server (option_map JSON_stringify_server (last_server cs)).
Proof.
  intros H. unfold HavenArchiveReader.getServerMeta.
  rewrite (opened_lookup _ H).
  destruct (calls_well_named metadata cs) as (_ & _ & Hpc & Hpa).
  rewrite (js_get_none_by channel_path _ _ Hpc) by reflexivity.
  rewrite (js_get_none_by (fun k => startsWith k "attachments/") _ _ Hpa)
    by reflexivity.
  rewrite serverMeta_last.
  destruct (last_server cs) as [s|]; cbn [option_map single app js_get parsed].
  - now rewrite String.eqb_refl, decode_encode.
  - now rewrite js_get_app, js_get_single_other by discriminate.
Qed.

(** X12.  [getAuditLog] parses the text of the last [addAuditLog], and
    returns [null] when there was none. *)
Theorem getAuditLog_last {P : JsonParse} :
  opened now metadata cs signingKey reader ->
  HavenArchiveReader.getAuditLog reader
  = parsed JSON_parse_entries
      (option_map JSON_stringify_entries (last_audit cs)).
Proof.
  intros H. unfold HavenArchiveReader.getAuditLog.
  rewrite (opened_lookup _ H).
  destruct (calls_well_named metadata cs) as (_ & _ & Hpc & Hpa).
  rewrite (js_get_none_by channel_path _ _ Hpc) by reflexivity.
  rewrite (js_get_none_by (fun k => startsWith k "attachments/") _ _ Hpa)
    by reflexivity.
  rewrite auditLog_last, js_get_app, js_get_single_other by discriminate.
  destruct (last_audit cs) as [e|]; cbn [option_map single app js_get parsed];
    [|reflexivity].
  now rewrite String.eqb_refl, decode_encode.
Qed.

Lemma getChannelExport_lookup (name : string) :
  opened now metadata cs signingKey reader ->
  HavenArchiveReader.getChannelExport reader name
  = parsed JSON_parse_channel
      (option_map JSON_stringify_channel
         match last_added ("channels/" ++ name ++ ".json") cs with
         | Some c => Some c
         | None => last_added ("dms/" ++ name ++ ".json") cs
         end).
Proof.
  intros H. unfold HavenArchiveReader.getChannelExport.
  rewrite !(opened_lookup _ H), !channels_last_added.
  destruct (calls_well_named metadata cs) as (_ & _ & _ & Hpa).
  destruct (last_added ("channels/" ++ name ++ ".json") cs) as [c|];
    cbn [option_map parsed].
  { now rewrite decode_encode. }
  rewrite (js_get_none_by (fun k => startsWith k "attachments/") _ _ Hpa)
    by reflexivity.
  rewrite !js_get_app, !js_get_single_other by discriminate.
  change (js_get ("channels/" ++ name ++ ".json") [("manifest.json", _)])
    with (@None bytes).
  destruct (last_added ("dms/" ++ name ++ ".json") cs) as [c|];
    cbn [option_map parsed].
  { now rewrite decode_encode. }
  rewrite (js_get_none_by (fun k => startsWith k "attachments/") _ _ Hpa)
    by reflexivity.
  reflexivity.
Qed.

(** X13.  [getChannelExport(name)] parses the text of the export that
    was added last under [channels/<name>.json], or else under
    [dms/<name>.json], and returns [null] when there is neither. *)
Theorem getChannelExport_last (name : string) :
  opened now metadata cs signingKey reader ->
  HavenArchiveReader.getChannelExport reader name
  = parsed JSON_parse_channel
      (option_map JSON_stringify_channel
         match last_added ("channels/" ++ name ++ ".json") cs with
         | Some c => Some c
         | None => last_added ("dms/" ++ name ++ ".json") cs
         end).
Proof. apply getChannelExport_lookup. Qed.

(** X14.  A channel is found under the name that [addChannel] made of
    its name, not under its own: for a name with a unit outside
    [a-zA-Z0-9_-], [getChannelExport] returns [null] whatever was
    added. *)
Theorem getChannelExport_other_name (name : string) :
  opened now metadata cs signingKey reader ->
  replace_non_slug name <> name ->
  HavenArchiveReader.getChannelExport reader name = Return None.
Proof.
  intros H Hname. rewrite (getChannelExport_lookup _ H).
  destruct (last_added ("channels/" ++ name ++ ".json") cs) as [c|] eqn:E1.
  { exfalso. apply Hname. apply last_added_key in E1 as [E1 _].
   
    apply channel_key_name with (c := c) (prefix := "channels/");
      [now left|exact E1]. }
  destruct (last_added ("dms/" ++ name ++ ".json") cs) as [c|] eqn:E2.
  { exfalso. apply Hname. apply last_added_key in E2 as [E2 _].
   
    apply channel_key_name with (c := c) (prefix := "dms/");
      [now right|exact E2]. }
  reflexivity.
Qed.

(** X15.  When [JSON.parse] gives back the exports that were added,
    [getChannelExports] returns exactly the exports that were added last
    under their file names: an export that a later one of the same file
    name replaced is not among them, and no other file is taken for a
    channel. *)
Theorem getChannelExports_last (c : HavenChannelExport.t) :
  opened now metadata cs signingKey reader ->
  (forall e, In e (added cs) ->
     JSON_parse_channel (JSON_stringify_channel e) = Return e) ->
  In c (HavenArchiveReader.getChannelExports reader)
  <-> last_added (HavenArchiveBuilder.channel_key c) cs = Some c.
Proof.
  intros H Hparse. destruct (opened_reader H) as (_ & Hf & _ & _).
  destruct (calls_well_named metadata cs) as (Hnd & _ & Hpc & Hpa).
  unfold HavenArchiveReader.getChannelExports, Object_entries.
  rewrite Hf, !flat_map_app.
  set (f := fun pd : string * bytes => _).
  assert (Hatt : flat_map f (HavenArchiveBuilder.attachments (calls metadata cs))
                 = []).
  { apply flat_map_nil. intros [k d] Hin. unfold f. cbn [fst snd].
    rewrite Forall_forall in Hpa.
    pose proof (attachment_not_channel k
                  (Hpa k (in_map fst _ _ Hin))) as Hk.
    unfold channel_path in Hk. now rewrite Hk. }
  assert (Hrest : forall path data, channel_path path = false ->
                  flat_map f (single path data) = []).
  { intros path [d|] Hp; [|reflexivity]. cbn [single flat_map]. unfold f.
    cbn [fst snd]. unfold channel_path in Hp. now rewrite Hp. }
  rewrite Hatt, !Hrest by reflexivity. cbn [flat_map app].
  change (f ("manifest.json", _)) with (@nil HavenChannelExport.t).
  rewrite !app_nil_r. rewrite in_flat_map. split.
  - intros ([k d] & Hin & Hc). unfold f in Hc. cbn [fst snd] in Hc.
    pose proof (js_get_In _ _ _ Hnd Hin) as Hget.
    rewrite channels_last_added in Hget.
    destruct (last_added k cs) as [e|] eqn:He; [|discriminate Hget].
    injection Hget as <-. rewrite decode_encode in Hc.
    destruct (last_added_key _ _ He) as [Hk He'].
    rewrite (Hparse e He') in Hc.
    destruct ((_ || _) && _); [|destruct Hc].
    destruct Hc as [<-|[]]. now rewrite Hk.
  - intros Hlast.
    exists (HavenArchiveBuilder.channel_key c,
            TextEncoder_encode (JSON_stringify_channel c)).
    split.
    + apply js_get_Some_In. now rewrite channels_last_added, Hlast.
    + unfold f. cbn [fst snd].
      pose proof (channel_key_is_channel_file c) as Hk. rewrite Hk.
      rewrite decode_encode, (Hparse c) by now apply last_added_key in Hlast.
      now left.
Qed.
End Accessors.

(** The reader of the archive of [Model.session], and that of the
    archive of [Model.dev_ops_session]. *)
Lemma Model_opened :
  opened (S := Model.sodium) (J := Model.written_json Model.seed_key)
    (F := Model.written_fflate Model.seed_key) Model.now
    (Model.metadata Model.seed_key) Model.session (Some Model.seed)
    (Model.reader Model.seed_key).
Proof.
  exists [], (Model.written_files Model.seed_key),
    (Model.written_manifest Model.seed_key).
  repeat split; vm_compute; reflexivity.
Qed.

Lemma Model_opened_dev_ops :
  opened (S := Model.sodium) (J := Model.dev_ops_json)
    (F := Model.dev_ops_fflate) Model.now
    (Model.metadata Model.seed_key) Model.dev_ops_session (Some Model.seed)
    Model.dev_ops_reader.
Proof.
  exists [], Model.dev_ops_files, Model.dev_ops_manifest.
  repeat split; vm_compute; reflexivity.
Qed.

(** The archive of [Model.session] holds its five files in the order of
    [build]. *)
Lemma archive_layout_witness :
  Object_keys (HavenArchiveReader.files (Model.reader Model.seed_key))
  = ["channels/general.json"; "attachments/att-001.bin"; "server.json";
     "audit-log.json"; "manifest.json"]
  /\ NoDup (Object_keys
              (HavenArchiveReader.files (Model.reader Model.seed_key))).
Proof.
  destruct (archive_layout Model_opened) as [H1 H2].
  split; [|exact H2]. rewrite H1. reflexivity.
Defined.

(** The manifest of the archive of [Model.session] lists the attachment
    with the hash and the size of its four bytes. *)
Lemma manifest_lists_other_files_witness :
  js_get Model.attachment
    (manifest_files
       (HavenArchiveReader.manifest (Model.reader Model.seed_key)))
  = Some (entry_of (S := Model.sodium) [x66; x61; x6b; x65]).
Proof.
  exact (manifest_lists_other_files Model.attachment Model_opened).
Defined.

(** The attachment of [Model.session] comes back under its file name. *)
Lemma getAttachment_last_witness :
  HavenArchiveReader.getAttachment (Model.reader Model.seed_key)
    "attachments/att-001.bin"
  = Some [x66; x61; x6b; x65].
Proof.
  exact (getAttachment_last "att-001" Model_opened).
Defined.

(** [getAttachment] returns the manifest of the archive of
    [Model.session]. *)
Lemma getAttachment_any_file_witness :
  HavenArchiveReader.getAttachment (Model.reader Model.seed_key)
    "manifest.json"
  = Some (TextEncoder_encode "2026-02-22T12:00:00Z").
Proof.
  exact (proj2 (getAttachment_any_file Model_opened)).
Defined.

(** The server export and the audit log of [Model.session] come back. *)
Lemma getServerMeta_last_witness :
  HavenArchiveReader.getServerMeta (P := Model.parse)
    (Model.reader Model.seed_key)
  = Return (Some JNull).
Proof.
  exact (getServerMeta_last (P := Model.parse) Model_opened).
Defined.

Lemma getAuditLog_last_witness :
  HavenArchiveReader.getAuditLog (P := Model.parse)
    (Model.reader Model.seed_key)
  = Return (Some []).
Proof.
  exact (getAuditLog_last (P := Model.parse) Model_opened).
Defined.

(** The channel of [Model.session] comes back under its name. *)
Lemma getChannelExport_last_witness :
  HavenArchiveReader.getChannelExport
    (J := Model.written_json Model.seed_key) (Model.reader Model.seed_key)
    "general"
  = Return (Some Model.general).
Proof.
  exact (getChannelExport_last "general" Model_opened).
Defined.

(** The channel [dev ops] is added and written, and is not found under
    its name; it is found under [dev_ops]. *)
Lemma getChannelExport_other_name_witness :
  HavenArchiveReader.getChannelExport (J := Model.dev_ops_json)
    Model.dev_ops_reader "dev ops"
  = Return None
  /\ HavenArchiveReader.getChannelExport (J := Model.dev_ops_json)
       Model.dev_ops_reader "dev_ops"
     = Return (Some Model.dev_ops_1).
Proof.
  split; [|reflexivity].
  apply (getChannelExport_other_name (name := "dev ops")
           Model_opened_dev_ops).
  discriminate.
Defined.

(** [getChannelExports] on the archive of [Model.session] returns its
    channel. *)
Lemma getChannelExports_last_witness :
  In Model.general
    (HavenArchiveReader.getChannelExports
       (J := Model.written_json Model.seed_key)
       (Model.reader Model.seed_key)).
Proof.
  apply (getChannelExports_last Model.general Model_opened).
  - intros e [<-|[]]. reflexivity.
  - reflexivity.
Defined.

(** ** Signatures and hashes *)

Lemma canonicalManifest_set_signatures (m : HavenManifest)
  (user server : option string) :
  canonicalManifest (set_signatures m user server) = canonicalManifest m.
Proof.
  unfold canonicalManifest, canonicalObject.
  now rewrite !manifest_rest_object.
Qed.

(** X16.  The two signature fields have no part in what is signed: a
    manifest signs and verifies the same whatever [user_signature] and
    [server_signature] it carries, so the signature that [build] attaches
    after signing verifies on the manifest that carries it. *)
Theorem signatures_not_signed {S : Sodium} (m : HavenManifest)
  (user server : option string) :
  canonicalManifest (set_signatures m user server) = canonicalManifest m
  /\ (forall privateKey,
        signManifest (set_signatures m user server) privateKey
        = signManifest m privateKey)
  /\ (forall signature publicKey,
        verifyManifest (set_signatures m user server) signature publicKey
        = verifyManifest m signature publicKey).
Proof.
  pose proof (canonicalManifest_set_signatures m user server) as E.
  split; [exact E|]. split.
  - intros sk. unfold signManifest. now rewrite E.
  - intros sig pk. unfold verifyManifest. now rewrite E.
Qed.

Lemma join_empty_cons (x : string) (xs : list string) :
  join "" (x :: xs) = x ++ join "" xs.
Proof.
  destruct xs as [|y ys]; cbn [join]; [|reflexivity].
  induction x as [|c x IH]; cbn; [reflexivity|]. now rewrite <- IH.
Qed.

Lemma hex_digit_is_hex (n : N) : is_hex_digit (hex_digit n) = true.
Proof.
  destruct n as [|p]; [reflexivity|].
  do 4 (destruct p as [p|p|]; try reflexivity).
Qed.

Lemma hex_digit_inj (n m : N) :
  (n < 16)%N -> (m < 16)%N -> hex_digit n = hex_digit m -> n = m.
Proof.
  intros Hn Hm.
  assert (En : In n (map N.of_nat (seq 0 16))).
  { replace n with (N.of_nat (N.to_nat n)) by apply N2Nat.id.
    apply in_map, in_seq. lia. }
  assert (Em : In m (map N.of_nat (seq 0 16))).
  { replace m with (N.of_nat (N.to_nat m)) by apply N2Nat.id.
    apply in_map, in_seq. lia. }
  cbn in En, Em.
  repeat (destruct En as [<-|En]; [|]); try destruct En;
    repeat (destruct Em as [<-|Em]; [|]); try destruct Em;
    intros H; try reflexivity; discriminate H.
Qed.

Lemma hex2_inj (b1 b2 : byte) :
  hex2 (Byte.to_N b1) = hex2 (Byte.to_N b2) -> b1 = b2.
Proof.
  unfold hex2. intros [= H1 H2].
  pose proof (Byte.to_N_bounded b1) as B1.
  pose proof (Byte.to_N_bounded b2) as B2.
  apply hex_digit_inj in H1; [|div_lia..].
  apply hex_digit_inj in H2; [|div_lia..].
  assert (E : Byte.to_N b1 = Byte.to_N b2) by div_lia.
  apply (f_equal Byte.of_N) in E. rewrite !Byte.of_to_N in E. congruence.
Qed.

Lemma hex_join_inj (h1 h2 : bytes) :
  join "" (map (fun b => hex2 (Byte.to_N b)) h1)
  = join "" (map (fun b => hex2 (Byte.to_N b)) h2) ->
  h1 = h2.
Proof.
  revert h2. induction h1 as [|a h1 IH]; intros [|b h2]; cbn [map];
    rewrite ?join_empty_cons; intros H.
  - reflexivity.
  - discriminate H.
  - discriminate H.
  - assert (Hab : hex2 (Byte.to_N a) = hex2 (Byte.to_N b)).
    { unfold hex2 in *. cbn [append] in H. now injection H as -> ->. }
    rewrite Hab in H. apply append_inv_head in H.
    f_equal; [now apply hex2_inj|now apply IH].
Qed.

(** X17.  [computeFileHash] returns two lowercase hexadecimal digits for
    each byte of the digest, and nothing else. *)
Theorem computeFileHash_hex {S : Sodium} (data : bytes) :
  String.length (computeFileHash data)
  = (2 * List.length (crypto_hash_sha256 data))%nat
  /\ string_forall is_hex_digit (computeFileHash data) = true.
Proof.
  unfold computeFileHash.
  induction (crypto_hash_sha256 data) as [|b h [IH1 IH2]]; [now split|].
  cbn [map]. rewrite join_empty_cons. unfold hex2 at 1 3.
  cbn [append String.length string_forall List.length].
  rewrite IH1, IH2, !hex_digit_is_hex. split; [lia|reflexivity].
Qed.

(** X18.  Two files have the same [computeFileHash] exactly when they
    have the same digest: the hexadecimal text, two digits for each
    byte, loses nothing of it. *)
Theorem computeFileHash_same_digest {S : Sodium} (data1 data2 : bytes) :
  computeFileHash data1 = computeFileHash data2
  <-> crypto_hash_sha256 data1 = crypto_hash_sha256 data2.
Proof.
  unfold computeFileHash. split.
  - apply hex_join_inj.
  - now intros ->.
Qed.

Section Signer.
Context {S : Sodium}.

(** X19.  [verify] does not look at [server_signature]: whatever that
    field holds, the result is the same. *)
Theorem verify_ignores_server_signature (r : HavenArchiveReader.t)
  (server : option string) :
  HavenArchiveReader.verify
    {| HavenArchiveReader.files := HavenArchiveReader.files r;
       HavenArchiveReader.manifest :=
         set_signatures (HavenArchiveReader.manifest r)
           (user_signature (HavenArchiveReader.manifest r)) server |}
  = HavenArchiveReader.verify r.
Proof.
  unfold HavenArchiveReader.verify, Object_entries.
  rewrite !check_files_flat.
  cbn [HavenArchiveReader.manifest HavenArchiveReader.files set_signatures
       files user_signature exported_by].
  replace (flat_map (HavenArchiveReader.check_file _ []) _)
    with (flat_map (HavenArchiveReader.check_file r [])
            (manifest_files (HavenArchiveReader.manifest r)))
    by (apply flat_map_ext_in; now intros entry _).
  destruct (user_signature (HavenArchiveReader.manifest r)) as [sig|];
    [|reflexivity].
  destruct (truthy sig); [|reflexivity].
  destruct (fromBase64 _) as [pk|e]; [|reflexivity]. cbn [bind].
  pose proof (canonicalManifest_set_signatures
                (HavenArchiveReader.manifest r) (Some sig) server) as E.
  unfold verifyManifest. now rewrite E.
Qed.

(** X20.  [verify] checks the signature against the key that the
    manifest itself names, and the canonical form of the manifest: anyone
    can put the public key of a pair of their own in [identity_key],
    sign with the private key, and the archive verifies, its files being
    as the manifest lists them. *)
Theorem verify_accepts_any_signer {L : SignLaws S}
  (r : HavenArchiveReader.t) (seed : bytes) :
  (forall entry,
     In entry (manifest_files (HavenArchiveReader.manifest r)) ->
     file_ok (HavenArchiveReader.files r) entry) ->
  let kp := crypto_sign_seed_keypair seed in
  let m :=
    set_identity_key (HavenArchiveReader.manifest r)
      (toBase64 (publicKey kp)) in
  exists signature,
    signManifest m (privateKey kp) = Return signature
    /\ HavenArchiveReader.verify
         {| HavenArchiveReader.files := HavenArchiveReader.files r;
            HavenArchiveReader.manifest :=
              set_signatures m (Some signature) (server_signature m) |}
       = Return {| valid := true; issues := [] |}.
Proof.
  intros Hfiles kp m.
  destruct (sign_returns seed (TextEncoder_encode (canonicalManifest m)))
    as [raw Hraw].
  fold kp in Hraw. exists (toBase64 raw). split.
  - unfold signManifest. now rewrite Hraw.
  - apply verify_valid_checks. split; [exact Hfiles|].
    intros sig [= <-] _. exists (publicKey kp). split.
    + cbn. apply fromBase64_toBase64.
    + apply verifyManifest_true. cbn [HavenArchiveReader.manifest].
      rewrite canonicalManifest_set_signatures. now apply verify_signed.
Qed.
End Signer.

(** The archive of [Model.session], signed again with the key of
    [Model.other_seed], verifies. *)
Lemma verify_accepts_any_signer_witness :
  let m :=
    set_identity_key (Model.written_manifest Model.seed_key)
      (toBase64 Model.other_seed) in
  exists signature,
    signManifest (S := Model.sodium) m Model.other_seed = Return signature
    /\ HavenArchiveReader.verify (S := Model.sodium)
         {| HavenArchiveReader.files := Model.written_files Model.seed_key;
            HavenArchiveReader.manifest :=
              set_signatures m (Some signature) None |}
       = Return {| valid := true; issues := [] |}.
Proof.
  apply (@verify_accepts_any_signer Model.sodium Model_sign_laws
           (Model.reader Model.seed_key) Model.other_seed).
  intros entry Hin. vm_compute in Hin.
  repeat (destruct Hin as [<-|Hin];
          [eexists; split; [vm_compute; reflexivity
                           |split; vm_compute; reflexivity]|]).
  destruct Hin.
Defined.

Section Signed.
Context {S : Sodium} {J : JsonText} {F : Fflate}.

(** X21.  [build] never sets [server_signature].  Without a signing key
    the manifest has no [user_signature]; with one, [user_signature] is
    the detached signature, in base64, of the canonical form of the
    manifest that is written. *)
Theorem build_signature (now : nat -> string) (metadata : ArchiveMetadata.t)
  (cs : list BuilderCall) (signingKey : option bytes)
  (reader : HavenArchiveReader.t) :
  opened now metadata cs signingKey reader ->
  let m := HavenArchiveReader.manifest reader in
  server_signature m = None
  /\ match signingKey with
     | None => user_signature m = None
     | Some key =>
         exists raw,
           crypto_sign_detached (TextEncoder_encode (canonicalManifest m)) key
           = Return raw
           /\ user_signature m = Some (toBase64 raw)
     end.
Proof.
  intros H m. destruct (opened_reader H) as (Hm & _). fold m in Hm.
  unfold HavenArchiveBuilder.manifest in Hm.
  destruct signingKey as [key|].
  - unfold signManifest in Hm.
    destruct (crypto_sign_detached _ key) as [raw|e] eqn:Hraw;
      [|discriminate Hm].
    cbn [bind] in Hm. injection Hm as Hm. split; [now rewrite <- Hm|].
    exists raw. split; [|now rewrite <- Hm].
    rewrite <- Hm, canonicalManifest_with_user_signature. exact Hraw.
  - injection Hm as Hm. now rewrite <- Hm.
Qed.
End Signed.

(** The manifest of the archive of [Model.session], built with the key
    of [Model.seed], carries the signature of its canonical form. *)
Lemma build_signature_witness :
  let m := Model.written_manifest Model.seed_key in
  server_signature m = None
  /\ exists raw,
       crypto_sign_detached (Sodium := Model.sodium)
         (TextEncoder_encode (canonicalManifest m)) Model.seed
       = Return raw
       /\ user_signature m = Some (toBase64 raw).
Proof.
  exact (build_signature Model_opened).
Defined.
